(* ===== verification/_CoqProject ===== *)
-Q . S2P
Prelude.v
JsString.v
FileParser.v
Json.v
JsonFuel.v
GeminiService.v
App.v
Workflow.v
Display.v
Page.v
Charts.v
Schema.v
