(* ===== verification/Prelude.v ===== *)
(** * Verification of the ATS CV analyzer (lemmaiot/ats-cv-analyzer)

    The program is a single-page React application.  The user enters an
    industry and uploads a CV ([src/components/FileUpload.tsx]); the
    upload control awaits [extractTextFromFile]
    ([src/services/fileParser.ts]), which reads a text file with
    [FileReader] or a PDF with pdf.js; the Analyze button of
    [src/App.tsx] awaits [analyzeCvWithTrends]
    ([src/services/geminiService.ts]), which sends a prompt to the
    Gemini model, strips the code fences of the reply, hands it to
    [JSON.parse] and returns the parsed value with the grounding
    sources; [App] stores the outcome and renders it.

    Files, in dependency order:
    - [Prelude]: JavaScript strings as lists of UTF-16 code units (the
      scope [js_scope] and the literal notation), truthiness, a result
      monad [result] for code that throws ([Ok] or [Throw] of an [exn],
      i.e. an [Error] object with its message or any other thrown
      value) with [try_catch], the labelled reflexive-transitive closure
      [star] with [star_invariant], the hint databases [js] and [js_rw]
      and the development's tactics.
    - [JsString]: [String.prototype.trim] with ECMAScript's white-space
      set, [includes] and [Array.prototype.join]; [trim] is shown to
      remove exactly the maximal white-space prefix and suffix.
    - [FileParser]: [readTextFile], [readPdfFile] (its [try] block, page
      loop and [catch] block) and [extractTextFromFile], over the class
      [Platform] of browser and pdf.js services; theorems give the
      result on every branch and show that every rejection is one of the
      module's messages or a pdf.js message let through by the
      [includes] test.
    - [Json]: JSON values and [JSON.parse] as a fuelled recursive-descent
      parser, with a printer; theorems: parsing the printed text of any
      value gives the value back, and trailing text is rejected.
    - [JsonFuel]: every parser call returns a strictly shorter rest, and
      a parse that succeeds with some fuel succeeds with the same result
      with any fuel above the length it consumed; hence [JSON_parse]'s
      fuel never decides its outcome ([JSON_parse_fuel_adequate]).
    - [GeminiService]: the API-key check, the fence-stripping regular
      expression (its two alternatives and the global replace),
      [parseAnalysisResponse], the prompt, the request, the sources and
      the post-processing of [analyzeCvWithTrends] ([handle_response]);
      the remote model is the class [GenAI].  Theorems give the outcome
      for fenced, unfenced, badly fenced and failed replies and show
      that the function never resolves with [null].
    - [App]: the state of [App] (Module [App]) and of [FileUpload]
      (Module [FileUpload]), every handler split at its [await] into a
      start and a finish, and the session as a step relation [step]
      whose events are the controls the current render shows and the
      completions of the awaited operations, with the executable
      [exec_event] proved equal to it.  The session invariant has two
      parts proved apart, [call_inv] (the loading flag, the awaited call
      and the result) and [parse_inv] (the parsing flag, the name shown
      and the awaited extraction); the other files rely on [call_inv]
      only.  Theorems: the invariant over reachable states, one awaited
      call and one awaited extraction at most, the behaviour of a click
      and of each completion, and two traces that depart from the
      specification
      (a result shown beside an error, and a reply shown beside a CV it
      was not computed from).  Concrete sessions run on [demo_platform],
      a browser whose [FileReader] decodes one code unit per byte.
    - [Display]: [AnalysisDisplay], [ScoreBar] and [RadialProgress] as a
      render that yields what the page shows or throws (no error
      boundary: the page goes blank), over the value [JSON.parse] built,
      with the JavaScript operations they use: property access [get],
      [ToNumber] with [StringToNumber] for the score comparisons, the
      [ToPrimitive] of a parsed object, template literals and React's
      rejection of object children.  Theorems: a reply of the documented
      shape ([AnalysisResult] of src/types.ts) renders exactly its
      fields in order with the colour bands; a numeric string gets the
      colour band of its integer; a source without [web] and the accepted
      reply [{}] blank the page.
    - [Workflow]: the specification's workflow (a CV text held or not,
      loading, a result) as an abstract transition system [wf_step], and
      the abstraction [abstract] of a session: every step of a reachable
      session is a stutter or one workflow transition
      ([session_refines_workflow]).
    - [Page]: the JSX of [App] and [FileUpload] and the static [Header]
      and [HowItWorks] as the page a session renders ([App_render]):
      industry field, upload panel, Analyze button (content, colour,
      [disabled]), error banner, loading note, result view, footer.
      Theorems: while loading the page shows the note, a disabled busy
      button and no result; a documented reply ends on the page; and
      the happy path from the first render to that page is a run of
      the session for every non-blank CV, industry and documented
      reply ([happy_path]).
    - [Charts]: the geometry of [RadialProgress] over the reals (Stdlib
      [Reals], [lra]/[nra]): centre, radius, circumference and dash
      offset; the offset lies in [0, circumference] exactly for scores in
      [0, 100] ([radial_offset_bounds]).
    - [Schema]: the interfaces of src/types.ts as structural types
      [has_type] over parsed values; a reply of type [AnalysisResult]
      with typed sources renders without throwing
      ([typed_reply_renders]).

    Fuel.  [JSON_parse] runs [parse_value] with fuel [S (length text)].
    A value consuming [c] code units parses with any fuel above [c]
    (JsonFuel, a lemma about the model rather than a property of the
    program), so this fuel is enough for every text, and the round-trip
    theorem needs no fuel hypothesis.  The
    printer's [n_digits] uses fuel [S (N.to_nat n)], more than the number
    of decimal digits of [n] ([n_digits_spec]).

    Not modelled: styling (Tailwind classes, the spinner's SVG path, the
    transitions); the components the repository imports but does not
    contain ([Loader], the icons, [constants.ts], whose colours are
    named constructors); the text [Number::toString] writes; the
    rounding of numbers to binary64 doubles (numbers are exact mantissa
    and exponent, and [Math.PI] is the real pi, so a comparison can
    differ from the engine's only for a value within rounding distance
    of its bound); the decoding done by [FileReader] and the internals of
    pdf.js (both are [Platform] operations with arbitrary results); the
    remote model (arbitrary answers); [console.error] logging; the
    pdf.js worker URL; the current year of the footer (a parameter). *)

From Stdlib Require Import NArith ZArith Ascii String.
From stdpp Require Import base list options decidable.

Declare Scope js_scope.
Delimit Scope js_scope with js.

(** ** JavaScript strings

    A JavaScript string is a sequence of UTF-16 code units; we keep it
    as [list N] so that [String.prototype.trim], [\s] in regular
    expressions and the [\uXXXX] escapes of JSON act on exactly the
    values the engine sees.  Literals of the sources are written with
    [js]; since a Rocq literal can only write a double quote doubled,
    the character [~] (which no source literal contains) stands for it. *)

Abbreviation jstr := (list N).

Definition cu_of_ascii (a : ascii) : N :=
  if Ascii.eqb a "~"%char then 34%N else N_of_ascii a.

Fixpoint js (s : string) : list N :=
  match s with
  | EmptyString => []
  | String a s' => cu_of_ascii a :: js s'
  end.

Notation "‹ s ›" := (js s%string) (at level 0, s at level 0, format "‹ s ›") : js_scope.

(** Truthiness of a [string | null] value ([if (text)], [!cvText]). *)
Definition str_truthy (s : list N) : bool :=
  match s with [] => false | _ => true end.

Definition opt_str_truthy (o : option (list N)) : bool :=
  match o with Some s => str_truthy s | None => false end.

(** ** Thrown values and the result monad

    An [async] function either resolves with a value or rejects with a
    thrown value; [throw new Error(m)] throws an [Error] object whose
    [message] is [m].  [NonError] stands for a thrown value that is not
    an [Error] instance (the code distinguishes the two with
    [err instanceof Error]). *)

Inductive exn : Type :=
| ErrorObj (message : list N)
| NonError.

Inductive result (A : Type) : Type :=
| Ok (a : A)
| Throw (e : exn).
Arguments Ok {A} a.
Arguments Throw {A} e.

#[export] Instance result_ret : MRet result := λ A a, Ok a.
#[export] Instance result_bind : MBind result :=
  λ A B f m, match m with Ok a => f a | Throw e => Throw e end.

Definition throw_msg {A} (m : list N) : result A := Throw (ErrorObj m).

(** [try { m } catch (e) { h(e) }] *)
Definition try_catch {A} (m : result A) (h : exn → result A) : result A :=
  match m with Ok a => Ok a | Throw e => h e end.

(** ** Labelled transition sequences *)

Section Star.
Context {St L : Type} (step : St → L → St → Prop).

Inductive star : St → list L → St → Prop :=
| star_refl s : star s [] s
| star_step s l s' ls s'' : step s l s' → star s' ls s'' → star s (l :: ls) s''.

(** An invariant preserved by every step holds after every sequence. *)
Lemma star_invariant (P : St → Prop) :
  (∀ s l s', P s → step s l s' → P s') →
  ∀ s ls s', star s ls s' → P s → P s'.
Proof. intros Hpres s ls s' Hs. induction Hs; eauto. Qed.
End Star.

(** ** Shared lemmas and automation *)

Create HintDb js.
Create Rewrite HintDb js_rw.

Lemma bind_Ok {A B} (a : A) (f : A → result B) : (Ok a ≫= f) = f a.
Proof. done. Qed.

Lemma bind_Throw {A B} e (f : A → result B) : (Throw e ≫= f) = Throw e.
Proof. done. Qed.

Lemma bind_Ok_inv {A B} (m : result A) (f : A → result B) b :
  (m ≫= f) = Ok b → ∃ a, m = Ok a ∧ f a = Ok b.
Proof. destruct m; simpl; [eauto | discriminate]. Qed.

Lemma try_catch_Ok {A} (a : A) h : try_catch (Ok a) h = Ok a.
Proof. done. Qed.

Lemma try_catch_Throw {A} e (h : exn → result A) : try_catch (Throw e) h = h e.
Proof. done. Qed.

Lemma app_singleton_l {A} (x : A) (l : list A) : [x] ++ l = x :: l.
Proof. done. Qed.

#[export] Hint Rewrite @bind_Ok @bind_Throw @try_catch_Ok @try_catch_Throw : js_rw.

(** Equality of JavaScript strings, by code units. *)
Fixpoint jstr_eqb (a b : jstr) : bool :=
  match a, b with
  | [], [] => true
  | c :: a', d :: b' => N.eqb c d && jstr_eqb a' b'
  | _, _ => false
  end.

Lemma jstr_eqb_eq a b : jstr_eqb a b = true ↔ a = b.
Proof.
  revert b; induction a as [|c a IH]; intros [|d b]; simpl; try done.
  rewrite andb_true_iff, N.eqb_eq, IH. split; [by intros [-> ->] | by intros [= -> ->]].
Qed.

Lemma mapM_map_Some {A B C} (f : B → option C) (g : A → B) (h : A → C) (l : list A) :
  (∀ x, f (g x) = Some (h x)) → mapM f (map g l) = Some (map h l).
Proof. intros Hf. induction l as [|x l IH]; [done|]. simpl. by rewrite Hf, IH. Qed.

(** [mapM] succeeds when [f] succeeds on every element, and its results
    keep what is known of each. *)
Lemma mapM_Forall_Some {A B} (f : A → option B) (P : B → Prop) (l : list A) :
  Forall (λ x, ∃ y, f x = Some y ∧ P y) l → ∃ ys, mapM f l = Some ys ∧ Forall P ys.
Proof.
  induction 1 as [|x l (y & Hy & HP) _ (ys & Hys & HPs)]; [by exists []|].
  exists (y :: ys). simpl. rewrite Hy, Hys. split; [reflexivity | by constructor].
Qed.

Lemma option_bind_None_r {A B} (m : option A) (f : A → option B) :
  (∀ x, f x = None) → m ≫= f = None.
Proof. intros Hf. destruct m as [x|]; [exact (Hf x) | reflexivity]. Qed.

(** A chain of option binds fails when a later step fails whatever the
    earlier ones gave: go under the binds until that step is reached. *)
Ltac bind_to_None := repeat (first [reflexivity | apply option_bind_None_r; intros ?]).

(** Close [a ≠ b] between closed terms by computation. *)
Ltac neq_by_compute := let Heq := fresh "Heq" in intros Heq; vm_compute in Heq; discriminate Heq.
