(* ===== verification/JsString.v ===== *)
(** * JavaScript string built-ins used by the sources

    [String.prototype.trim] (fileParser.ts, App.tsx), the [\s] class of
    the fence-stripping regular expression (geminiService.ts),
    [String.prototype.includes] (the error classification of
    [readPdfFile]) and [Array.prototype.join] (the page text of
    [readPdfFile]), over UTF-16 code units as ECMAScript defines them. *)

From Stdlib Require Import NArith.
From stdpp Require Import base list options decidable.
From S2P Require Import Prelude.

Local Open Scope N_scope.

(** ** White space

    ECMAScript's [WhiteSpace] and [LineTerminator] code points, the set
    both [trim] and the regular-expression class [\s] remove: TAB, LF,
    VT, FF, CR, SPACE, NBSP, U+1680, U+2000..U+200A, LS, PS, U+202F,
    U+205F, U+3000 and the BOM U+FEFF.  All of them are BMP code points,
    so acting on code units is the same as acting on code points. *)

Definition ws_code_units : list N :=
  [9; 10; 11; 12; 13; 32; 160; 5760; 8232; 8233; 8239; 8287; 12288; 65279].

Definition is_ws (c : N) : bool :=
  existsb (N.eqb c) ws_code_units || ((8192 <=? c) && (c <=? 8202)).

Definition all_ws (s : jstr) : Prop := Forall (λ c, is_ws c = true) s.

(** The first code unit of [s], if any, is not white space. *)
Definition starts_non_ws (s : jstr) : Prop :=
  match s with [] => True | c :: _ => is_ws c = false end.

(** ** trim *)

Fixpoint trim_start (s : jstr) : jstr :=
  match s with
  | [] => []
  | c :: s' => if is_ws c then trim_start s' else s
  end.

Definition trim_end (s : jstr) : jstr := rev (trim_start (rev s)).

Definition trim (s : jstr) : jstr := trim_end (trim_start s).

(** ** includes, prefixes, join *)

Fixpoint is_prefix (p s : jstr) : bool :=
  match p, s with
  | [], _ => true
  | c :: p', d :: s' => N.eqb c d && is_prefix p' s'
  | _ :: _, [] => false
  end.

(** [s.includes(pat)] *)
Fixpoint includes (s pat : jstr) : bool :=
  is_prefix pat s || match s with [] => false | _ :: s' => includes s' pat end.

(** [arr.join(sep)] *)
Fixpoint join (sep : jstr) (l : list jstr) : jstr :=
  match l with
  | [] => []
  | [x] => x
  | x :: l' => x ++ sep ++ join sep l'
  end.

(** ** Lemmas *)

Lemma trim_start_split s :
  ∃ pre, s = pre ++ trim_start s ∧ all_ws pre ∧ starts_non_ws (trim_start s).
Proof.
  induction s as [|c s IH]; simpl.
  - exists []. repeat constructor.
  - destruct (is_ws c) eqn:Hc.
    + destruct IH as (pre & Hs & Hpre & Hhd). exists (c :: pre).
      split; [simpl; f_equal; exact Hs|]. split; [by constructor|done].
    + exists []. repeat constructor. simpl. done.
Qed.

Lemma trim_start_id s : starts_non_ws s → trim_start s = s.
Proof. destruct s as [|c s]; simpl; [done|]. by intros ->. Qed.

Lemma trim_start_all_ws s : all_ws s → trim_start s = [].
Proof. induction 1 as [|c s Hc _ IH]; simpl; [done|]. by rewrite Hc. Qed.

Lemma trim_start_app_ws pre s : all_ws pre → trim_start (pre ++ s) = trim_start s.
Proof. induction 1 as [|c pre Hc _ IH]; simpl; [done|]. by rewrite Hc. Qed.

#[export] Hint Rewrite trim_start_app_ws using assumption : js_rw.

Lemma is_prefix_spec p s : is_prefix p s = true ↔ ∃ r, s = p ++ r.
Proof.
  revert s; induction p as [|c p IH]; intros [|d s]; simpl.
  - split; eauto.
  - split; eauto.
  - split; [done|]. intros [r Hr]; discriminate.
  - rewrite andb_true_iff, N.eqb_eq, IH. split.
    + intros [-> [r ->]]. eauto.
    + intros [r Hr]. injection Hr as -> ->. eauto.
Qed.

Lemma includes_spec s pat : includes s pat = true ↔ ∃ a b, s = a ++ pat ++ b.
Proof.
  induction s as [|c s IH]; simpl; rewrite orb_true_iff, is_prefix_spec.
  - split.
    + intros [[r Hr] | ?]; [|done]. exists [], r. done.
    + intros ([|x a] & b & Hab); [left; eauto | discriminate].
  - rewrite IH. split.
    + intros [[r Hr] | (a & b & ->)]; [exists [], r; done | exists (c :: a), b; done].
    + intros ([|x a] & b & Hab); [left; eauto|].
      injection Hab as -> ->. right. eauto.
Qed.

Lemma includes_app_l s1 s2 pat : includes s1 pat = true → includes (s1 ++ s2) pat = true.
Proof.
  rewrite !includes_spec. intros (a & b & ->). exists a, (b ++ s2).
  by rewrite !app_assoc.
Qed.

Definition ends_non_ws (s : jstr) : Prop := starts_non_ws (rev s).

Lemma all_ws_app a b : all_ws (a ++ b) ↔ all_ws a ∧ all_ws b.
Proof. apply Forall_app. Qed.

Lemma all_ws_rev s : all_ws s → all_ws (rev s).
Proof. apply Forall_rev. Qed.

#[export] Hint Resolve all_ws_rev : js.

Lemma starts_non_ws_app a b : starts_non_ws (a ++ b) → starts_non_ws a.
Proof. by destruct a. Qed.

Lemma trim_end_split s :
  ∃ suf, s = trim_end s ++ suf ∧ all_ws suf ∧ ends_non_ws (trim_end s).
Proof.
  destruct (trim_start_split (rev s)) as (pre & Hs & Hpre & Hhd).
  exists (rev pre). unfold trim_end, ends_non_ws. rewrite rev_involutive.
  split; [|by split; [apply all_ws_rev|]].
  transitivity (rev (rev s)); [by rewrite rev_involutive|].
  rewrite Hs at 1. by rewrite rev_app_distr.
Qed.

Lemma trim_end_id s : ends_non_ws s → trim_end s = s.
Proof. intros H. unfold trim_end. rewrite trim_start_id by done. apply rev_involutive. Qed.

Lemma trim_end_all_ws s : all_ws s → trim_end s = [].
Proof. intros H. unfold trim_end. rewrite trim_start_all_ws by auto with js. done. Qed.

(** [trim] removes exactly the maximal white-space prefix and suffix. *)
Lemma trim_split s :
  ∃ pre suf, s = pre ++ trim s ++ suf ∧ all_ws pre ∧ all_ws suf ∧
             starts_non_ws (trim s) ∧ ends_non_ws (trim s).
Proof.
  destruct (trim_start_split s) as (pre & Hs & Hpre & Hhd).
  destruct (trim_end_split (trim_start s)) as (suf & Ht & Hsuf & Hlast).
  exists pre, suf. unfold trim. repeat split; auto.
  - rewrite Hs at 1. rewrite Ht at 1. done.
  - apply (starts_non_ws_app _ suf). by rewrite <- Ht.
Qed.

Lemma trim_nil_iff s : trim s = [] ↔ all_ws s.
Proof.
  split.
  - intros Hnil. destruct (trim_split s) as (pre & suf & Hs & Hpre & Hsuf & _).
    rewrite Hnil in Hs. rewrite Hs. by apply all_ws_app.
  - intros H. unfold trim. rewrite trim_start_all_ws by done. done.
Qed.

Lemma trim_idem s : trim (trim s) = trim s.
Proof.
  destruct (trim_split s) as (_ & _ & _ & _ & _ & Hhd & Hlast).
  unfold trim at 1. rewrite trim_start_id by done. by apply trim_end_id.
Qed.

Lemma join_cons sep x l : l ≠ [] → join sep (x :: l) = x ++ sep ++ join sep l.
Proof. by destruct l. Qed.

(** No code unit from [!] to U+009F is white space. *)
Lemma is_ws_visible c : (33 <= c <= 159)%N → is_ws c = false.
Proof.
  intros H. unfold is_ws, ws_code_units. cbn [existsb].
  repeat rewrite (proj2 (N.eqb_neq c _)) by lia.
  destruct (N.leb_spec 8192 c); [lia|]. reflexivity.
Qed.

Lemma is_ws_range c : is_ws c = true → (c <= 32 ∨ 160 <= c)%N.
Proof.
  destruct (decide (c <= 32 ∨ 160 <= c)%N) as [|Hc]; [done|].
  rewrite is_ws_visible; [done|]. unfold is_ws. lia.
Qed.

#[export] Instance all_ws_dec s : Decision (all_ws s).
Proof. unfold all_ws. apply _. Defined.

(** The test [text && text.trim().length > 0] fails exactly on
    white-space-only strings. *)
Lemma truthy_trim_iff t : str_truthy t && str_truthy (trim t) = true ↔ ¬ all_ws t.
Proof.
  rewrite <- trim_nil_iff. destruct t as [|c t]; simpl.
  - split; [done|]. intros H. by destruct H.
  - destruct (trim (c :: t)); simpl; split; done.
Qed.

Lemma str_truthy_trim_iff t : str_truthy (trim t) = true ↔ ¬ all_ws t.
Proof. rewrite <- trim_nil_iff. by destruct (trim t). Qed.

(** A text with no white space at its ends, padded with white space,
    trims to itself. *)
Lemma trim_pad ws1 t ws2 :
  all_ws ws1 → all_ws ws2 → t ≠ [] → starts_non_ws t → ends_non_ws t →
  trim (ws1 ++ t ++ ws2) = t.
Proof.
  intros H1 H2 Hne Hs He. unfold trim. autorewrite with js_rw.
  rewrite trim_start_id by (destruct t; done).
  unfold trim_end. rewrite rev_app_distr, trim_start_app_ws by auto with js.
  rewrite trim_start_id by done. apply rev_involutive.
Qed.

