(* ===== verification/FileParser.v ===== *)
(** * Document text extractor: src/services/fileParser.ts

    [readTextFile], [readPdfFile] and [extractTextFromFile].  The browser
    and pdf.js services they await ([FileReader.readAsText],
    [File.arrayBuffer], [pdfjsLib.getDocument], [pdf.getPage],
    [page.getTextContent]) are the class [Platform]; everything the
    module itself computes (the MIME dispatch, the emptiness checks, the
    page loop and its string building, the error classification in the
    [catch] block) is modelled as written. *)

From Stdlib Require Import NArith String Strings.Byte.
From stdpp Require Import base list options decidable numbers sets.
From S2P Require Import Prelude JsString.

Local Open Scope js_scope.

(** A [File] as the browser hands it to [processFile]. *)
Record File := mkFile { name : jstr; type : jstr; bytes : list byte }.

(** The items of [page.getTextContent()]: a [TextItem] has a [str]
    property, a [TextMarkedContent] has none. *)
Inductive TextItem :=
| TextItemStr (str : jstr)
| TextMarkedContent.

(** ** What the extractor requires of the browser and of pdf.js *)
Class Platform := {
  (** [reader.readAsText(file)]: [Some] text on [load], [None] on [error] *)
  read_as_text : File → option jstr;
  (** [await file.arrayBuffer()] *)
  array_buffer : File → result (list byte);
  pdf_doc : Type;
  pdf_page : Type;
  (** [await pdfjsLib.getDocument(arrayBuffer).promise] *)
  get_document : list byte → result pdf_doc;
  (** [pdf.numPages] *)
  num_pages : pdf_doc → nat;
  (** [await pdf.getPage(i)] *)
  get_page : pdf_doc → nat → result pdf_page;
  (** [await page.getTextContent()] (its [items]) *)
  get_text_content : pdf_page → result (list TextItem)
}.

Definition nl : jstr := [10%N].
Definition space : jstr := [32%N].

(** ** User-facing messages of fileParser.ts *)
Definition msg_txt_empty : jstr :=
  ‹"The TXT file appears to be empty. Please upload a file with content."›.
Definition msg_txt_corrupt : jstr :=
  ‹"Failed to read the TXT file. It might be corrupted."›.
Definition msg_pdf_empty : jstr := ‹"The PDF file appears to be empty."›.
Definition msg_pdf_no_text : jstr :=
  ‹"Could not extract any text from the PDF. It might contain only images or be empty."›.
Definition msg_pdf_corrupt : jstr :=
  ‹"Could not read the PDF file. It might be corrupted or in an unsupported format."›.
Definition msg_unsupported : jstr := ‹"Unsupported file type"›.
(** [error.message.includes(...)] on a thrown value without a [message]
    property throws this [TypeError] from inside the [catch] block. *)
Definition msg_includes_type_error : jstr :=
  ‹"Cannot read properties of undefined (reading 'includes')"›.

Definition mime_text_plain : jstr := ‹"text/plain"›.
Definition mime_pdf : jstr := ‹"application/pdf"›.

(** [item => ('str' in item ? item.str : '')] *)
Definition item_str (it : TextItem) : jstr :=
  match it with TextItemStr s => s | TextMarkedContent => [] end.

(** The text one page appends to [textContent]. *)
Definition page_line (items : list TextItem) : jstr :=
  join space (map item_str items) ++ nl.

(** Every message the module itself throws. *)
Definition extractor_messages : list jstr :=
  [msg_txt_empty; msg_txt_corrupt; msg_pdf_empty; msg_pdf_no_text;
   msg_pdf_corrupt; msg_unsupported; msg_includes_type_error].

Section FileParser.
Context {P : Platform}.

(** [readTextFile]: the [load] handler resolves with the text when it
    is truthy and has a non-empty trim, and rejects otherwise; the
    [error] handler rejects. *)
Definition readTextFile (file : File) : result jstr :=
  match read_as_text file with
  | Some text =>
      if str_truthy text && str_truthy (trim text) then Ok text
      else throw_msg msg_txt_empty
  | None => throw_msg msg_txt_corrupt
  end.

(** The [for (let i = 1; i <= pdf.numPages; i++)] loop, over the page
    numbers still to visit, with [textContent] as accumulator. *)
Fixpoint pages_text (pdf : pdf_doc) (pages : list nat) (textContent : jstr)
    : result jstr :=
  match pages with
  | [] => Ok textContent
  | i :: rest =>
      page ← get_page pdf i;
      text ← get_text_content page;
      pages_text pdf rest (textContent ++ page_line text)
  end.

(** The body of the [try] block of [readPdfFile]. *)
Definition readPdfFile_try (file : File) : result jstr :=
  arrayBuffer ← array_buffer file;
  if decide (length arrayBuffer = 0) then throw_msg msg_pdf_empty else
  pdf ← get_document arrayBuffer;
  textContent ← pages_text pdf (seq 1 (num_pages pdf)) [];
  if str_truthy (trim textContent) then Ok textContent
  else throw_msg msg_pdf_no_text.

(** The [catch] block: re-throw the module's own messages (recognised
    by the words they contain), replace any other error. *)
Definition readPdfFile_catch (error : exn) : result jstr :=
  match error with
  | ErrorObj message =>
      if includes message ‹"empty"› || includes message ‹"extract any text"›
      then Throw error
      else throw_msg msg_pdf_corrupt
  | NonError => throw_msg msg_includes_type_error
  end.

Definition readPdfFile (file : File) : result jstr :=
  try_catch (readPdfFile_try file) readPdfFile_catch.

Definition extractTextFromFile (file : File) : result jstr :=
  if decide (type file = mime_text_plain) then readTextFile file
  else if decide (type file = mime_pdf) then readPdfFile file
  else throw_msg msg_unsupported.
End FileParser.

(** ** Properties of the extractor, for every platform *)

Section FileParserProps.
Context {P : Platform}.

Lemma pages_text_ok pdf pages itemss acc :
  Forall2 (λ i items, ∃ pg, get_page pdf i = Ok pg ∧ get_text_content pg = Ok items)
    pages itemss →
  pages_text pdf pages acc = Ok (acc ++ concat (map page_line itemss)).
Proof.
  intros Hall. revert acc.
  induction Hall as [|i items pages itemss (pg & Hpg & Htc) _ IH]; intros acc; simpl.
  - by rewrite app_nil_r.
  - rewrite Hpg. simpl. rewrite Htc. simpl. rewrite IH. by rewrite app_assoc.
Qed.

Lemma readPdfFile_catch_keeps m :
  includes m ‹"empty"› = true → readPdfFile_catch (ErrorObj m) = Throw (ErrorObj m).
Proof. intros Hm. unfold readPdfFile_catch. by rewrite Hm. Qed.

Lemma extract_pdf f : type f = mime_pdf → extractTextFromFile f = readPdfFile f.
Proof. intros Ht. unfold extractTextFromFile. by rewrite Ht. Qed.

Lemma extract_txt f : type f = mime_text_plain → extractTextFromFile f = readTextFile f.
Proof. intros Ht. unfold extractTextFromFile. by rewrite Ht. Qed.

Lemma str_truthy_untrimmed t : str_truthy (trim t) = true → str_truthy t = true.
Proof. by destruct t. Qed.

(** A plain-text file whose text is not blank is read as it is. *)
Lemma extract_text_plain_Ok f t :
  type f = mime_text_plain → read_as_text f = Some t → str_truthy (trim t) = true →
  extractTextFromFile f = Ok t.
Proof.
  intros Hty Hr Ht. rewrite extract_txt by done. unfold readTextFile. rewrite Hr.
  rewrite (str_truthy_untrimmed t Ht). simpl. rewrite ?Ht. reflexivity.
Qed.

Lemma readPdfFile_catch_throws e t : readPdfFile_catch e ≠ Ok t.
Proof. destruct e as [m|]; simpl; [destruct (_ || _)|]; discriminate. Qed.

Lemma readPdfFile_try_Ok f t : readPdfFile_try f = Ok t → str_truthy t = true.
Proof.
  unfold readPdfFile_try. intros H.
  apply bind_Ok_inv in H as (buf & _ & H). destruct (decide _); [done|].
  apply bind_Ok_inv in H as (pdf & _ & H). apply bind_Ok_inv in H as (tc & _ & H).
  destruct (str_truthy (trim tc)) eqn:E; [|done]. injection H as <-.
  by apply str_truthy_untrimmed.
Qed.

(** C28: Extracted text is never empty: whenever [extractTextFromFile]
    resolves, its text is truthy, since both readers reject text that is
    white space only after [trim]. *)
Lemma extract_Ok_truthy f t : extractTextFromFile f = Ok t → str_truthy t = true.
Proof.
  unfold extractTextFromFile. destruct (decide _).
  - unfold readTextFile. destruct (read_as_text f) as [text|]; [|done].
    destruct (str_truthy text) eqn:E; simpl; [|done].
    repeat case_match; first [by intros [= <-] | by intros [=]].
  - destruct (decide _); [|done]. unfold readPdfFile.
    destruct (readPdfFile_try f) eqn:E; simpl.
    + intros [= <-]. by eapply readPdfFile_try_Ok.
    + intros H. by apply readPdfFile_catch_throws in H.
Qed.

(** C32: A file whose MIME type is neither [text/plain] nor
    [application/pdf] is rejected with "Unsupported file type" and is
    never read. *)
Theorem extract_unsupported f :
  type f ≠ mime_text_plain → type f ≠ mime_pdf →
  extractTextFromFile f = throw_msg msg_unsupported.
Proof.
  intros H1 H2. unfold extractTextFromFile.
  by rewrite (decide_False _ _ H1), (decide_False _ _ H2).
Qed.

(** C3: A plain-text file is returned unchanged when it has a
    non-white-space character, rejected with the empty-file message
    when it is white space only, and rejected with the corrupted-file
    message when the reader fails. *)
Theorem extract_text_plain_spec f :
  type f = mime_text_plain →
  extractTextFromFile f =
    match read_as_text f with
    | Some t => if bool_decide (all_ws t) then throw_msg msg_txt_empty else Ok t
    | None => throw_msg msg_txt_corrupt
    end.
Proof.
  intros Ht. rewrite extract_txt by done. unfold readTextFile.
  destruct (read_as_text f) as [t|]; [|done].
  case_bool_decide as Hws.
  - destruct (str_truthy t && str_truthy (trim t)) eqn:E; [|done].
    by apply truthy_trim_iff in E.
  - by rewrite (proj2 (truthy_trim_iff t) Hws).
Qed.

(** C30: A PDF whose byte buffer has length zero is rejected with the
    empty-file message before pdf.js is asked to parse it. *)
Theorem extract_pdf_zero_length f buf :
  type f = mime_pdf → array_buffer f = Ok buf → length buf = 0 →
  extractTextFromFile f = throw_msg msg_pdf_empty.
Proof.
  intros Ht Hb Hl. rewrite extract_pdf by done.
  unfold readPdfFile, readPdfFile_try. rewrite Hb. simpl.
  rewrite (decide_True _ _ Hl). by apply readPdfFile_catch_keeps.
Qed.

Lemma readPdfFile_after_buffer f buf :
  array_buffer f = Ok buf → length buf ≠ 0 →
  readPdfFile f =
    try_catch (pdf ← get_document buf;
               textContent ← pages_text pdf (seq 1 (num_pages pdf)) [];
               if str_truthy (trim textContent) then Ok textContent
               else throw_msg msg_pdf_no_text) readPdfFile_catch.
Proof.
  intros Hb Hl. unfold readPdfFile, readPdfFile_try.
  rewrite Hb. autorewrite with js_rw. by rewrite (decide_False _ _ Hl).
Qed.

(** C29: When pdf.js parses the document and every page yields its text
    items, the extractor returns the pages' texts in page order, the
    items of a page joined by single spaces and every page followed by
    a newline; a document whose text is white space only is rejected
    with the "could not extract any text" message. *)
Theorem extract_pdf_pages f buf pdf itemss :
  type f = mime_pdf → array_buffer f = Ok buf → length buf ≠ 0 →
  get_document buf = Ok pdf →
  Forall2 (λ i items, ∃ pg, get_page pdf i = Ok pg ∧ get_text_content pg = Ok items)
    (seq 1 (num_pages pdf)) itemss →
  extractTextFromFile f =
    if bool_decide (all_ws (concat (map page_line itemss)))
    then throw_msg msg_pdf_no_text
    else Ok (concat (map page_line itemss)).
Proof.
  intros Ht Hb Hl Hd Hpages.
  rewrite extract_pdf, (readPdfFile_after_buffer _ buf) by done.
  rewrite Hd. autorewrite with js_rw.
  rewrite (pages_text_ok _ _ _ _ Hpages). autorewrite with js_rw. rewrite app_nil_l.
  case_bool_decide as Hws.
  - destruct (str_truthy (trim (concat (map page_line itemss)))) eqn:E.
    + by apply str_truthy_trim_iff in E.
    + unfold throw_msg. autorewrite with js_rw.
      apply readPdfFile_catch_keeps. vm_compute. reflexivity.
  - by rewrite (proj2 (str_truthy_trim_iff _) Hws).
Qed.

(** C31: An error of pdf.js while parsing the document is replaced by the
    generic "could not read" message unless its message contains
    "empty" or "extract any text", in which case the library's own
    message reaches the user unchanged. *)
Theorem extract_pdf_library_error f buf m :
  type f = mime_pdf → array_buffer f = Ok buf → length buf ≠ 0 →
  get_document buf = Throw (ErrorObj m) →
  extractTextFromFile f =
    if includes m ‹"empty"› || includes m ‹"extract any text"›
    then Throw (ErrorObj m) else throw_msg msg_pdf_corrupt.
Proof.
  intros Ht Hb Hl Hd.
  rewrite extract_pdf, (readPdfFile_after_buffer _ buf) by done.
  rewrite Hd. by autorewrite with js_rw.
Qed.

(** C27: The extractor rejects only with [Error] objects (never with a
    non-[Error] thrown value), and every message is one the module
    writes itself or one that contains "empty" or "extract any text". *)
Theorem extract_errors_classified f e :
  extractTextFromFile f = Throw e →
  ∃ m, e = ErrorObj m ∧
       (m ∈ extractor_messages ∨ includes m ‹"empty"› = true ∨
        includes m ‹"extract any text"› = true).
Proof.
  unfold extractTextFromFile, extractor_messages.
  destruct (decide _).
  { unfold readTextFile. destruct (read_as_text f); [case_match|];
      intros [=]; subst; eexists; (split; [done | left; set_solver]). }
  destruct (decide _); [|intros [= <-]; eexists; split; [done | left; set_solver]].
  unfold readPdfFile. destruct (readPdfFile_try f) as [t|ex]; [done|].
  cbn [try_catch]. destruct ex as [m|]; unfold readPdfFile_catch.
  - destruct (includes m ‹"empty"›) eqn:E1, (includes m ‹"extract any text"›) eqn:E2;
      cbn [orb]; intros [= He]; subst; eexists; (split; [reflexivity|]); [tauto..|].
    left; set_solver.
  - intros [= He]; subst. eexists; split; [done | left; set_solver].
Qed.
(** The loop's text is the text it started from, or ends with a newline. *)
Lemma pages_text_nl pdf pages acc t :
  pages_text pdf pages acc = Ok t → t = acc ∨ ∃ t', t = t' ++ nl.
Proof.
  revert acc. induction pages as [|i pages IH]; intros acc; simpl.
  - intros [= <-]. by left.
  - intros H. apply bind_Ok_inv in H as (pg & _ & H). apply bind_Ok_inv in H as (items & _ & H).
    destruct (IH _ H) as [->|Hn]; [right|by right].
    exists (acc ++ join space (map item_str items)). unfold page_line. by rewrite app_assoc.
Qed.

(** C33: Whenever a PDF's text is extracted, it ends with a newline, also
    after the last page: the loop appends one after every page, and a
    text with no page at all is rejected as blank. *)
Theorem extract_pdf_trailing_newline f t :
  type f = mime_pdf → extractTextFromFile f = Ok t → ∃ t', t = t' ++ nl.
Proof.
  intros Hty. rewrite extract_pdf by done. unfold readPdfFile.
  destruct (readPdfFile_try f) as [t0|e] eqn:E; simpl.
  - intros [= <-]. unfold readPdfFile_try in E.
    apply bind_Ok_inv in E as (buf & _ & E). destruct (decide _); [done|].
    apply bind_Ok_inv in E as (pdf & _ & E). apply bind_Ok_inv in E as (tc & Htc & E).
    destruct (str_truthy (trim tc)) eqn:Ht; [|done]. injection E as <-.
    destruct (pages_text_nl _ _ _ _ Htc) as [->|Hn]; [done | exact Hn].
  - intros H. by apply readPdfFile_catch_throws in H.
Qed.
End FileParserProps.

(** ** Concrete runs

    A platform that reads a fixed text, hands out a fixed buffer and
    parses every buffer into a fixed document (pdf.js numbers pages from
    1; an out-of-range page is rejected as pdf.js does). *)
Definition fixture_platform (txt : option jstr) (buf : result (list byte))
    (doc : result (list (list TextItem))) : Platform := {|
  read_as_text _ := txt;
  array_buffer _ := buf;
  pdf_doc := list (list TextItem);
  pdf_page := list TextItem;
  get_document _ := doc;
  num_pages := length;
  get_page d i :=
    match d !! (i - 1) with Some p => Ok p | None => throw_msg ‹"Invalid page request."› end;
  get_text_content p := Ok p |}.

Definition sample_file (ty : jstr) : File := mkFile ‹"cv"› ty [Byte.x25].

Definition sample_pages : list (list TextItem) :=
  [[TextItemStr ‹"Backend"›; TextItemStr ‹"engineer"›];
   [TextMarkedContent; TextItemStr ‹"5 years"›]].

Lemma extract_unsupported_witness :
  extractTextFromFile (P := fixture_platform None (Ok []) (Ok []))
    (sample_file ‹"image/png"›) = throw_msg msg_unsupported.
Proof. apply extract_unsupported; neq_by_compute. Defined.

Lemma extract_text_plain_spec_witness :
  extractTextFromFile (P := fixture_platform (Some ‹" Experienced backend engineer "›) (Ok []) (Ok []))
    (sample_file mime_text_plain) = Ok ‹" Experienced backend engineer "›
  ∧ extractTextFromFile (P := fixture_platform (Some ‹"   "›) (Ok []) (Ok []))
    (sample_file mime_text_plain) = throw_msg msg_txt_empty.
Proof.
  split; (rewrite extract_text_plain_spec; [vm_compute; reflexivity | reflexivity]).
Defined.

Lemma extract_Ok_truthy_witness : str_truthy ‹" Experienced backend engineer "› = true.
Proof.
  apply (extract_Ok_truthy (P := fixture_platform (Some ‹" Experienced backend engineer "›) (Ok []) (Ok []))
           (sample_file mime_text_plain)).
  vm_compute. reflexivity.
Defined.

Lemma extract_pdf_zero_length_witness :
  extractTextFromFile (P := fixture_platform None (Ok []) (Ok sample_pages))
    (sample_file mime_pdf) = throw_msg msg_pdf_empty.
Proof. apply (extract_pdf_zero_length _ []); reflexivity. Defined.

Lemma extract_pdf_pages_witness :
  extractTextFromFile (P := fixture_platform None (Ok [Byte.x25]) (Ok sample_pages))
    (sample_file mime_pdf)
  = Ok (‹"Backend engineer"› ++ nl ++ ‹" 5 years"› ++ nl).
Proof.
  rewrite (extract_pdf_pages (P := fixture_platform None (Ok [Byte.x25]) (Ok sample_pages))
             _ [Byte.x25] sample_pages sample_pages);
    [vm_compute; reflexivity | reflexivity | reflexivity | done | reflexivity |].
  repeat constructor; eexists; split; reflexivity.
Defined.

Lemma extract_pdf_library_error_witness :
  extractTextFromFile
    (P := fixture_platform None (Ok [Byte.x25]) (throw_msg ‹"Invalid PDF structure."›))
    (sample_file mime_pdf) = throw_msg msg_pdf_corrupt
  ∧ extractTextFromFile
    (P := fixture_platform None (Ok [Byte.x25]) (throw_msg ‹"Document stream is empty"›))
    (sample_file mime_pdf) = throw_msg ‹"Document stream is empty"›.
Proof.
  split.
  - rewrite (extract_pdf_library_error _ [Byte.x25] ‹"Invalid PDF structure."›);
      [vm_compute; reflexivity | reflexivity | reflexivity | done | reflexivity].
  - rewrite (extract_pdf_library_error _ [Byte.x25] ‹"Document stream is empty"›);
      [vm_compute; reflexivity | reflexivity | reflexivity | done | reflexivity].
Defined.

Lemma extract_errors_classified_witness :
  ∃ m, ErrorObj msg_pdf_empty = ErrorObj m ∧
       (m ∈ extractor_messages ∨ includes m ‹"empty"› = true ∨
        includes m ‹"extract any text"› = true).
Proof.
  apply (extract_errors_classified (P := fixture_platform None (Ok []) (Ok []))
           (sample_file mime_pdf)).
  vm_compute. reflexivity.
Defined.

Lemma extract_pdf_trailing_newline_witness :
  ∃ t', ‹"Backend engineer"› ++ nl ++ ‹" 5 years"› ++ nl = t' ++ nl.
Proof.
  apply (extract_pdf_trailing_newline (P := fixture_platform None (Ok [Byte.x25]) (Ok sample_pages))
           (sample_file mime_pdf)); vm_compute; reflexivity.
Defined.
