(* ===== verification/Json.v ===== *)
(** * JSON values and [JSON.parse]

    [parseAnalysisResponse] (geminiService.ts) hands the cleaned reply to
    [JSON.parse] and casts the result to [AnalysisResult] without a check,
    so the value the application stores is whatever JSON value the text
    denotes.  This file models those values and the ECMAScript
    [JSON.parse] grammar over UTF-16 code units (white space is only
    TAB, LF, CR and SPACE; strings admit the one-character escapes of the
    quote, the backslash, the slash and b, f, n, r, t, the four-digit
    escapes uXXXX, and no raw control character; a number is an optional
    minus, then 0 or a non-zero digit and more digits, then an optional
    fraction and an optional exponent).

    A number is kept exactly, as a mantissa and a power of ten; the
    rounding of [JSON.parse] to a binary64 double is not modelled (the
    integers 0..100 of the response schema are exact doubles).  Object
    members are kept in text order with duplicates, and a property read
    takes the last one, as the object [JSON.parse] builds does. *)

From Stdlib Require Import NArith ZArith String Lia ZifyN.
From stdpp Require Import base list options decidable numbers sets.
From S2P Require Import Prelude JsString.

Local Open Scope js_scope.

#[warnings="-register-all"]
Inductive json : Type :=
| JNull
| JBool (b : bool)
| JNum (mantissa : Z) (exponent : Z)
| JStr (s : jstr)
| JArr (elems : list json)
| JObj (members : list (jstr * json)).

(** The induction principle for the nested lists of [json]. *)
Section json_ind.
Context (Q : json → Prop)
  (Hnull : Q JNull) (Hbool : ∀ b, Q (JBool b)) (Hnum : ∀ m e, Q (JNum m e))
  (Hstr : ∀ s, Q (JStr s)) (Harr : ∀ l, Forall Q l → Q (JArr l))
  (Hobj : ∀ ms, Forall (λ kv, Q kv.2) ms → Q (JObj ms)).

Fixpoint json_ind' (v : json) : Q v :=
  match v with
  | JNull => Hnull
  | JBool b => Hbool b
  | JNum m e => Hnum m e
  | JStr s => Hstr s
  | JArr l => Harr l ((fix go (l : list json) : Forall Q l :=
      match l with [] => Forall_nil_2 _ | x :: l' => Forall_cons_2 _ _ _ (json_ind' x) (go l') end) l)
  | JObj ms => Hobj ms ((fix go (ms : list (jstr * json)) : Forall (λ kv, Q kv.2) ms :=
      match ms with
      | [] => Forall_nil_2 _
      | kv :: ms' => Forall_cons_2 _ _ _ (json_ind' kv.2) (go ms')
      end) ms)
  end.
End json_ind.

(** ** Lexical helpers *)

(** The code unit of a one-character literal. *)
Definition ch (s : string) : N := match js s with c :: _ => c | [] => 0%N end.

(** JSON white space: TAB, LF, CR, SPACE (not the wider set of [trim]). *)
Definition json_ws (c : N) : bool :=
  (c =? 9)%N || (c =? 10)%N || (c =? 13)%N || (c =? 32)%N.

Fixpoint skip_ws (s : jstr) : jstr :=
  match s with
  | c :: r => if json_ws c then skip_ws r else s
  | [] => []
  end.

Definition is_digit (c : N) : bool := (48 <=? c)%N && (c <=? 57)%N.

Fixpoint span_digits (s : jstr) : jstr * jstr :=
  match s with
  | c :: r => if is_digit c then let '(ds, rest) := span_digits r in (c :: ds, rest) else ([], s)
  | [] => ([], [])
  end.

Definition digit_step (acc : Z) (d : N) : Z := (acc * 10 + Z.of_N (d - 48))%Z.

(** The value of a non-empty run of decimal digits. *)
Definition digits_value (ds : jstr) : Z := fold_left digit_step ds 0%Z.

Definition hex_value (c : N) : option N :=
  if is_digit c then Some (c - 48)%N
  else if (97 <=? c)%N && (c <=? 102)%N then Some (c - 87)%N
  else if (65 <=? c)%N && (c <=? 70)%N then Some (c - 55)%N
  else None.

(** The code unit a one-character escape [\e] denotes. *)
Definition simple_escape (e : N) : option N :=
  if (e =? 34)%N then Some 34%N
  else if (e =? 92)%N then Some 92%N
  else if (e =? ch "/")%N then Some (ch "/")
  else if (e =? ch "b")%N then Some 8%N
  else if (e =? ch "f")%N then Some 12%N
  else if (e =? ch "n")%N then Some 10%N
  else if (e =? ch "r")%N then Some 13%N
  else if (e =? ch "t")%N then Some 9%N
  else None.

(** The characters of a string literal after its opening quote: the
    decoded code units and the input after the closing quote. *)
Fixpoint parse_string_chars (s : jstr) : option (jstr * jstr) :=
  match s with
  | [] => None
  | c :: r =>
      if (c =? 34)%N then Some ([], r)
      else if (c =? 92)%N then
        match r with
        | [] => None
        | e :: r' =>
            match simple_escape e with
            | Some d => '(cs, rest) ← parse_string_chars r'; Some (d :: cs, rest)
            | None =>
                if (e =? ch "u")%N then
                  match r' with
                  | h1 :: h2 :: h3 :: h4 :: r'' =>
                      x1 ← hex_value h1; x2 ← hex_value h2; x3 ← hex_value h3; x4 ← hex_value h4;
                      '(cs, rest) ← parse_string_chars r'';
                      Some ((((x1 * 16 + x2) * 16 + x3) * 16 + x4)%N :: cs, rest)
                  | _ => None
                  end
                else None
            end
        end
      else if (c <? 32)%N then None
      else '(cs, rest) ← parse_string_chars r; Some (c :: cs, rest)
  end.

(** A number token: an optional minus, the integer part, an optional
    fraction, an optional exponent. *)
Definition parse_minus (s : jstr) : bool * jstr :=
  match s with
  | c :: r => if (c =? ch "-")%N then (true, r) else (false, s)
  | [] => (false, s)
  end.

(** [0] alone, or a non-zero digit and the digits after it. *)
Definition parse_int (s : jstr) : option (jstr * jstr) :=
  match s with
  | c :: r =>
      if (c =? ch "0")%N then Some ([c], r)
      else if is_digit c then let '(ds, rest) := span_digits r in Some (c :: ds, rest)
      else None
  | [] => None
  end.

(** A [.] must be followed by at least one digit. *)
Definition parse_frac (s : jstr) : option (jstr * jstr) :=
  match s with
  | c :: r =>
      if (c =? ch ".")%N then
        let '(ds, rest) := span_digits r in
        match ds with [] => None | _ => Some (ds, rest) end
      else Some ([], s)
  | [] => Some ([], s)
  end.

(** [e] or [E], an optional sign, at least one digit. *)
Definition parse_exp (s : jstr) : option (Z * jstr) :=
  match s with
  | c :: r =>
      if (c =? ch "e")%N || (c =? ch "E")%N then
        let '(eneg, r1) :=
          match r with
          | d :: r' => if (d =? ch "-")%N then (true, r')
                       else if (d =? ch "+")%N then (false, r')
                       else (false, r)
          | [] => (false, r)
          end in
        let '(ds, rest) := span_digits r1 in
        match ds with
        | [] => None
        | _ => Some ((if eneg then - digits_value ds else digits_value ds)%Z, rest)
        end
      else Some (0%Z, s)
  | [] => Some (0%Z, s)
  end.

Definition parse_number (s : jstr) : option (json * jstr) :=
  let '(neg, s1) := parse_minus s in
  '(int, s2) ← parse_int s1;
  '(frac, s3) ← parse_frac s2;
  '(ex, s4) ← parse_exp s3;
  let m := digits_value (int ++ frac) in
  Some (JNum (if neg then - m else m)%Z (ex - Z.of_nat (length frac))%Z, s4).

(** ** The recursive-descent parser

    [fuel] bounds the nesting and the number of elements; each call
    consumes at least one code unit, so the length of the text plus one
    is always enough ([JSON_parse] gives that much). *)
Fixpoint parse_value (fuel : nat) (s : jstr) {struct fuel} : option (json * jstr) :=
  match fuel with
  | 0 => None
  | S fuel' =>
      match s with
      | [] => None
      | c :: r =>
          if (c =? ch "{")%N then
            match skip_ws r with
            | d :: r' =>
                if (d =? ch "}")%N then Some (JObj [], r')
                else '(ms, rest) ← parse_members fuel' (d :: r'); Some (JObj ms, rest)
            | [] => None
            end
          else if (c =? ch "[")%N then
            match skip_ws r with
            | d :: r' =>
                if (d =? ch "]")%N then Some (JArr [], r')
                else '(vs, rest) ← parse_elements fuel' (d :: r'); Some (JArr vs, rest)
            | [] => None
            end
          else if (c =? 34)%N then
            '(str, rest) ← parse_string_chars r; Some (JStr str, rest)
          else if (c =? ch "t")%N then
            if is_prefix ‹"rue"› r then Some (JBool true, drop 3 r) else None
          else if (c =? ch "f")%N then
            if is_prefix ‹"alse"› r then Some (JBool false, drop 4 r) else None
          else if (c =? ch "n")%N then
            if is_prefix ‹"ull"› r then Some (JNull, drop 3 r) else None
          else parse_number s
      end
  end
(** The elements of an array, from the first element to the [']']. *)
with parse_elements (fuel : nat) (s : jstr) {struct fuel} : option (list json * jstr) :=
  match fuel with
  | 0 => None
  | S fuel' =>
      '(v, r) ← parse_value fuel' s;
      match skip_ws r with
      | c :: r' =>
          if (c =? ch "]")%N then Some ([v], r')
          else if (c =? ch ",")%N then
            '(vs, rest) ← parse_elements fuel' (skip_ws r'); Some (v :: vs, rest)
          else None
      | [] => None
      end
  end
(** The members of an object, from the first key to the ['}']. *)
with parse_members (fuel : nat) (s : jstr) {struct fuel} : option (list (jstr * json) * jstr) :=
  match fuel with
  | 0 => None
  | S fuel' =>
      match s with
      | c :: r =>
          if (c =? 34)%N then
            '(k, r1) ← parse_string_chars r;
            match skip_ws r1 with
            | d :: r2 =>
                if (d =? ch ":")%N then
                  '(v, r3) ← parse_value fuel' (skip_ws r2);
                  match skip_ws r3 with
                  | e :: r4 =>
                      if (e =? ch "}")%N then Some ([(k, v)], r4)
                      else if (e =? ch ",")%N then
                        '(ms, rest) ← parse_members fuel' (skip_ws r4); Some ((k, v) :: ms, rest)
                      else None
                  | [] => None
                  end
                else None
            | [] => None
            end
          else None
      | [] => None
      end
  end.

(** [JSON.parse(text)]: [None] when it throws a [SyntaxError]. *)
Definition JSON_parse (text : jstr) : option json :=
  match parse_value (S (length text)) (skip_ws text) with
  | Some (v, rest) => match skip_ws rest with [] => Some v | _ => None end
  | None => None
  end.

(** ** The canonical text of a value

    Used to state what [JSON.parse] accepts: it is the text a
    well-behaved service returns for a value (no white space, numbers as
    an integer mantissa with an optional exponent, strings with the
    quote, the backslash and control characters escaped). *)

Definition hex_digit (k : N) : N := if (k <? 10)%N then (48 + k)%N else (87 + k)%N.

Definition escape_char (c : N) : jstr :=
  if (c =? 34)%N then [92; 34]%N
  else if (c =? 92)%N then [92; 92]%N
  else if (c <? 32)%N then [92; ch "u"; 48; 48; hex_digit (c / 16); hex_digit (c mod 16)]%N
  else [c].

Definition quote (s : jstr) : jstr := [34%N] ++ concat (map escape_char s) ++ [34%N].

Fixpoint digits_aux (fuel : nat) (n : N) (acc : jstr) : jstr :=
  match fuel with
  | 0 => acc
  | S f => if (n <? 10)%N then (48 + n)%N :: acc
           else digits_aux f (n / 10)%N ((48 + n mod 10)%N :: acc)
  end.

(** The decimal digits of [n], without leading zeros. *)
Definition n_digits (n : N) : jstr := digits_aux (S (N.to_nat n)) n [].

Definition print_int (z : Z) : jstr :=
  (if (z <? 0)%Z then [ch "-"] else []) ++ n_digits (Z.abs_N z).

Definition print_number (m e : Z) : jstr :=
  print_int m ++ (if (e =? 0)%Z then [] else [ch "e"] ++ print_int e).

Fixpoint print (v : json) : jstr :=
  match v with
  | JNull => ‹"null"›
  | JBool true => ‹"true"›
  | JBool false => ‹"false"›
  | JNum m e => print_number m e
  | JStr s => quote s
  | JArr l => [ch "["] ++ join [ch ","] (map print l) ++ [ch "]"]
  | JObj ms =>
      [ch "{"] ++ join [ch ","] (map (λ kv, quote kv.1 ++ [ch ":"] ++ print kv.2) ms) ++ [ch "}"]
  end.

(** The fuel a value needs: one per value and one per element. *)
Fixpoint size (v : json) : nat :=
  match v with
  | JArr l => S (sum_list_with (λ x, S (size x)) l)
  | JObj ms => S (sum_list_with (λ kv, S (size kv.2)) ms)
  | _ => 1
  end.

(** ** Lemmas: digits and numbers *)

Definition all_digits (ds : jstr) : Prop := Forall (λ c, is_digit c = true) ds.

(** The input after a number token does not continue it. *)
Definition num_delim (rest : jstr) : Prop :=
  match rest with
  | [] => True
  | c :: _ => is_digit c = false ∧ c ≠ ch "." ∧ c ≠ ch "e" ∧ c ≠ ch "E"
  end.

Lemma fold_digit_step_shift ds a :
  fold_left digit_step ds a = (a * 10 ^ Z.of_nat (length ds) + fold_left digit_step ds 0)%Z.
Proof.
  revert a; induction ds as [|d ds IH]; intros a; simpl; [lia|].
  rewrite IH, (IH (digit_step 0 d)). unfold digit_step.
  rewrite Nat2Z.inj_succ, Z.pow_succ_r by lia. ring.
Qed.

Lemma digits_value_snoc ds d :
  digits_value (ds ++ [d]) = (digits_value ds * 10 + Z.of_N (d - 48))%Z.
Proof. unfold digits_value. by rewrite fold_left_app. Qed.

Lemma digits_aux_spec f n acc :
  (N.to_nat n < f)%nat →
  ∃ ds, digits_aux f n acc = ds ++ acc ∧ all_digits ds ∧
        digits_value ds = Z.of_N n ∧ ds ≠ [] ∧ (n ≠ 0%N → head ds ≠ Some 48%N).
Proof.
  revert n acc; induction f as [|f IH]; intros n acc Hf; [lia|]. simpl.
  destruct (N.ltb_spec n 10) as [Hlt|Hge].
  - exists [(48 + n)%N]. repeat split.
    + repeat constructor. unfold is_digit. apply andb_true_iff. split; apply N.leb_le; lia.
    + unfold digits_value. simpl. unfold digit_step. lia.
    + done.
    + intros Hn [= ?]. lia.
  - destruct (IH (n / 10)%N ((48 + n mod 10)%N :: acc)) as (ds & Hds & Hdig & Hval & Hne & Hhd).
    { assert (n / 10 < n)%N by (apply N.div_lt; lia). lia. }
    exists (ds ++ [(48 + n mod 10)%N]). rewrite Hds, <- app_assoc. repeat split.
    + apply Forall_app. split; [done|]. repeat constructor.
      unfold is_digit. apply andb_true_iff.
      assert (n mod 10 < 10)%N by (apply N.mod_lt; lia). split; apply N.leb_le; lia.
    + rewrite digits_value_snoc, Hval.
      assert (n = 10 * (n / 10) + n mod 10)%N by (apply N.div_mod; lia). lia.
    + by destruct ds.
    + intros _. destruct ds as [|c ds]; [done|]. apply Hhd.
      intros Hz. apply N.div_small_iff in Hz; lia.
Qed.

Lemma n_digits_spec n :
  ∃ d ds, n_digits n = d :: ds ∧ all_digits (d :: ds) ∧
          digits_value (d :: ds) = Z.of_N n ∧ (n ≠ 0%N ↔ d ≠ 48%N).
Proof.
  destruct (digits_aux_spec (S (N.to_nat n)) n [] ltac:(lia))
    as ([|d ds] & Hds & Hdig & Hval & Hne & Hhd); [done|].
  exists d, ds. rewrite app_nil_r in Hds. unfold n_digits. repeat split; [done..| |].
  - intros Hn Hd. apply (Hhd Hn). simpl. by rewrite Hd.
  - intros Hd ->. apply Hd. unfold n_digits in Hds. simpl in Hds. by injection Hds.
Qed.

Lemma span_digits_app ds rest :
  all_digits ds → (∀ c r, rest = c :: r → is_digit c = false) →
  span_digits (ds ++ rest) = (ds, rest).
Proof.
  intros Hds Hrest. induction Hds as [|d ds Hd _ IH]; cbn [app span_digits].
  - destruct rest as [|c r]; [done|]. simpl span_digits. by rewrite (Hrest c r eq_refl).
  - by rewrite Hd, IH.
Qed.

(** Evaluate the code units of one-character literals. *)
Ltac ch_compute :=
  repeat match goal with
  | |- context [ch ?s] => let v := eval vm_compute in (ch s) in change (ch s) with v
  | H : context [ch ?s] |- _ => let v := eval vm_compute in (ch s) in change (ch s) with v in H
  end.

Lemma digit_bounds c : is_digit c = true → (48 <= c <= 57)%N.
Proof. unfold is_digit. rewrite andb_true_iff, !N.leb_le. lia. Qed.

Lemma parse_minus_print z t :
  parse_minus (print_int z ++ t) = ((z <? 0)%Z, n_digits (Z.abs_N z) ++ t).
Proof.
  unfold print_int. destruct (Z.ltb_spec z 0); [done|]. simpl.
  destruct (n_digits_spec (Z.abs_N z)) as (d & ds & -> & Hdig & _).
  unfold all_digits in Hdig. apply Forall_cons_iff in Hdig as [Hd _]. apply digit_bounds in Hd.
  simpl. unfold parse_minus. ch_compute. by rewrite (proj2 (N.eqb_neq d 45%N)) by lia.
Qed.

Lemma parse_int_print n t :
  (∀ c r, t = c :: r → is_digit c = false) →
  parse_int (n_digits n ++ t) = Some (n_digits n, t).
Proof.
  intros Ht. destruct (n_digits_spec n) as (d & ds & Hn & Hdig & _ & Hz). rewrite Hn.
  unfold all_digits in Hdig. apply Forall_cons_iff in Hdig as [Hd Hds]. simpl. unfold parse_int. ch_compute.
  destruct (N.eqb_spec d 48) as [->|Hne].
  - assert (n = 0%N) as -> by (destruct (decide (n = 0%N)); [done|]; by apply Hz in n0).
    vm_compute in Hn. injection Hn as <-. done.
  - rewrite Hd, span_digits_app by done. done.
Qed.

Lemma n_digits_value n : digits_value (n_digits n) = Z.of_N n.
Proof. by destruct (n_digits_spec n) as (d & ds & -> & _ & Hv & _). Qed.

Lemma n_digits_not_nil n : n_digits n ≠ [].
Proof. by destruct (n_digits_spec n) as (d & ds & -> & _). Qed.

Lemma n_digits_head n t :
  ∃ d r, n_digits n ++ t = d :: r ∧ is_digit d = true.
Proof.
  destruct (n_digits_spec n) as (d & ds & -> & Hdig & _). exists d, (ds ++ t).
  split; [done|]. unfold all_digits in Hdig. by apply Forall_cons_iff in Hdig as [].
Qed.

Lemma parse_exp_print e rest :
  num_delim rest →
  parse_exp ((if (e =? 0)%Z then [] else [ch "e"] ++ print_int e) ++ rest) = Some (e, rest).
Proof.
  intros Hrest. destruct (Z.eqb_spec e 0) as [->|Hne].
  - destruct rest as [|c r]; [done|]. destruct Hrest as (_ & _ & He & HE).
    simpl. unfold parse_exp. by rewrite (proj2 (N.eqb_neq _ _) He), (proj2 (N.eqb_neq _ _) HE).
  - cbn [app]. unfold parse_exp. ch_compute. cbn [N.eqb Pos.eqb orb].
    assert (Hspan : span_digits (n_digits (Z.abs_N e) ++ rest) = (n_digits (Z.abs_N e), rest)).
    { apply span_digits_app; [by destruct (n_digits_spec (Z.abs_N e)) as (? & ? & -> & ? & _)|].
      intros c r ->. apply Hrest. }
    unfold print_int. destruct (Z.ltb_spec e 0).
    + cbn [app]. ch_compute. cbn [N.eqb Pos.eqb]. rewrite Hspan.
      destruct (n_digits (Z.abs_N e)) eqn:E; [by apply n_digits_not_nil in E|].
      rewrite <- E, n_digits_value, N2Z.inj_abs_N. do 2 f_equal. lia.
    + cbn [app]. destruct (n_digits_head (Z.abs_N e) rest) as (d & r & Hdr & Hd).
      apply digit_bounds in Hd. rewrite Hdr.
      rewrite (proj2 (N.eqb_neq d 45%N)), (proj2 (N.eqb_neq d 43%N)) by lia.
      rewrite <- Hdr, Hspan.
      destruct (n_digits (Z.abs_N e)) eqn:E; [by apply n_digits_not_nil in E|].
      rewrite <- E, n_digits_value, N2Z.inj_abs_N. do 2 f_equal. lia.
Qed.

Lemma parse_number_print m e rest :
  num_delim rest → parse_number (print_number m e ++ rest) = Some (JNum m e, rest).
Proof.
  intros Hrest. unfold parse_number, print_number. rewrite <- app_assoc, parse_minus_print.
  set (X := (if (e =? 0)%Z then [] else [ch "e"] ++ print_int e) ++ rest).
  assert (HX : ∀ c r, X = c :: r → is_digit c = false ∧ c ≠ ch ".").
  { unfold X. destruct (Z.eqb e 0); cbn [app].
    - destruct rest as [|c0 r0]; [done|]. intros c r [= <- <-]. by destruct Hrest as (? & ? & _).
    - intros c r [= <- _]. vm_compute. split; [done | discriminate]. }
  rewrite parse_int_print by (intros c r H; apply (HX c r H)).
  assert (parse_frac X = Some ([], X)) as Hfrac.
  { destruct X as [|c r] eqn:EX; [done|]. destruct (HX c r eq_refl) as [_ Hdot].
    unfold parse_frac. by rewrite (proj2 (N.eqb_neq _ _) Hdot). }
  simpl. rewrite Hfrac. simpl. unfold X. rewrite parse_exp_print by done. simpl.
  rewrite app_nil_r, n_digits_value, N2Z.inj_abs_N, Z.sub_0_r.
  do 3 f_equal. destruct (Z.ltb_spec m 0); lia.
Qed.

(** ** Lemmas: strings *)

Lemma hex_value_digit k : (k < 16)%N → hex_value (hex_digit k) = Some k.
Proof.
  intros Hk. unfold hex_value, hex_digit, is_digit.
  destruct (N.ltb_spec k 10);
    repeat match goal with |- context [(?a <=? ?b)%N] => destruct (N.leb_spec a b) end;
    simpl; try lia; f_equal; lia.
Qed.

Lemma parse_string_print s rest :
  parse_string_chars (concat (map escape_char s) ++ 34%N :: rest) = Some (s, rest).
Proof.
  induction s as [|c s IH]; [done|]. cbn [map concat]. rewrite <- app_assoc.
  unfold escape_char at 1.
  destruct (N.eqb_spec c 34) as [->|H34]; [simpl; by rewrite IH|].
  destruct (N.eqb_spec c 92) as [->|H92]; [simpl; by rewrite IH|].
  destruct (N.ltb_spec c 32) as [Hlt|Hge].
  - cbn [app parse_string_chars N.eqb Pos.eqb]. ch_compute. cbn [simple_escape N.eqb Pos.eqb].
    rewrite !hex_value_digit by lia.
    simpl. rewrite IH. simpl. do 3 f_equal.
    assert (c = 16 * (c / 16) + c mod 16)%N by (apply N.div_mod; lia). lia.
  - cbn [app parse_string_chars].
    rewrite (proj2 (N.eqb_neq _ _) H34), (proj2 (N.eqb_neq _ _) H92).
    destruct (N.ltb_spec c 32); [lia|]. by rewrite IH.
Qed.

(** ** Lemmas: values *)

Lemma skip_ws_non_ws c r : json_ws c = false → skip_ws (c :: r) = c :: r.
Proof. intros Hc. simpl. by rewrite Hc. Qed.

(** The first code unit of a printed value. *)
Definition value_head (c : N) : Prop :=
  c = 45%N ∨ (48 <= c <= 57)%N ∨ c ∈ [34; 91; 102; 110; 116; 123]%N.

Lemma value_head_facts c :
  value_head c → json_ws c = false ∧ c ≠ ch "]" ∧ c ≠ ch "}" ∧ c ≠ ch ",".
Proof.
  intros Hc. ch_compute. unfold json_ws.
  destruct Hc as [->|[Hd|Hin]]; [done| |].
  - repeat split; try lia. repeat rewrite (proj2 (N.eqb_neq _ _)) by lia. done.
  - repeat (apply elem_of_cons in Hin as [->|Hin]; [done|]). by apply elem_of_nil in Hin.
Qed.

Lemma print_number_head m e t :
  ∃ c r, print_number m e ++ t = c :: r ∧ (c = 45%N ∨ (48 <= c <= 57)%N).
Proof.
  unfold print_number, print_int. rewrite <- !app_assoc.
  destruct (Z.ltb m 0); [eexists _, _; split; [reflexivity | by left]|].
  destruct (n_digits_head (Z.abs_N m) ((if (e =? 0)%Z then [] else [ch "e"] ++ print_int e) ++ t))
    as (d & r & Hdr & Hd%digit_bounds).
  exists d, r. split; [exact Hdr | by right].
Qed.

Lemma print_head v t : ∃ c r, print v ++ t = c :: r ∧ value_head c.
Proof.
  destruct v as [|[]|m e|s|l|ms];
    try (eexists _, _; split; [reflexivity | right; right; vm_compute; set_solver]).
  destruct (print_number_head m e t) as (c & r & Hcr & Hc).
  exists c, r. split; [exact Hcr | unfold value_head; tauto].
Qed.

Lemma value_head_print v t :
  ∃ c r, print v ++ t = c :: r ∧ json_ws c = false ∧ c ≠ ch "]" ∧ c ≠ ch "}" ∧ c ≠ ch ",".
Proof.
  destruct (print_head v t) as (c & r & Hcr & Hc). exists c, r.
  split; [done|]. by apply value_head_facts.
Qed.

Lemma skip_ws_print v t : skip_ws (print v ++ t) = print v ++ t.
Proof.
  destruct (value_head_print v t) as (c & r & -> & Hws & _). by apply skip_ws_non_ws.
Qed.

Lemma join_cons_app sep x l t : ∃ w, join sep (x :: l) ++ t = x ++ w.
Proof. destruct l; simpl; [by exists t | eexists; by rewrite <- !app_assoc]. Qed.

Lemma num_delim_punct c r : c ∈ [ch ","; ch "]"; ch "}"] → num_delim (c :: r).
Proof.
  ch_compute. intros Hc.
  repeat (apply elem_of_cons in Hc as [->|Hc]; [repeat split; try reflexivity; discriminate|]).
  by apply elem_of_nil in Hc.
Qed.

Lemma quote_app k t : quote k ++ t = 34%N :: concat (map escape_char k) ++ 34%N :: t.
Proof. unfold quote. simpl. by rewrite <- app_assoc. Qed.

(** A printed value parses back to itself, whatever follows it that does
    not continue a number. *)
Definition parses_back (v : json) : Prop :=
  ∀ f rest, size v ≤ f → num_delim rest → parse_value f (print v ++ rest) = Some (v, rest).

Lemma parse_elements_step f s :
  parse_elements (S f) s =
    '(v, r) ← parse_value f s;
    match skip_ws r with
    | c :: r' =>
        if (c =? ch "]")%N then Some ([v], r')
        else if (c =? ch ",")%N then
          '(vs, rest) ← parse_elements f (skip_ws r'); Some (v :: vs, rest)
        else None
    | [] => None
    end.
Proof. reflexivity. Qed.

Lemma bind_pair_Some {A B C} (a : A) (b : B) (k : A → B → option C) :
  (Some (a, b) ≫= (λ p, let '(x, y) := p in k x y)) = k a b.
Proof. done. Qed.

Lemma parse_elements_print l f rest :
  Forall parses_back l → l ≠ [] → sum_list_with (λ x, S (size x)) l ≤ f →
  parse_elements f (join [ch ","] (map print l) ++ [ch "]"] ++ rest) = Some (l, rest).
Proof.
  intros Hall. revert f. induction Hall as [|v l Hv Hl IH]; intros f Hne Hf; [done|].
  destruct f as [|f]; [simpl in Hf; lia|]. simpl in Hf.
  rewrite parse_elements_step.
  destruct l as [|v' l'].
  - cbn [map join]. rewrite Hv by (try lia; apply num_delim_punct; set_solver).
    rewrite bind_pair_Some. cbn [app]. rewrite skip_ws_non_ws by (vm_compute; reflexivity).
    ch_compute. cbn [N.eqb Pos.eqb]. done.
  - rewrite map_cons, join_cons by done. rewrite <- !app_assoc.
    rewrite Hv by (try lia; apply num_delim_punct; set_solver).
    rewrite bind_pair_Some. cbn [app]. rewrite skip_ws_non_ws by (vm_compute; reflexivity).
    ch_compute. cbn [N.eqb Pos.eqb].
    destruct (join_cons_app [44%N] (print v') (map print l') (93%N :: rest)) as (w & Hw).
    rewrite map_cons, Hw, skip_ws_print, <- Hw, <- map_cons.
    change [44%N] with [ch ","]. change (93%N :: rest) with ([ch "]"] ++ rest).
    rewrite IH by (done || (simpl in Hf |- *; lia)). done.
Qed.

Lemma parse_members_quote f k t :
  parse_members (S f) (quote k ++ [ch ":"] ++ t) =
    '(v, r3) ← parse_value f (skip_ws t);
    match skip_ws r3 with
    | e :: r4 =>
        if (e =? ch "}")%N then Some ([(k, v)], r4)
        else if (e =? ch ",")%N then
          '(ms, rest) ← parse_members f (skip_ws r4); Some ((k, v) :: ms, rest)
        else None
    | [] => None
    end.
Proof.
  rewrite quote_app. cbn [parse_members N.eqb Pos.eqb].
  rewrite parse_string_print, bind_pair_Some. cbn [app].
  rewrite skip_ws_non_ws by (vm_compute; reflexivity).
  ch_compute. cbn [N.eqb Pos.eqb]. reflexivity.
Qed.

Lemma skip_ws_quote k t : skip_ws (quote k ++ t) = quote k ++ t.
Proof. rewrite quote_app. by apply skip_ws_non_ws. Qed.

Lemma parse_members_print ms f rest :
  Forall (λ kv, parses_back kv.2) ms → ms ≠ [] →
  sum_list_with (λ kv, S (size kv.2)) ms ≤ f →
  parse_members f
    (join [ch ","] (map (λ kv, quote kv.1 ++ [ch ":"] ++ print kv.2) ms) ++ [ch "}"] ++ rest)
  = Some (ms, rest).
Proof.
  intros Hall. revert f. induction Hall as [|[k v] ms Hv Hms IH]; intros f Hne Hf; [done|].
  destruct f as [|f]; [simpl in Hf; lia|]. simpl in Hf, Hv.
  destruct ms as [|[k' v'] ms'].
  - cbn [map join fst snd]. rewrite <- !app_assoc, parse_members_quote, skip_ws_print.
    rewrite Hv by (try lia; apply num_delim_punct; set_solver).
    rewrite bind_pair_Some. cbn [app]. rewrite skip_ws_non_ws by (vm_compute; reflexivity).
    ch_compute. cbn [N.eqb Pos.eqb]. done.
  - rewrite map_cons, join_cons by done. cbn [fst snd].
    set (T := join [ch ","] (map (λ kv, quote kv.1 ++ [ch ":"] ++ print kv.2) ((k', v') :: ms'))).
    rewrite <- !app_assoc, parse_members_quote, skip_ws_print.
    rewrite Hv by (try lia; apply num_delim_punct; set_solver).
    rewrite bind_pair_Some. cbn [app]. rewrite skip_ws_non_ws by (vm_compute; reflexivity).
    ch_compute. cbn [N.eqb Pos.eqb]. subst T.
    destruct (join_cons_app [ch ","] (quote k' ++ [ch ":"] ++ print v')
                (map (λ kv, quote kv.1 ++ [ch ":"] ++ print kv.2) ms') (125%N :: rest)) as (w & Hw).
    rewrite map_cons. cbn [fst snd]. rewrite Hw, <- app_assoc, skip_ws_quote, app_assoc, <- Hw.
    rewrite <- (map_cons (λ kv, quote kv.1 ++ [ch ":"] ++ print kv.2) (k', v')).
    change (125%N :: rest) with ([ch "}"] ++ rest).
    rewrite IH by (done || (simpl in Hf |- *; lia)). done.
Qed.

Lemma parse_value_bracket f t :
  parse_value (S f) (ch "[" :: t) =
    match skip_ws t with
    | d :: r' =>
        if (d =? ch "]")%N then Some (JArr [], r')
        else '(vs, rest) ← parse_elements f (d :: r'); Some (JArr vs, rest)
    | [] => None
    end.
Proof. reflexivity. Qed.

Lemma parse_value_brace f t :
  parse_value (S f) (ch "{" :: t) =
    match skip_ws t with
    | d :: r' =>
        if (d =? ch "}")%N then Some (JObj [], r')
        else '(ms, rest) ← parse_members f (d :: r'); Some (JObj ms, rest)
    | [] => None
    end.
Proof. reflexivity. Qed.

Lemma parse_value_print v : parses_back v.
Proof.
  induction v as [|b|m e|s|l IH|ms IH] using json_ind'; intros f rest Hf Hrest;
    (destruct f as [|f]; [simpl in Hf; lia|]).
  - reflexivity.
  - by destruct b.
  - destruct (print_number_head m e rest) as (c & r & Hcr & Hc).
    cbn [print]. rewrite Hcr. cbn [parse_value]. ch_compute.
    repeat rewrite (proj2 (N.eqb_neq c _)) by lia.
    rewrite <- Hcr. by apply parse_number_print.
  - cbn [print]. rewrite quote_app. cbn [parse_value]. ch_compute. cbn [N.eqb Pos.eqb].
    by rewrite parse_string_print.
  - cbn [print]. destruct l as [|v0 l0]; [reflexivity|].
    rewrite <- !app_assoc. cbn [app]. rewrite parse_value_bracket.
    destruct (join_cons_app [ch ","] (print v0) (map print l0) (ch "]" :: rest)) as (w & Hw).
    rewrite map_cons, Hw, skip_ws_print.
    destruct (value_head_print v0 w) as (d & r & Hdr & _ & Hd & _).
    rewrite Hdr, (proj2 (N.eqb_neq _ _) Hd), <- Hdr, <- Hw, <- map_cons.
    change (ch "]" :: rest) with ([ch "]"] ++ rest).
    rewrite parse_elements_print by (done || (simpl in Hf |- *; lia)). done.
  - cbn [print]. destruct ms as [|[k v] ms0]; [reflexivity|].
    rewrite <- !app_assoc, !app_singleton_l, parse_value_brace.
    destruct (join_cons_app [ch ","] (quote k ++ [ch ":"] ++ print v)
                (map (λ kv, quote kv.1 ++ [ch ":"] ++ print kv.2) ms0) (ch "}" :: rest)) as (w & Hw).
    rewrite map_cons. cbn [fst snd]. rewrite Hw, <- app_assoc, skip_ws_quote, quote_app.
    ch_compute. cbn [N.eqb Pos.eqb]. rewrite <- quote_app, app_assoc, <- Hw.
    rewrite <- (map_cons (λ kv, quote kv.1 ++ [ch ":"] ++ print kv.2) (k, v)).
    change (125%N :: rest) with ([ch "}"] ++ rest). change [44%N] with [ch ","].
    rewrite parse_members_print by (done || (simpl in Hf |- *; lia)). done.
Qed.

Lemma sum_join_bound {A} (fs : A → nat) (g : A → jstr) c l :
  Forall (λ x, fs x ≤ length (g x)) l → l ≠ [] →
  sum_list_with (λ x, S (fs x)) l ≤ S (length (join [c] (map g l))).
Proof.
  induction 1 as [|x l Hx Hl IH]; [done|]. intros _.
  destruct l as [|y l]; [simpl; lia|].
  rewrite map_cons, join_cons by done. rewrite !length_app. simpl in *.
  specialize (IH ltac:(done)). lia.
Qed.

Lemma size_le_length v : size v ≤ length (print v).
Proof.
  induction v as [|[]|m e|s|l IH|ms IH] using json_ind'; cbn [size print]; try (simpl; lia).
  - destruct (print_number_head m e []) as (c & r & Hcr & _).
    rewrite app_nil_r in Hcr. rewrite Hcr. simpl. lia.
  - destruct l as [|v l]; [simpl; lia|].
    rewrite !length_app. pose proof (sum_join_bound size print (ch ",") (v :: l) IH ltac:(done)).
    simpl in *. lia.
  - destruct ms as [|kv ms]; [simpl; lia|].
    rewrite !length_app.
    assert (Forall (λ kv, size kv.2 ≤ length (quote kv.1 ++ [ch ":"] ++ print kv.2)) (kv :: ms)).
    { eapply Forall_impl; [exact IH|]. intros [k w] Hk. rewrite !length_app. simpl in *. lia. }
    pose proof (sum_join_bound (λ kv, size kv.2) _ (ch ",") (kv :: ms) H ltac:(done)).
    simpl in *. lia.
Qed.

Definition all_json_ws (s : jstr) : Prop := Forall (λ c, json_ws c = true) s.

Lemma skip_ws_app_ws ws t : all_json_ws ws → skip_ws (ws ++ t) = skip_ws t.
Proof. induction 1 as [|c ws Hc _ IH]; [done|]. simpl. by rewrite Hc. Qed.

Lemma skip_ws_all ws : all_json_ws ws → skip_ws ws = [].
Proof. intros H. rewrite <- (app_nil_r ws), skip_ws_app_ws by done. done. Qed.

Lemma num_delim_ws ws : all_json_ws ws → num_delim ws.
Proof.
  intros [|c ws' Hc _]; [done|]. simpl. unfold json_ws in Hc. ch_compute.
  repeat (apply orb_true_iff in Hc as [Hc|Hc]); apply N.eqb_eq in Hc as ->;
    repeat split; try reflexivity; discriminate.
Qed.

Lemma JSON_parse_print_ws v ws1 ws2 :
  all_json_ws ws1 → all_json_ws ws2 → JSON_parse (ws1 ++ print v ++ ws2) = Some v.
Proof.
  intros H1 H2. unfold JSON_parse. rewrite skip_ws_app_ws, skip_ws_print by done.
  rewrite parse_value_print; [by rewrite skip_ws_all| |by apply num_delim_ws].
  rewrite !length_app. pose proof (size_le_length v). lia.
Qed.

Lemma skip_ws_nil_iff t : skip_ws t = [] ↔ all_json_ws t.
Proof.
  split; [|apply skip_ws_all].
  induction t as [|c t IH]; simpl; [constructor|].
  destruct (json_ws c) eqn:Hc; [intros H; constructor; [exact Hc | by apply IH] | done].
Qed.

(** C26: Text after the value that is not JSON white space (and does not
    continue a number) makes [JSON.parse] throw, whatever the value. *)
Theorem JSON_parse_trailing v t :
  num_delim t → ¬ all_json_ws t → JSON_parse (print v ++ t) = None.
Proof.
  intros Hd Hws. unfold JSON_parse. rewrite skip_ws_print.
  rewrite parse_value_print; [|rewrite length_app; pose proof (size_le_length v); lia|done].
  destruct (skip_ws t) eqn:E; [by apply skip_ws_nil_iff in E|done].
Qed.

(** C4: [JSON.parse] accepts the canonical text of every JSON value,
    surrounded by any JSON white space, and returns that value: numbers,
    escaped strings, nested arrays and objects (with duplicate keys kept)
    all come back unchanged, and the fuel the parser is given is enough. *)
Theorem JSON_parse_print v ws1 ws2 :
  all_json_ws ws1 → all_json_ws ws2 → JSON_parse (ws1 ++ print v ++ ws2) = Some v.
Proof. apply JSON_parse_print_ws. Qed.

Lemma json_ws_is_ws c : json_ws c = true → is_ws c = true.
Proof.
  unfold json_ws. intros Hc.
  repeat (apply orb_true_iff in Hc as [Hc|Hc]); by apply N.eqb_eq in Hc as ->.
Qed.

Lemma all_json_ws_all_ws s : all_json_ws s → all_ws s.
Proof. intros H. eapply Forall_impl; [exact H|]. apply json_ws_is_ws. Qed.

Lemma print_starts_non_ws v : starts_non_ws (print v).
Proof.
  destruct (print_head v []) as (c & r & Hcr & Hc). rewrite app_nil_r in Hcr. rewrite Hcr.
  simpl. apply is_ws_visible.
  destruct Hc as [->|[Hd|Hin]]; [lia|lia|].
  repeat (apply elem_of_cons in Hin as [->|Hin]; [lia|]). by apply elem_of_nil in Hin.
Qed.

Lemma last_n_digits n : ∃ d, last (n_digits n) = Some d ∧ (48 <= d <= 57)%N.
Proof.
  destruct (n_digits_spec n) as (d0 & ds & Hn & Hdig & _).
  destruct (exists_last (n_digits_not_nil n)) as (l & d & E). exists d.
  rewrite E, last_snoc. split; [done|]. apply digit_bounds.
  rewrite <- Hn, E in Hdig. unfold all_digits in Hdig. rewrite Forall_app in Hdig.
  destruct Hdig as [_ Hd]. by apply Forall_cons_iff in Hd as [].
Qed.

Lemma last_app_ne {A} (l1 l2 : list A) : l2 ≠ [] → last (l1 ++ l2) = last l2.
Proof.
  intros Hne. destruct (exists_last Hne) as (l & x & ->).
  by rewrite app_assoc, !last_snoc.
Qed.

(** The last code unit of a printed value is neither white space nor a
    backtick. *)
Lemma print_last v : ∃ b, last (print v) = Some b ∧ is_ws b = false ∧ b ≠ 96%N.
Proof.
  destruct v as [|[]|m e|s|l|ms];
    try (eexists; split; [reflexivity | split; [reflexivity | discriminate]]).
  - cbn [print]. unfold print_number, print_int.
    assert (∃ d, last (print_int m ++ (if (e =? 0)%Z then [] else [ch "e"] ++ print_int e)) = Some d
                 ∧ (48 <= d <= 57)%N) as (d & Hd & Hr).
    { unfold print_int. destruct (Z.eqb e 0).
      - rewrite app_nil_r, last_app_ne by apply n_digits_not_nil. apply last_n_digits.
      - rewrite !app_assoc, last_app_ne by apply n_digits_not_nil. apply last_n_digits. }
    exists d. split; [exact Hd|]. split; [apply is_ws_visible; lia | lia].
  - cbn [print]. unfold quote. rewrite app_assoc, last_snoc.
    eexists; split; [reflexivity | split; [reflexivity | discriminate]].
  - cbn [print]. rewrite app_assoc, last_snoc.
    eexists; split; [reflexivity | split; [reflexivity | discriminate]].
  - cbn [print]. rewrite app_assoc, last_snoc.
    eexists; split; [reflexivity | split; [reflexivity | discriminate]].
Qed.

(** ** Concrete runs *)

Definition sample_json : json :=
  JObj [(‹"overallScore"›, JNum 85 0); (‹"trends"›, JArr [JStr ‹"AI ~tools~"›; JNull]);
        (‹"ratio"›, JNum (-125) (-2))].

Lemma JSON_parse_print_witness :
  JSON_parse ([10%N] ++ print sample_json ++ [32%N; 10%N]) = Some sample_json.
Proof. apply JSON_parse_print; repeat constructor. Defined.

Lemma JSON_parse_trailing_witness :
  JSON_parse (print sample_json ++ ‹" Hope this helps!"›) = None.
Proof.
  apply JSON_parse_trailing.
  - vm_compute. repeat split; try reflexivity; discriminate.
  - intros H. apply Forall_cons_iff in H as [_ H]. apply Forall_cons_iff in H as [H _].
    discriminate H.
Defined.
