(* ===== verification/JsonFuel.v ===== *)
(** * Fuel adequacy of the [JSON.parse] model

    [parse_value], [parse_elements] and [parse_members] of [Json] recurse
    on a fuel argument, and [JSON_parse] gives them the length of the text
    plus one.  This file shows that this fuel never decides the outcome:
    every call returns a strictly shorter rest, and a parse that succeeds
    with some fuel succeeds with the same result with any fuel larger
    than the number of code units it consumed.  So [JSON_parse] throws
    only on text that no amount of fuel would parse. *)

From Stdlib Require Import NArith ZArith String Lia Wf_nat.
From stdpp Require Import base list options decidable numbers.
From S2P Require Import Prelude JsString Json.

Local Open Scope js_scope.

(** ** The rest is a suffix *)

Lemma skip_ws_length s : length (skip_ws s) ≤ length s.
Proof. induction s as [|c s IH]; simpl; [lia|]. destruct (json_ws c); simpl; lia. Qed.

Lemma span_digits_length s : length (span_digits s).2 ≤ length s.
Proof.
  induction s as [|c s IH]; simpl; [lia|].
  destruct (is_digit c); [destruct (span_digits s) eqn:E; simpl in *; lia | simpl; lia].
Qed.

Lemma parse_string_chars_length s : ∀ cs r, parse_string_chars s = Some (cs, r) → length r < length s.
Proof.
  induction s as [s IH] using (induction_ltof1 _ length). unfold ltof in IH.
  intros cs r H. destruct s as [|c t]; [done|]. cbn [parse_string_chars] in H.
  destruct (c =? 34)%N; [injection H as _ <-; simpl; lia|].
  destruct (c =? 92)%N.
  - destruct t as [|e t']; [done|]. destruct (simple_escape e).
    + destruct (parse_string_chars t') as [[cs' rest]|] eqn:E; simpl in H; [|done].
      injection H as _ <-. pose proof (IH t' ltac:(simpl; lia) _ _ E). simpl; lia.
    + destruct (e =? ch "u")%N; [|done].
      destruct t' as [|h1 [|h2 [|h3 [|h4 t'']]]]; try done.
      destruct (hex_value h1), (hex_value h2), (hex_value h3), (hex_value h4); simpl in H; try done.
      destruct (parse_string_chars t'') as [[cs' rest]|] eqn:E; simpl in H; [|done].
      injection H as _ <-. pose proof (IH t'' ltac:(simpl; lia) _ _ E). simpl; lia.
  - destruct (c <? 32)%N; [done|].
    destruct (parse_string_chars t) as [[cs' rest]|] eqn:E; simpl in H; [|done].
    injection H as _ <-. pose proof (IH t ltac:(simpl; lia) _ _ E). simpl; lia.
Qed.

Lemma parse_number_length s v r : parse_number s = Some (v, r) → length r < length s.
Proof.
  unfold parse_number. intros H.
  assert (H1 : length (parse_minus s).2 ≤ length s)
    by (destruct s as [|c s]; simpl; [lia|]; destruct (c =? ch "-")%N; simpl; lia).
  destruct (parse_minus s) as [neg s1]. simpl in H1.
  destruct (parse_int s1) as [[int s2]|] eqn:Ei; simpl in H; [|done].
  assert (H2 : length s2 < length s1).
  { destruct s1 as [|c t]; [done|]. cbn [parse_int] in Ei.
    destruct (c =? ch "0")%N; [injection Ei as _ <-; simpl; lia|].
    destruct (is_digit c); [|done]. pose proof (span_digits_length t).
    destruct (span_digits t); injection Ei as _ <-; simpl in *; lia. }
  destruct (parse_frac s2) as [[frac s3]|] eqn:Ef; simpl in H; [|done].
  assert (H3 : length s3 ≤ length s2).
  { destruct s2 as [|c t]; [by injection Ef as _ <-|]. cbn [parse_frac] in Ef.
    destruct (c =? ch ".")%N; [|by injection Ef as _ <-]. pose proof (span_digits_length t).
    destruct (span_digits t) as [[|d ds] rest]; [done|]. injection Ef as _ <-. simpl in *; lia. }
  destruct (parse_exp s3) as [[ex s4]|] eqn:Ee; simpl in H; [|done].
  assert (H4 : length s4 ≤ length s3).
  { destruct s3 as [|c t]; [by injection Ee as _ <-|]. cbn [parse_exp] in Ee.
    destruct (_ || _); [|by injection Ee as _ <-].
    destruct t as [|d r']; [|destruct (d =? ch "-")%N; [|destruct (d =? ch "+")%N]];
      match type of Ee with context [span_digits ?r1] =>
        pose proof (span_digits_length r1); destruct (span_digits r1) as [[|d0 ds] rest]
      end; try done; injection Ee as _ <-; simpl in *; lia. }
  injection H as _ <-. lia.
Qed.

(** The value parsers on a character that opens no array or object do
    not use their fuel. *)
Lemma parse_value_other f1 f2 c t :
  c ≠ ch "{" → c ≠ ch "[" → parse_value (S f1) (c :: t) = parse_value (S f2) (c :: t).
Proof.
  intros H1 H2. cbn [parse_value].
  by rewrite (proj2 (N.eqb_neq _ _) H1), (proj2 (N.eqb_neq _ _) H2).
Qed.

Lemma parse_value_other_length f c t v r :
  c ≠ ch "{" → c ≠ ch "[" → parse_value (S f) (c :: t) = Some (v, r) → length r < length (c :: t).
Proof.
  intros H1 H2 H. cbn [parse_value] in H.
  rewrite (proj2 (N.eqb_neq _ _) H1), (proj2 (N.eqb_neq _ _) H2) in H.
  destruct (c =? 34)%N.
  { destruct (parse_string_chars t) as [[str rest]|] eqn:E; simpl in H; [|done].
    injection H as _ <-. apply parse_string_chars_length in E. simpl; lia. }
  pose proof (length_drop t 3). pose proof (length_drop t 4).
  destruct (c =? ch "t")%N; [destruct (is_prefix _ _); [injection H as _ <-; simpl; lia|done]|].
  destruct (c =? ch "f")%N; [destruct (is_prefix _ _); [injection H as _ <-; simpl; lia|done]|].
  destruct (c =? ch "n")%N; [destruct (is_prefix _ _); [injection H as _ <-; simpl; lia|done]|].
  by apply parse_number_length in H.
Qed.

Definition value_shrinks f : Prop :=
  ∀ s v r, parse_value f s = Some (v, r) → length r < length s.
Definition elements_shrink f : Prop :=
  ∀ s vs r, parse_elements f s = Some (vs, r) → length r < length s.
Definition members_shrink f : Prop :=
  ∀ s ms r, parse_members f s = Some (ms, r) → length r < length s.

Lemma value_shrinks_S f : elements_shrink f → members_shrink f → value_shrinks (S f).
Proof.
  intros He Hm [|c t] v r H; [done|].
  destruct (decide (c = ch "{")) as [->|H1]; [|destruct (decide (c = ch "[")) as [->|H2]].
  - rewrite parse_value_brace in H. pose proof (skip_ws_length t).
    destruct (skip_ws t) as [|d r'] eqn:Hs; [done|]. destruct (d =? ch "}")%N.
    + injection H as _ <-. simpl in *; lia.
    + destruct (parse_members f (d :: r')) as [[ms rest]|] eqn:E; simpl in H; [|done].
      injection H as _ <-. apply Hm in E. simpl in *; lia.
  - rewrite parse_value_bracket in H. pose proof (skip_ws_length t).
    destruct (skip_ws t) as [|d r'] eqn:Hs; [done|]. destruct (d =? ch "]")%N.
    + injection H as _ <-. simpl in *; lia.
    + destruct (parse_elements f (d :: r')) as [[vs rest]|] eqn:E; simpl in H; [|done].
      injection H as _ <-. apply He in E. simpl in *; lia.
  - by eapply parse_value_other_length.
Qed.

Lemma elements_shrink_S f : value_shrinks f → elements_shrink f → elements_shrink (S f).
Proof.
  intros Hv He s vs r H. rewrite parse_elements_step in H.
  destruct (parse_value f s) as [[v r1]|] eqn:Ev; simpl in H; [|done]. apply Hv in Ev.
  pose proof (skip_ws_length r1). destruct (skip_ws r1) as [|c r'] eqn:Hs; [done|].
  destruct (c =? ch "]")%N; [injection H as _ <-; simpl in *; lia|].
  destruct (c =? ch ",")%N; [|done]. pose proof (skip_ws_length r').
  destruct (parse_elements f (skip_ws r')) as [[vs' rest]|] eqn:E; simpl in H; [|done].
  injection H as _ <-. apply He in E. simpl in *; lia.
Qed.

Lemma members_shrink_S f : value_shrinks f → members_shrink f → members_shrink (S f).
Proof.
  intros Hv Hm [|c t] ms r H; [done|]. cbn [parse_members] in H.
  destruct (c =? 34)%N; [|done].
  destruct (parse_string_chars t) as [[k r1]|] eqn:Ek; simpl in H; [|done].
  apply parse_string_chars_length in Ek. pose proof (skip_ws_length r1).
  destruct (skip_ws r1) as [|d r2] eqn:Hs; [done|]. destruct (d =? ch ":")%N; [|done].
  pose proof (skip_ws_length r2).
  destruct (parse_value f (skip_ws r2)) as [[v r3]|] eqn:Ev; simpl in H; [|done]. apply Hv in Ev.
  pose proof (skip_ws_length r3). destruct (skip_ws r3) as [|e r4] eqn:Hs3; [done|].
  destruct (e =? ch "}")%N; [injection H as _ <-; simpl in *; lia|].
  destruct (e =? ch ",")%N; [|done]. pose proof (skip_ws_length r4).
  destruct (parse_members f (skip_ws r4)) as [[ms' rest]|] eqn:E; simpl in H; [|done].
  injection H as _ <-. apply Hm in E. simpl in *; lia.
Qed.

Lemma parsers_shrink f : value_shrinks f ∧ elements_shrink f ∧ members_shrink f.
Proof.
  induction f as [|f (Hv & He & Hm)]; [done|].
  split_and!; [apply value_shrinks_S | apply elements_shrink_S | apply members_shrink_S]; done.
Qed.

(** ** More fuel gives the same result *)

Definition value_fuel f : Prop := ∀ s v r, parse_value f s = Some (v, r) →
  ∀ f', length s - length r < f' → parse_value f' s = Some (v, r).
Definition elements_fuel f : Prop := ∀ s vs r, parse_elements f s = Some (vs, r) →
  ∀ f', length s - length r < f' → parse_elements f' s = Some (vs, r).
Definition members_fuel f : Prop := ∀ s ms r, parse_members f s = Some (ms, r) →
  ∀ f', length s - length r < f' → parse_members f' s = Some (ms, r).

Lemma value_fuel_S f : elements_fuel f → members_fuel f → value_fuel (S f).
Proof.
  intros He Hm [|c t] v r H [|f'] Hf'; [done|done|lia|].
  destruct (decide (c = ch "{")) as [->|H1]; [|destruct (decide (c = ch "[")) as [->|H2]].
  - rewrite parse_value_brace in H |- *. pose proof (skip_ws_length t).
    destruct (skip_ws t) as [|d r'] eqn:Hs; [done|]. destruct (d =? ch "}")%N; [done|].
    destruct (parse_members f (d :: r')) as [[ms rest]|] eqn:E; simpl in H; [|done].
    injection H as <- <-. pose proof (proj2 (proj2 (parsers_shrink f)) _ _ _ E).
    rewrite (Hm _ _ _ E f') by (simpl in *; lia). reflexivity.
  - rewrite parse_value_bracket in H |- *. pose proof (skip_ws_length t).
    destruct (skip_ws t) as [|d r'] eqn:Hs; [done|]. destruct (d =? ch "]")%N; [done|].
    destruct (parse_elements f (d :: r')) as [[vs rest]|] eqn:E; simpl in H; [|done].
    injection H as <- <-. pose proof (proj1 (proj2 (parsers_shrink f)) _ _ _ E).
    rewrite (He _ _ _ E f') by (simpl in *; lia). reflexivity.
  - rewrite (parse_value_other f' f) by done. exact H.
Qed.

Lemma elements_fuel_S f : value_fuel f → elements_fuel f → elements_fuel (S f).
Proof.
  intros Hv He s vs r H [|f'] Hf'; [lia|]. rewrite parse_elements_step in H |- *.
  destruct (parse_value f s) as [[v r1]|] eqn:Ev; simpl in H; [|done].
  pose proof (proj1 (parsers_shrink f) _ _ _ Ev).
  pose proof (skip_ws_length r1). destruct (skip_ws r1) as [|c r'] eqn:Hs; [done|].
  destruct (c =? ch "]")%N eqn:Ec.
  - injection H as <- <-. rewrite (Hv _ _ _ Ev f') by (simpl in *; lia).
    by rewrite bind_pair_Some, Hs, Ec.
  - destruct (c =? ch ",")%N eqn:Ec2; [|done]. pose proof (skip_ws_length r').
    destruct (parse_elements f (skip_ws r')) as [[vs' rest]|] eqn:E; simpl in H; [|done].
    injection H as <- <-. pose proof (proj1 (proj2 (parsers_shrink f)) _ _ _ E).
    rewrite (Hv _ _ _ Ev f'), bind_pair_Some, Hs, Ec, Ec2 by (simpl in *; lia).
    rewrite (He _ _ _ E f') by (simpl in *; lia). reflexivity.
Qed.

Lemma members_fuel_S f : value_fuel f → members_fuel f → members_fuel (S f).
Proof.
  intros Hv Hm [|c t] ms r H [|f'] Hf'; [done|done|lia|]. cbn [parse_members] in H |- *.
  destruct (c =? 34)%N; [|done].
  destruct (parse_string_chars t) as [[k r1]|] eqn:Ek; simpl in H; [|done].
  pose proof (parse_string_chars_length _ _ _ Ek). rewrite bind_pair_Some.
  pose proof (skip_ws_length r1). destruct (skip_ws r1) as [|d r2] eqn:Hs; [done|].
  destruct (d =? ch ":")%N; [|done]. pose proof (skip_ws_length r2).
  destruct (parse_value f (skip_ws r2)) as [[v r3]|] eqn:Ev; simpl in H; [|done].
  pose proof (proj1 (parsers_shrink f) _ _ _ Ev).
  pose proof (skip_ws_length r3). destruct (skip_ws r3) as [|e r4] eqn:Hs3; [done|].
  destruct (e =? ch "}")%N eqn:Ee.
  - injection H as <- <-.
    rewrite (Hv _ _ _ Ev f'), bind_pair_Some, Hs3, Ee by (simpl in *; lia). reflexivity.
  - destruct (e =? ch ",")%N eqn:Ee2; [|done]. pose proof (skip_ws_length r4).
    destruct (parse_members f (skip_ws r4)) as [[ms' rest]|] eqn:E; simpl in H; [|done].
    injection H as <- <-. pose proof (proj2 (proj2 (parsers_shrink f)) _ _ _ E).
    rewrite (Hv _ _ _ Ev f'), bind_pair_Some, Hs3, Ee, Ee2 by (simpl in *; lia).
    rewrite (Hm _ _ _ E f') by (simpl in *; lia). reflexivity.
Qed.

Lemma parsers_fuel f : value_fuel f ∧ elements_fuel f ∧ members_fuel f.
Proof.
  induction f as [|f (Hv & He & Hm)]; [done|].
  split_and!; [apply value_fuel_S | apply elements_fuel_S | apply members_fuel_S]; done.
Qed.

(** Adequacy of the fuel (a fact about the model, not a property of the
    program): the fuel [JSON_parse] gives its parser never decides the outcome:
    whenever the value parser, with any fuel, reads a value from the text
    (after its leading white space), [JSON_parse] reads the same value
    and rest, and accepts exactly when only white space follows.  So
    [JSON.parse] is modelled as total: it throws only on text no amount
    of fuel would accept. *)
Theorem JSON_parse_fuel_adequate text f v rest :
  parse_value f (skip_ws text) = Some (v, rest) →
  JSON_parse text = match skip_ws rest with [] => Some v | _ => None end.
Proof.
  intros H. unfold JSON_parse. pose proof (skip_ws_length text).
  rewrite (proj1 (parsers_fuel f) _ _ _ H (S (length text))) by lia. reflexivity.
Qed.
