(* ===== verification/GeminiService.v ===== *)
(** * Analysis client: src/services/geminiService.ts

    The module-level API-key check, the prompt of [analyzeCvWithTrends],
    the request it sends, the clean-up of the reply by
    [responseText.replace(/^```json\s*|```\s*$/g, '')], the
    [JSON.parse] of [parseAnalysisResponse] (with its [catch] returning
    [null]), the extraction of the grounding sources, the falsy-result
    check and the re-throwing [catch] of [analyzeCvWithTrends].  The
    remote model is the class [GenAI]: a function from the request to a
    response or a thrown error. *)

From Stdlib Require Import NArith ZArith String.
From stdpp Require Import base list options decidable numbers sets.
From S2P Require Import Prelude JsString Json.

Local Open Scope js_scope.

(** ** The module's start-up check *)

Definition msg_no_api_key : jstr := ‹"API_KEY environment variable not set"›.

(** [if (!process.env.API_KEY) throw ...]: loading the module fails
    unless the key is a non-empty string. *)
Definition module_init (API_KEY : option jstr) : result unit :=
  if opt_str_truthy API_KEY then Ok () else throw_msg msg_no_api_key.

(** ** The fence-stripping regular expression

    [/^```json\s*|```\s*$/g] replaced by the empty string.  The first
    alternative can only match at index 0 (no [m] flag) and its [\s*]
    takes every white-space code unit after [```json]; the second
    matches at an index exactly when the rest of the string is [```]
    followed by white space only, and then consumes the rest.  The global
    replacement tries index 0 (first alternative, then second), then
    scans on from the end of the last match. *)

Definition fence : jstr := ‹"```"›.
Definition fence_json : jstr := ‹"```json"›.

Fixpoint lead_ws (s : jstr) : nat :=
  match s with c :: r => if is_ws c then S (lead_ws r) else 0 | [] => 0 end.

(** The first alternative at index 0: the length of its match. *)
Definition match_open (s : jstr) : option nat :=
  if is_prefix fence_json s then Some (7 + lead_ws (drop 7 s)) else None.

(** The second alternative at the current index. *)
Definition match_close (s : jstr) : bool :=
  is_prefix fence s && forallb is_ws (drop 3 s).

(** The scan for the second alternative, keeping what it skips. *)
Fixpoint strip_close (s : jstr) : jstr :=
  match s with
  | [] => []
  | c :: r => if match_close s then [] else c :: strip_close r
  end.

Definition strip_fences (responseText : jstr) : jstr :=
  match match_open responseText with
  | Some n => strip_close (drop n responseText)
  | None => strip_close responseText
  end.

(** [parseAnalysisResponse]: [null] (here [JNull], the same JavaScript
    value as the text [null] parses to) when the text is [undefined]
    ([.replace] throws a [TypeError]) or when [JSON.parse] throws; the
    parsed value, unchecked, otherwise. *)
Definition parseAnalysisResponse (responseText : option jstr) : json :=
  match responseText with
  | None => JNull
  | Some t => match JSON_parse (strip_fences t) with Some v => v | None => JNull end
  end.

(** [!analysis] *)
Definition json_truthy (v : json) : bool :=
  match v with
  | JNull => false
  | JBool b => b
  | JNum m _ => negb (m =? 0)%Z
  | JStr s => str_truthy s
  | JArr _ | JObj _ => true
  end.

(** ** The prompt *)

Definition prompt_part0 : jstr := js
"
    You are MyCv.ng's AI assistant, an expert Nigerian HR professional and career coach. Your goal is to analyze a user's CV and provide a critical, helpful, and encouraging review in a friendly but professional Nigerian pidgin and English mix. You should be direct but supportive. Use Google Search to find the latest trends.

    The user's field is: ".

Definition prompt_part1 : jstr := js
"

    Here is the CV content:
    ---
    ".

Definition prompt_part2 : jstr := js
"
    ---

    Your entire response MUST be a single JSON object string that starts with ' ```json ' and ends with ' ``` '. Do not add any text before or after the JSON block.

    The JSON object MUST have these exact keys and structure:
    - ~trends~: An array of 3-5 short, string-based bullet points on the latest trends for the specified field based on your search.
    - ~overallScore~: An integer score from 0 to 100 representing the CV's overall strength.
    - ~scoreBreakdown~: An array of exactly 3 objects, each with ~area~, ~score~ (0-100), and ~feedback~. The areas MUST be ~Clarity & Formatting~, ~Impact & Keywords~, and ~Experience Relevancy~.
    - ~summary~: A short, one-sentence summary of the CV's potential, Nigerian style.
    - ~keyImprovement~: The single most important improvement the user should make, in one sentence.

    Example JSON response format:
    ```json
    {
      ~trends~: [
        ~AI-powered tools are now common for applicant tracking.~,
        ~Remote work skills are highly sought after by employers.~,
        ~Data literacy is becoming a key skill in this industry.~
      ],
      ~overallScore~: 85,
      ~scoreBreakdown~: [
        { ~area~: ~Clarity & Formatting~, ~score~: 90, ~feedback~: ~Your CV is well-structured and easy to read, well done!~ },
        { ~area~: ~Impact & Keywords~, ~score~: 80, ~feedback~: ~You use strong action verbs, but could add more keywords relevant to ".

Definition prompt_part3 : jstr := js
".~ },
        { ~area~: ~Experience Relevancy~, ~score~: 85, ~feedback~: ~Your experience aligns well, but tailor it more for each job application.~ }
      ],
      ~summary~: ~This your CV get as e be, e solid but small tuning go make am stand gidigba.~,
      ~keyImprovement~: ~Your top priority na to quantify your achievements with numbers to show your real impact.~
    }
    ```
  ".

Definition buildPrompt (cvText industry : jstr) : jstr :=
  prompt_part0 ++ industry ++ prompt_part1 ++ cvText ++ prompt_part2 ++ industry ++ prompt_part3.

(** ** The request, the response and the sources (types.ts, @google/genai) *)

Record GenerateContentRequest := mkRequest {
  model : jstr;
  contents : jstr;
  (** [config: { tools: [{ googleSearch: {} }] }] *)
  tool_googleSearch : bool
}.

Record Web := mkWeb { uri : option jstr; title : option jstr }.
Record GroundingChunk := mkChunk { web : option Web }.
Record GroundingMetadata := mkMetadata { groundingChunks : option (list GroundingChunk) }.
Record Candidate := mkCandidate { groundingMetadata : option GroundingMetadata }.
Record GenerateContentResponse := mkResponse {
  (** the [response.text] getter: [undefined] when the reply has no text *)
  text : option jstr;
  candidates : option (list Candidate)
}.

Definition analysis_request (prompt : jstr) : GenerateContentRequest :=
  mkRequest ‹"gemini-2.5-flash"› prompt true.

(** [response.candidates?.[0]?.groundingMetadata?.groundingChunks || []] *)
Definition response_sources (response : GenerateContentResponse) : list GroundingChunk :=
  match candidates response with
  | Some (c :: _) =>
      match groundingMetadata c with
      | Some gm => match groundingChunks gm with Some cs => cs | None => [] end
      | None => []
      end
  | _ => []
  end.

(** The resolved value [{ analysis, sources }]. *)
Record AnalysisOutput := mkOutput { analysis : json; sources : list GroundingChunk }.

Definition msg_no_structured : jstr := ‹"Failed to get structured analysis from the AI."›.

(** What the remote service is to this module. *)
Class GenAI := { generateContent : GenerateContentRequest → result GenerateContentResponse }.

(** The body of [analyzeCvWithTrends] after the call: parse, collect the
    sources, reject a falsy analysis; the [catch] re-throws.  Its type
    admits [null], which the code never returns. *)
Definition handle_response (call : result GenerateContentResponse)
    : result (option AnalysisOutput) :=
  try_catch
    (response ← call;
     let analysis := parseAnalysisResponse (text response) in
     let sources := response_sources response in
     if negb (json_truthy analysis) then throw_msg msg_no_structured
     else Ok (Some (mkOutput analysis sources)))
    (λ error, Throw error).

Definition analyzeCvWithTrends `{!GenAI} (cvText industry : jstr) : result (option AnalysisOutput) :=
  handle_response (generateContent (analysis_request (buildPrompt cvText industry))).

(** ** Lemmas: the fence-stripping scan *)

Lemma forallb_is_ws s : forallb is_ws s = true ↔ all_ws s.
Proof.
  unfold all_ws. induction s as [|c s IH]; simpl; [split; [constructor|done]|].
  by rewrite andb_true_iff, IH, Forall_cons_iff.
Qed.

Lemma match_close_spec w : match_close w = true ↔ ∃ ws, w = fence ++ ws ∧ all_ws ws.
Proof.
  unfold match_close. rewrite andb_true_iff, is_prefix_spec. split.
  - intros [[r ->] Hws]. exists r. split; [done|]. by apply forallb_is_ws.
  - intros (ws & -> & Hws). split; [eauto|]. by apply forallb_is_ws.
Qed.

Lemma fence_all_backticks : Forall (λ c, c = 96%N) fence.
Proof. repeat constructor. Qed.

Lemma match_close_ws_head c r : is_ws c = true → match_close (c :: r) = false.
Proof.
  intros Hc. destruct (match_close (c :: r)) eqn:E; [|done].
  apply match_close_spec in E as (ws & Hw & _). injection Hw as -> _. discriminate Hc.
Qed.

(** No match of [```\s*$] can start before a code unit that is neither
    white space nor a backtick. *)
Lemma match_close_last k b t :
  is_ws b = false → b ≠ 96%N → match_close (k ++ [b] ++ t) = false.
Proof.
  intros Hb Hb96. destruct (match_close _) eqn:E; [|done].
  apply match_close_spec in E as (ws & Hw & Hws). rewrite app_assoc in Hw.
  destruct (app_eq_app _ _ _ _ Hw) as (l & [[Hl ->] | [Hl _]]).
  - destruct (decide (l = [])) as [->|Hne].
    + rewrite app_nil_r in Hl. change fence with ([96; 96] ++ [96])%N in Hl.
      by apply app_inj_tail in Hl as [_ ->].
    + destruct (exists_last Hne) as (l' & x & ->).
      rewrite app_assoc in Hl. apply app_inj_tail in Hl as [_ <-].
      unfold all_ws in Hws. rewrite !Forall_app in Hws. destruct Hws as [[_ Hx] _].
      apply Forall_cons_iff in Hx as [Hx _]. congruence.
  - pose proof fence_all_backticks as Hf. rewrite Hl, !Forall_app in Hf.
    destruct Hf as [[_ Hf] _]. by apply Forall_cons_iff in Hf as [? _].
Qed.

Lemma strip_close_match s : match_close s = true → strip_close s = [].
Proof. destruct s as [|c r]; [done|]. intros H. cbn [strip_close]. by rewrite H. Qed.

Lemma strip_close_app x y :
  (∀ z1 z2, x = z1 ++ z2 → z2 ≠ [] → match_close (z2 ++ y) = false) →
  strip_close (x ++ y) = x ++ strip_close y.
Proof.
  induction x as [|c x IH]; intros Hno; [done|]. cbn [app strip_close].
  pose proof (Hno [] (c :: x) eq_refl ltac:(done)) as H0. cbn [app] in H0.
  rewrite H0. f_equal.
  apply IH. intros z1 z2 -> Hz2. apply (Hno (c :: z1) z2); done.
Qed.

(** No match of the closing alternative starts inside a text that ends
    in a code unit that is neither white space nor a backtick and is
    followed by white space only, whatever comes after. *)
Lemma no_close_inside body b ws2 y :
  is_ws b = false → b ≠ 96%N → all_ws ws2 →
  ∀ z1 z2, body ++ [b] ++ ws2 = z1 ++ z2 → z2 ≠ [] → match_close (z2 ++ y) = false.
Proof.
  intros Hb Hb96 H2 z1 z2 Hx Hz2. rewrite app_assoc in Hx.
  destruct (app_eq_app _ _ _ _ Hx) as (l & [[Hl Hz] | [Hl Hws2]]).
  - (* the match would start inside the body, or at the trailing white space *)
    destruct (decide (l = [])) as [->|Hne].
    + rewrite app_nil_l in Hz. subst z2. destruct ws2 as [|c ws2]; [done|].
      apply Forall_cons_iff in H2 as [Hc _]. cbn [app]. by apply match_close_ws_head.
    + destruct (exists_last Hne) as (l' & x & ->).
      rewrite app_assoc in Hl. apply app_inj_tail in Hl as [_ <-].
      rewrite Hz, <- !app_assoc. by apply match_close_last.
  - (* the match would start inside the trailing white space *)
    subst ws2. destruct z2 as [|c z2]; [done|].
    unfold all_ws in H2. rewrite Forall_app, Forall_cons_iff in H2.
    apply match_close_ws_head. tauto.
Qed.

Lemma lead_ws_app ws t : all_ws ws → starts_non_ws t → lead_ws (ws ++ t) = length ws.
Proof.
  induction 1 as [|c ws Hc _ IH]; intros Ht; cbn [app lead_ws length].
  - destruct t as [|c t]; [done|]. cbn [lead_ws]. simpl in Ht. by rewrite Ht.
  - rewrite Hc. by rewrite IH.
Qed.

Lemma starts_non_ws_app_l a b : a ≠ [] → starts_non_ws a → starts_non_ws (a ++ b).
Proof. by destruct a. Qed.

(** A text with a code unit at its end that is neither white space nor a
    backtick. *)
Definition ends_plain (body : jstr) : Prop :=
  ∃ b, last body = Some b ∧ is_ws b = false ∧ b ≠ 96%N.

Lemma strip_close_plain body ws2 y :
  ends_plain body → all_ws ws2 → strip_close ((body ++ ws2) ++ y) = body ++ ws2 ++ strip_close y.
Proof.
  intros (b & Hlast & Hb & Hb96) H2. apply last_Some in Hlast as (body' & ->).
  rewrite strip_close_app; [by rewrite <- !app_assoc|].
  intros z1 z2 Hx. rewrite <- app_assoc in Hx. by apply (no_close_inside body' b ws2 y Hb Hb96 H2 z1).
Qed.

Lemma strip_fences_fenced ws1 body ws2 ws3 :
  all_ws ws1 → all_ws ws2 → all_ws ws3 → starts_non_ws body → ends_plain body →
  strip_fences (fence_json ++ ws1 ++ body ++ ws2 ++ fence ++ ws3) = body ++ ws2.
Proof.
  intros H1 H2 H3 Hs He. unfold strip_fences, match_open.
  assert (Hne : body ≠ []) by (destruct He as (b & Hb & _); by intros ->).
  rewrite (proj2 (is_prefix_spec _ _)) by eauto.
  rewrite (drop_app_length fence_json (ws1 ++ _)), lead_ws_app
    by (done || by apply starts_non_ws_app_l).
  rewrite app_assoc, (drop_app_length (fence_json ++ ws1)), app_assoc.
  rewrite strip_close_plain by done. rewrite strip_close_match; [by rewrite app_nil_r|].
  apply match_close_spec. eauto.
Qed.

Lemma strip_fences_plain body :
  starts_non_ws body → ends_plain body → (∀ r, body ≠ 96%N :: r) → strip_fences body = body.
Proof.
  intros Hs He H96. unfold strip_fences, match_open.
  destruct (is_prefix fence_json body) eqn:E.
  { apply is_prefix_spec in E as (r & ->). by destruct (H96 (96%N :: 96%N :: js "json" ++ r)). }
  rewrite <- (app_nil_r body) at 1. rewrite <- (app_nil_r body) at 1.
  rewrite strip_close_plain by (done || constructor). cbn [app strip_close]. apply app_nil_r.
Qed.

Lemma print_ends_plain v : ends_plain (print v).
Proof. apply print_last. Qed.

Lemma print_not_backtick v r : print v ≠ 96%N :: r.
Proof.
  destruct (print_head v []) as (c & r' & Hcr & Hc). rewrite app_nil_r in Hcr. rewrite Hcr.
  intros [= ->]. destruct Hc as [?|[?|Hin]]; [lia|lia|].
  repeat (apply elem_of_cons in Hin as [?|Hin]; [lia|]). by apply elem_of_nil in Hin.
Qed.

(** No value starts with a white-space code unit or a backtick. *)
Lemma parse_value_junk f x r : (x <= 32 ∨ x = 96 ∨ 160 <= x)%N → parse_value f (x :: r) = None.
Proof.
  intros Hx. destruct f as [|f]; [done|]. cbn [parse_value]. ch_compute.
  repeat rewrite (proj2 (N.eqb_neq x _)) by lia.
  unfold parse_number, parse_minus. ch_compute. rewrite (proj2 (N.eqb_neq x _)) by lia.
  unfold parse_int. ch_compute. rewrite (proj2 (N.eqb_neq x _)) by lia.
  unfold is_digit. destruct (N.leb_spec 48 x); destruct (N.leb_spec x 57); simpl; try lia; done.
Qed.

Lemma JSON_parse_ws_backtick c y : is_ws c = true → JSON_parse (c :: 96%N :: y) = None.
Proof.
  intros Hc. apply is_ws_range in Hc. unfold JSON_parse.
  assert (Hs : skip_ws (c :: 96%N :: y) = 96%N :: y ∨ skip_ws (c :: 96%N :: y) = c :: 96%N :: y).
  { cbn [skip_ws]. destruct (json_ws c); [left | right]; reflexivity. }
  destruct Hs as [-> | ->]; rewrite parse_value_junk; (done || lia).
Qed.

Lemma parseAnalysisResponse_fenced v ws1 ws2 ws3 :
  all_ws ws1 → all_json_ws ws2 → all_ws ws3 →
  parseAnalysisResponse (Some (fence_json ++ ws1 ++ print v ++ ws2 ++ fence ++ ws3)) = v.
Proof.
  intros H1 H2 H3. cbn [parseAnalysisResponse].
  rewrite strip_fences_fenced
    by (done || by apply all_json_ws_all_ws || apply print_starts_non_ws || apply print_ends_plain).
  rewrite <- (app_nil_l (print v ++ ws2)), JSON_parse_print_ws; [done|constructor|done].
Qed.

Lemma handle_response_Ok r :
  handle_response (Ok r) =
    if json_truthy (parseAnalysisResponse (text r))
    then Ok (Some (mkOutput (parseAnalysisResponse (text r)) (response_sources r)))
    else throw_msg msg_no_structured.
Proof. unfold handle_response. autorewrite with js_rw. cbn zeta. by destruct (json_truthy _). Qed.

(** ** Properties of the analysis client *)

(** C2: When the reply's text is the canonical JSON text of a truthy value
    between an opening [```json] fence and a closing [```] fence, with
    any white space around the value, [analyzeCvWithTrends] resolves
    with exactly that value and the response's grounding sources.  The
    value may have any shape: nothing checks it against [AnalysisResult]. *)
Theorem handle_fenced_reply r v ws1 ws2 ws3 :
  text r = Some (fence_json ++ ws1 ++ print v ++ ws2 ++ fence ++ ws3) →
  all_ws ws1 → all_json_ws ws2 → all_ws ws3 → json_truthy v = true →
  handle_response (Ok r) = Ok (Some (mkOutput v (response_sources r))).
Proof.
  intros Ht H1 H2 H3 Hv. rewrite handle_response_Ok, Ht, parseAnalysisResponse_fenced by done.
  by rewrite Hv.
Qed.

(** C23: A reply with no fence at all is accepted too: the canonical text
    of a truthy value alone resolves with that value. *)
Theorem handle_unfenced_reply r v :
  text r = Some (print v) → json_truthy v = true →
  handle_response (Ok r) = Ok (Some (mkOutput v (response_sources r))).
Proof.
  intros Ht Hv. rewrite handle_response_Ok, Ht. cbn [parseAnalysisResponse].
  rewrite strip_fences_plain
    by (apply print_starts_non_ws || apply print_ends_plain || apply print_not_backtick).
  rewrite <- (app_nil_l (print v)), <- (app_nil_r (print v)), JSON_parse_print_ws
    by constructor.
  by rewrite Hv.
Qed.

(** C24: A reply with a white-space code unit before the [```json] fence
    (the prompt itself asks for a reply that "starts with ' ```json '")
    is rejected with "Failed to get structured analysis from the AI.",
    whatever follows: the first alternative of the regular expression
    only matches at index 0, so the fence stays in the text. *)
Theorem handle_leading_ws_rejected r c t :
  text r = Some (c :: fence_json ++ t) → is_ws c = true →
  handle_response (Ok r) = throw_msg msg_no_structured.
Proof.
  intros Ht Hc. rewrite handle_response_Ok, Ht. cbn [parseAnalysisResponse].
  assert (Hs : strip_fences (c :: fence_json ++ t) = c :: 96%N :: strip_close (96%N :: 96%N :: js "json" ++ t)).
  { unfold strip_fences, match_open.
    destruct (is_prefix fence_json (c :: fence_json ++ t)) eqn:E.
    - apply is_prefix_spec in E as (r' & Hr). injection Hr as Hc96 _. subst c. discriminate Hc.
    - cbn [strip_close]. rewrite match_close_ws_head by done. f_equal. }
  rewrite Hs, JSON_parse_ws_backtick by done. reflexivity.
Qed.

Lemma handle_response_Ok_inv call o :
  handle_response call = Ok o → ∃ out, o = Some out ∧ json_truthy (analysis out) = true.
Proof.
  destruct call as [r|e]; [|done]. rewrite handle_response_Ok.
  destruct (json_truthy _) eqn:E; [|done]. intros [= <-]. by eexists.
Qed.

(** C22: [analyzeCvWithTrends] never resolves with [null] nor with a falsy
    analysis: what it resolves with always has a truthy [analysis]. *)
Theorem handle_response_resolves_truthy call o :
  handle_response call = Ok o → ∃ out, o = Some out ∧ json_truthy (analysis out) = true.
Proof. apply handle_response_Ok_inv. Qed.

(** C25: A failed call (network or service error) is re-thrown unchanged,
    and a response with no text is rejected with "Failed to get
    structured analysis from the AI.". *)
Theorem handle_response_errors :
  (∀ e, handle_response (Throw e) = Throw e) ∧
  (∀ r, text r = None → handle_response (Ok r) = throw_msg msg_no_structured).
Proof. split; [done|]. intros r Ht. by rewrite handle_response_Ok, Ht. Qed.

(** ** Concrete runs *)

Definition breakdown (area : string) (score : Z) (feedback : string) : json :=
  JObj [(‹"area"›, JStr (js area)); (‹"score"›, JNum score 0); (‹"feedback"›, JStr (js feedback))].

(** The example of the prompt. *)
Definition sample_analysis : json :=
  JObj [(‹"trends"›, JArr [JStr ‹"AI-powered tools are now common for applicant tracking."›;
                           JStr ‹"Remote work skills are highly sought after by employers."›;
                           JStr ‹"Data literacy is becoming a key skill in this industry."›]);
        (‹"overallScore"›, JNum 85 0);
        (‹"scoreBreakdown"›, JArr [breakdown "Clarity & Formatting" 90 "Well structured.";
                                   breakdown "Impact & Keywords" 80 "Add keywords.";
                                   breakdown "Experience Relevancy" 85 "Tailor it."]);
        (‹"summary"›, JStr ‹"This your CV get as e be."›);
        (‹"keyImprovement"›, JStr ‹"Quantify your achievements."›)].

Definition sample_sources : list GroundingChunk :=
  [mkChunk (Some (mkWeb (Some ‹"https://example.org/trends"›) (Some ‹"Trends"›)))].

Definition sample_response (t : option jstr) : GenerateContentResponse :=
  mkResponse t (Some [mkCandidate (Some (mkMetadata (Some sample_sources)))]).

Lemma handle_fenced_reply_witness :
  handle_response (Ok (sample_response
    (Some (fence_json ++ [10%N] ++ print sample_analysis ++ [10%N] ++ fence ++ []))))
  = Ok (Some (mkOutput sample_analysis sample_sources)).
Proof.
  rewrite (handle_fenced_reply _ sample_analysis [10%N] [10%N] []);
    first [reflexivity | repeat constructor].
Defined.

Lemma handle_unfenced_reply_witness :
  handle_response (Ok (sample_response (Some (print (JObj [])))))
  = Ok (Some (mkOutput (JObj []) sample_sources)).
Proof. rewrite (handle_unfenced_reply _ (JObj [])); reflexivity. Defined.

Lemma handle_leading_ws_rejected_witness :
  handle_response (Ok (sample_response
    (Some (32%N :: fence_json ++ [10%N] ++ print sample_analysis ++ [10%N] ++ fence))))
  = throw_msg msg_no_structured.
Proof.
  apply (handle_leading_ws_rejected _ 32%N ([10%N] ++ print sample_analysis ++ [10%N] ++ fence));
    reflexivity.
Defined.

Lemma handle_response_resolves_truthy_witness :
  ∃ out, Some (mkOutput (JObj []) sample_sources) = Some out ∧ json_truthy (analysis out) = true.
Proof.
  apply (handle_response_resolves_truthy (Ok (sample_response (Some (print (JObj [])))))).
  vm_compute. reflexivity.
Defined.
