(* ===== verification/App.v ===== *)
(** * Application controller: src/App.tsx and src/components/FileUpload.tsx

    The session state of [App] (its seven [useState] cells), the state of
    [FileUpload] (three cells), and the two operations that may be in
    flight ([extractTextFromFile] of [processFile], and the remote call
    of [handleAnalyze]).  Each handler is split at its [await]: the part
    before it runs on the user's event, the part after it on the
    completion event.  Which events the user can cause is read off what
    is rendered: the drop zone only when no file is shown and none is
    being parsed, the Remove button only when a file name is shown, the
    Analyze button only when it is not disabled.  The remote service may
    answer anything, so its completion carries an arbitrary outcome. *)

From Stdlib Require Import NArith ZArith String.
From stdpp Require Import base list options decidable numbers sets.
From S2P Require Import Prelude JsString FileParser Json GeminiService.

Local Open Scope js_scope.

(** ** [App]: state, setters, handlers *)
Module App.

Record State := mkState {
  cvText : jstr;
  industry : jstr;
  analysis : option json;
  sources : list GroundingChunk;
  isLoading : bool;
  error : option jstr;
  fileName : option jstr
}.

Definition initial : State := mkState [] [] None [] false None None.

Definition setCvText v s := mkState v (industry s) (analysis s) (sources s) (isLoading s) (error s) (fileName s).
Definition setIndustry v s := mkState (cvText s) v (analysis s) (sources s) (isLoading s) (error s) (fileName s).
Definition setAnalysis v s := mkState (cvText s) (industry s) v (sources s) (isLoading s) (error s) (fileName s).
Definition setSources v s := mkState (cvText s) (industry s) (analysis s) v (isLoading s) (error s) (fileName s).
Definition setIsLoading v s := mkState (cvText s) (industry s) (analysis s) (sources s) v (error s) (fileName s).
Definition setError v s := mkState (cvText s) (industry s) (analysis s) (sources s) (isLoading s) v (fileName s).
Definition setFileName v s := mkState (cvText s) (industry s) (analysis s) (sources s) (isLoading s) (error s) v.

Definition msg_missing_input : jstr :=
  ‹"Oga, you must upload your CV and enter your field of work."›.
Definition msg_analysis_empty : jstr :=
  ‹"Sorry o, something went wrong. The analysis returned empty. Try again."›.
Definition msg_analysis_failed : jstr :=
  ‹"Ah! E don cast. We couldn't analyze your CV. Please check your network or try again later."›.

Definition handleFileProcessed (text name : jstr) (s : State) : State :=
  setError None (setFileName (Some name) (setCvText text s)).

Definition handleRemoveFile (s : State) : State := setFileName None (setCvText [] s).

(** [handleAnalyze] up to its [await]: the guard, the resets, and the
    request it sends (if any). *)
Definition handleAnalyze_start (s : State) : State * option GenerateContentRequest :=
  if negb (str_truthy (cvText s)) || negb (str_truthy (trim (industry s))) then
    (setError (Some msg_missing_input) s, None)
  else
    (setSources [] (setAnalysis None (setError None (setIsLoading true s))),
     Some (analysis_request (buildPrompt (cvText s) (industry s)))).

(** [handleAnalyze] after its [await]: the [if (result)], the [catch] and
    the [finally]. *)
Definition handleAnalyze_finish (result : result (option AnalysisOutput)) (s : State) : State :=
  setIsLoading false
    match result with
    | Ok (Some r) => setSources (GeminiService.sources r) (setAnalysis (Some (GeminiService.analysis r)) s)
    | Ok None => setError (Some msg_analysis_empty) s
    | Throw _ => setError (Some msg_analysis_failed) s
    end.

(** [disabled={isLoading || !cvText || !industry}], negated. *)
Definition analyze_enabled (s : State) : bool :=
  negb (isLoading s) && str_truthy (cvText s) && str_truthy (industry s).

(** [{error && ...}]: the banner shows a non-empty message. *)
Definition error_banner (s : State) : option jstr :=
  match error s with Some e => if str_truthy e then Some e else None | None => None end.

(** [{!isLoading && analysis && <AnalysisDisplay .../>}]: what the result
    view is given, when it is rendered. *)
Definition results_view (s : State) : option (json * list GroundingChunk) :=
  match analysis s with
  | Some a => if negb (isLoading s) && json_truthy a then Some (a, sources s) else None
  | None => None
  end.

End App.

(** ** [FileUpload]: state, setters, the two halves of [processFile] *)
Module FileUpload.

Record State := mkState { isDragging : bool; isParsing : bool; parsingFileName : option jstr }.

Definition initial : State := mkState false false None.

Definition setIsDragging v s := mkState v (isParsing s) (parsingFileName s).
Definition setIsParsing v s := mkState (isDragging s) v (parsingFileName s).
Definition setParsingFileName v s := mkState (isDragging s) (isParsing s) v.

Definition ACCEPTED_MIME_TYPES : list jstr := [mime_pdf; mime_text_plain].

Definition msg_type_not_supported : jstr :=
  ‹"File type not supported. Please upload a PDF or TXT file."›.
Definition msg_read_fallback : jstr := ‹"Sorry, we couldn't read the content of your file."›.

(** [err instanceof Error ? err.message : "Sorry, ..."] *)
Definition error_message (err : exn) : jstr :=
  match err with ErrorObj m => m | NonError => msg_read_fallback end.

(** The three views the component renders. *)
Inductive View := Parsing | ShowFile | DropZone.

Definition view (s : State) (fileName : option jstr) : View :=
  if isParsing s then Parsing else if opt_str_truthy fileName then ShowFile else DropZone.

End FileUpload.

(** ** The session *)

Record Session := mkSession {
  app : App.State;
  upload : FileUpload.State;
  (** the file whose [extractTextFromFile] is awaited *)
  parse_in_flight : option File;
  (** the request whose [generateContent] is awaited *)
  call_in_flight : option GenerateContentRequest
}.

Definition initial : Session := mkSession App.initial FileUpload.initial None None.

Definition upload_view (s : Session) : FileUpload.View :=
  FileUpload.view (upload s) (App.fileName (app s)).

Definition with_app (f : App.State → App.State) (s : Session) : Session :=
  mkSession (f (app s)) (upload s) (parse_in_flight s) (call_in_flight s).

Definition with_upload (f : FileUpload.State → FileUpload.State) (s : Session) : Session :=
  mkSession (app s) (f (upload s)) (parse_in_flight s) (call_in_flight s).

(** [processFile] up to its [await]. *)
Definition processFile_start (file : File) (s : Session) : Session :=
  if negb (existsb (λ m, bool_decide (m = type file)) FileUpload.ACCEPTED_MIME_TYPES) then
    with_app (App.setError (Some FileUpload.msg_type_not_supported)) s
  else
    mkSession (App.setError (Some []) (app s))
      (FileUpload.setParsingFileName (Some (name file)) (FileUpload.setIsParsing true (upload s)))
      (Some file) (call_in_flight s).

(** [processFile] after its [await]: [onFileProcessed], or [onError] and
    [onRemoveFile]; then the [finally]. *)
Definition processFile_finish (file : File) (outcome : result jstr) (s : Session) : Session :=
  let app' :=
    match outcome with
    | Ok text => App.handleFileProcessed text (name file) (app s)
    | Throw err => App.handleRemoveFile (App.setError (Some (FileUpload.error_message err)) (app s))
    end in
  mkSession app'
    (FileUpload.setParsingFileName None (FileUpload.setIsParsing false (upload s)))
    None (call_in_flight s).

(** [handleFileSelect] and [handleDrop] hand [files[0]] to [processFile]. *)
Definition process_first (files : list File) (s : Session) : Session :=
  match files with f :: _ => processFile_start f s | [] => s end.

(** The drop zone's handlers; [preventDefault] and [stopPropagation]
    change no state, and neither does [handleDragOver]. *)
Definition handleDragEnter (s : Session) : Session := with_upload (FileUpload.setIsDragging true) s.

Definition handleDragLeave (s : Session) : Session := with_upload (FileUpload.setIsDragging false) s.

Definition handleDrop (files : list File) (s : Session) : Session :=
  process_first files (with_upload (FileUpload.setIsDragging false) s).

(** [handleFileSelect]; the reset of the input's [value] is DOM state
    that no render reads. *)
Definition handleFileSelect (files : list File) (s : Session) : Session := process_first files s.

(** [handleRemoveClick] calls [onRemoveFile], which is [App]'s
    [handleRemoveFile]. *)
Definition handleRemoveClick (s : Session) : Session := with_app App.handleRemoveFile s.

Definition handleAnalyze_click (s : Session) : Session :=
  let '(a, req) := App.handleAnalyze_start (app s) in
  mkSession a (upload s) (parse_in_flight s) req.

Definition handleAnalyze_done (outcome : result GenerateContentResponse) (s : Session) : Session :=
  mkSession (App.handleAnalyze_finish (handle_response outcome) (app s))
    (upload s) (parse_in_flight s) None.

Inductive Event :=
| IndustryChanged (value : jstr)
| DragEnter
| DragLeave
| Drop (files : list File)
| FileSelected (files : list File)
| ParseCompleted
| RemoveClicked
| AnalyzeClicked
| CallCompleted (outcome : result GenerateContentResponse).

#[export] Instance View_eq_dec : EqDecision FileUpload.View.
Proof. solve_decision. Defined.

Section Steps.
Context {P : Platform}.

Inductive step : Session → Event → Session → Prop :=
| step_industry s v :
    step s (IndustryChanged v) (with_app (App.setIndustry v) s)
| step_drag_enter s :
    upload_view s = FileUpload.DropZone →
    step s DragEnter (handleDragEnter s)
| step_drag_leave s :
    upload_view s = FileUpload.DropZone →
    step s DragLeave (handleDragLeave s)
| step_drop s files :
    upload_view s = FileUpload.DropZone →
    step s (Drop files) (handleDrop files s)
| step_select s files :
    upload_view s = FileUpload.DropZone →
    step s (FileSelected files) (handleFileSelect files s)
| step_parse_done s file :
    parse_in_flight s = Some file →
    step s ParseCompleted (processFile_finish file (extractTextFromFile file) s)
| step_remove s :
    upload_view s = FileUpload.ShowFile →
    step s RemoveClicked (handleRemoveClick s)
| step_analyze s :
    App.analyze_enabled (app s) = true →
    step s AnalyzeClicked (handleAnalyze_click s)
| step_call_done s req outcome :
    call_in_flight s = Some req →
    step s (CallCompleted outcome) (handleAnalyze_done outcome s).

Definition reachable (s : Session) : Prop := ∃ evs, star step initial evs s.

(** The same transitions as a function: [None] when the event cannot
    happen (its control is not rendered or disabled, or nothing is
    awaited). *)
Definition exec_event (s : Session) (e : Event) : option Session :=
  match e with
  | IndustryChanged v => Some (with_app (App.setIndustry v) s)
  | DragEnter =>
      if decide (upload_view s = FileUpload.DropZone)
      then Some (handleDragEnter s) else None
  | DragLeave =>
      if decide (upload_view s = FileUpload.DropZone)
      then Some (handleDragLeave s) else None
  | Drop files =>
      if decide (upload_view s = FileUpload.DropZone)
      then Some (handleDrop files s) else None
  | FileSelected files =>
      if decide (upload_view s = FileUpload.DropZone) then Some (handleFileSelect files s) else None
  | ParseCompleted =>
      file ← parse_in_flight s; Some (processFile_finish file (extractTextFromFile file) s)
  | RemoveClicked =>
      if decide (upload_view s = FileUpload.ShowFile) then Some (handleRemoveClick s) else None
  | AnalyzeClicked =>
      if App.analyze_enabled (app s) then Some (handleAnalyze_click s) else None
  | CallCompleted outcome =>
      _ ← call_in_flight s; Some (handleAnalyze_done outcome s)
  end.

Fixpoint exec_trace (s : Session) (evs : list Event) : option Session :=
  match evs with
  | [] => Some s
  | e :: evs' => s' ← exec_event s e; exec_trace s' evs'
  end.

End Steps.

(** ** The invariant of the session

    It has two parts proved apart: [call_inv] ties the loading flag to
    the awaited call and keeps the result truthy and absent while
    loading; [parse_inv] ties the parsing flag and the name shown while
    parsing to the awaited extraction.  Clients of the session (the
    workflow refinement, the page) need only [call_inv]. *)

Definition call_inv (s : Session) : Prop :=
  (App.isLoading (app s) = true ↔ is_Some (call_in_flight s)) ∧
  (App.isLoading (app s) = true → App.analysis (app s) = None ∧ App.sources (app s) = []) ∧
  (∀ a, App.analysis (app s) = Some a → json_truthy a = true).

Definition parse_inv (s : Session) : Prop :=
  (FileUpload.isParsing (upload s) = true ↔ is_Some (parse_in_flight s)) ∧
  FileUpload.parsingFileName (upload s) = name <$> parse_in_flight s.

Definition inv (s : Session) : Prop :=
  (App.isLoading (app s) = true ↔ is_Some (call_in_flight s)) ∧
  (FileUpload.isParsing (upload s) = true ↔ is_Some (parse_in_flight s)) ∧
  FileUpload.parsingFileName (upload s) = name <$> parse_in_flight s ∧
  (App.isLoading (app s) = true → App.analysis (app s) = None ∧ App.sources (app s) = []) ∧
  (∀ a, App.analysis (app s) = Some a → json_truthy a = true).

Lemma inv_parts_iff s : inv s ↔ call_inv s ∧ parse_inv s.
Proof. unfold inv, call_inv, parse_inv. tauto. Qed.

(** Unfold a part of the invariant and the setters, and close the
    routine conjuncts. *)
Ltac inv_simpl :=
  unfold call_inv, parse_inv; cbn [app upload parse_in_flight call_in_flight App.isLoading
    App.analysis App.sources FileUpload.isParsing FileUpload.parsingFileName App.setError
    App.setIsLoading App.setAnalysis App.setSources App.setCvText App.setFileName
    App.setIndustry FileUpload.setIsParsing FileUpload.setParsingFileName
    FileUpload.setIsDragging App.handleRemoveFile App.handleFileProcessed fmap option_fmap
    option_map].

Ltac inv_close :=
  repeat match goal with |- _ ∧ _ => split end;
  try solve [done | tauto | split; [intros; by eexists | done] | split; [done | by intros []]].

Lemma call_inv_initial : call_inv initial.
Proof. repeat split; try done; by intros []. Qed.

Lemma parse_inv_initial : parse_inv initial.
Proof. repeat split; try done; by intros []. Qed.

Section StepsProps.
Context {P : Platform}.

Lemma step_exec_event s e s' : step s e s' ↔ exec_event s e = Some s'.
Proof.
  split.
  - destruct 1; simpl; repeat (case_decide; try done);
      try (rewrite H; reflexivity); by simplify_eq.
  - destruct e; simpl; repeat case_decide; intros Hs; simplify_eq; try by constructor.
    + destruct (parse_in_flight s) as [file|] eqn:E; simpl in Hs; simplify_eq.
      by apply step_parse_done.
    + destruct (App.analyze_enabled (app s)) eqn:E; simplify_eq. by constructor.
    + destruct (call_in_flight s) as [req|] eqn:E; simpl in Hs; simplify_eq.
      by eapply step_call_done.
Qed.

Lemma star_exec_trace s evs s' : star step s evs s' ↔ exec_trace s evs = Some s'.
Proof.
  split.
  - induction 1 as [|s e s1 evs s2 Hs _ IH]; [done|]. simpl.
    apply step_exec_event in Hs. by rewrite Hs.
  - revert s. induction evs as [|e evs IH]; intros s; simpl.
    + intros [= ->]. constructor.
    + destruct (exec_event s e) as [s1|] eqn:E; simpl; [|done]. intros Hs.
      apply step_exec_event in E. econstructor; [exact E | by apply IH].
Qed.

(** Every step keeps [call_inv]: only the click and the completion of
    the call touch the loading flag, the result and the awaited call. *)
Lemma call_inv_step s e s' : call_inv s → step s e s' → call_inv s'.
Proof.
  intros (H1 & H4 & H5) Hs. destruct Hs;
    unfold handleDragEnter, handleDragLeave, handleDrop, handleFileSelect, handleRemoveClick,
      with_app, with_upload in *.
  - inv_simpl. inv_close.
  - inv_simpl. inv_close.
  - inv_simpl. inv_close.
  - destruct files as [|f files]; [inv_simpl; inv_close|]. unfold process_first, processFile_start.
    destruct (negb _); inv_simpl; inv_close.
  - destruct files as [|f files]; [inv_simpl; inv_close|]. unfold process_first, processFile_start.
    destruct (negb _); inv_simpl; inv_close.
  - unfold processFile_finish. destruct (extractTextFromFile file); inv_simpl; inv_close.
  - inv_simpl. inv_close.
  - unfold App.analyze_enabled in H. apply andb_prop in H as [[Hl%negb_true_iff _]%andb_prop _].
    unfold handleAnalyze_click, App.handleAnalyze_start.
    destruct (_ || _); inv_simpl; rewrite ?Hl; inv_close.
  - unfold handleAnalyze_done, App.handleAnalyze_finish.
    destruct (handle_response outcome) as [[out|]|e] eqn:E; inv_simpl; inv_close.
    intros a [= <-]. apply handle_response_Ok_inv in E as (out' & [= <-] & Ht). exact Ht.
Qed.

(** Every step keeps [parse_inv]: only [processFile] touches the parsing
    flag, the name shown and the awaited extraction. *)
Lemma parse_inv_step s e s' : parse_inv s → step s e s' → parse_inv s'.
Proof.
  intros (H2 & H3) Hs. destruct Hs;
    unfold handleDragEnter, handleDragLeave, handleDrop, handleFileSelect, handleRemoveClick,
      with_app, with_upload in *.
  - inv_simpl. inv_close.
  - inv_simpl. inv_close.
  - inv_simpl. inv_close.
  - destruct files as [|f files]; [inv_simpl; inv_close|]. unfold process_first, processFile_start.
    destruct (negb _); inv_simpl; inv_close.
  - destruct files as [|f files]; [inv_simpl; inv_close|]. unfold process_first, processFile_start.
    destruct (negb _); inv_simpl; inv_close.
  - unfold processFile_finish. destruct (extractTextFromFile file); inv_simpl; inv_close.
  - inv_simpl. inv_close.
  - unfold handleAnalyze_click, App.handleAnalyze_start. destruct (_ || _); inv_simpl; inv_close.
  - unfold handleAnalyze_done. inv_simpl. inv_close.
Qed.

Lemma call_inv_reachable s : reachable s → call_inv s.
Proof.
  intros (evs & Hstar). eapply (star_invariant step call_inv); [|exact Hstar|apply call_inv_initial].
  intros ? ? ?. apply call_inv_step.
Qed.

Lemma parse_inv_reachable s : reachable s → parse_inv s.
Proof.
  intros (evs & Hstar). eapply (star_invariant step parse_inv); [|exact Hstar|apply parse_inv_initial].
  intros ? ? ?. apply parse_inv_step.
Qed.

Lemma inv_reachable s : reachable s → inv s.
Proof. intros Hr. apply inv_parts_iff. split; [by apply call_inv_reachable | by apply parse_inv_reachable]. Qed.

(** C1: In every reachable session the loading flag is set exactly while
    a remote call is awaited, the parsing flag exactly while an
    extraction is awaited (and the name shown while parsing is that
    file's), no result is held while loading, and a held result is
    truthy. *)
Theorem reachable_inv s : reachable s → inv s.
Proof. apply inv_reachable. Qed.

Lemma flag_off_none {A} b (o : option A) : (b = true ↔ is_Some o) → b = false → o = None.
Proof. intros [_ H] ->. destruct o as [x|]; [|done]. assert (false = true) by (apply H; by eexists). done. Qed.

Lemma enabled_not_loading a : App.analyze_enabled a = true → App.isLoading a = false.
Proof. unfold App.analyze_enabled. by destruct (App.isLoading a). Qed.

Lemma dropzone_not_parsing s : upload_view s = FileUpload.DropZone → FileUpload.isParsing (upload s) = false.
Proof. unfold upload_view, FileUpload.view. by destruct (FileUpload.isParsing _). Qed.

(** C6: At most one remote call and at most one extraction are awaited at
    a time: in a reachable session the Analyze button can be clicked only
    when no call is awaited, and a file can be chosen or dropped only
    when no extraction is awaited. *)
Theorem single_flight s e s' :
  reachable s → step s e s' →
  (e = AnalyzeClicked → call_in_flight s = None) ∧
  (∀ files, e = FileSelected files ∨ e = Drop files → parse_in_flight s = None).
Proof.
  intros Hr Hs. destruct (inv_reachable s Hr) as (H1 & H2 & _).
  apply step_exec_event in Hs. split.
  - intros ->. simpl in Hs. destruct (App.analyze_enabled _) eqn:E; [|done].
    apply (flag_off_none _ _ H1), enabled_not_loading, E.
  - intros files [-> | ->]; simpl in Hs; case_decide as Hv; try done;
      apply (flag_off_none _ _ H2), dropzone_not_parsing, Hv.
Qed.

Lemma step_analyze_inv s s' :
  step s AnalyzeClicked s' →
  s' = handleAnalyze_click s ∧ str_truthy (App.cvText (app s)) = true ∧
  str_truthy (App.industry (app s)) = true ∧ App.isLoading (app s) = false.
Proof.
  intros Hs. apply step_exec_event in Hs. simpl in Hs.
  destruct (App.analyze_enabled (app s)) eqn:E; [|done]. injection Hs as <-.
  unfold App.analyze_enabled in E. rewrite !andb_true_iff, negb_true_iff in E. naive_solver.
Qed.

(** C5: A click on Analyze happens only with a non-empty CV text and a
    non-empty industry while nothing is loading; the industry is tested
    untrimmed, so a blank industry enables the button, and that click only
    shows the missing-input message.  Otherwise the click sends the
    request built from the CV text and the industry, sets the loading
    flag and clears the error, the result and the sources. *)
Theorem analyze_click s s' :
  step s AnalyzeClicked s' →
  str_truthy (App.cvText (app s)) = true ∧ str_truthy (App.industry (app s)) = true ∧
  App.isLoading (app s) = false ∧
  if bool_decide (all_ws (App.industry (app s))) then
    App.error (app s') = Some App.msg_missing_input ∧ call_in_flight s' = None ∧
    App.isLoading (app s') = false
  else
    call_in_flight s' = Some (analysis_request (buildPrompt (App.cvText (app s)) (App.industry (app s)))) ∧
    App.isLoading (app s') = true ∧ App.error (app s') = None ∧
    App.analysis (app s') = None ∧ App.sources (app s') = [].
Proof.
  intros (-> & Hc & Hi & Hl)%step_analyze_inv. do 3 (split; [done|]).
  unfold handleAnalyze_click, App.handleAnalyze_start. rewrite Hc. simpl.
  case_bool_decide as Hw.
  - rewrite (proj2 (trim_nil_iff _) Hw). simpl. by rewrite Hl.
  - rewrite (proj2 (str_truthy_trim_iff _) Hw). simpl. done.
Qed.

Lemma step_call_done_inv s o s' :
  step s (CallCompleted o) s' → s' = handleAnalyze_done o s ∧ is_Some (call_in_flight s).
Proof.
  intros Hs. apply step_exec_event in Hs. simpl in Hs.
  destruct (call_in_flight s); simpl in Hs; [|done]. injection Hs as <-. by split; [|eexists].
Qed.

(** C8: When the awaited call completes, the loading flag is cleared and
    the CV, industry and file name are kept; either the reply was
    accepted, and its analysis and sources replace the old ones while the
    error is left as it was, or it was rejected, and the failure message
    is shown with the old result kept.  There is no third outcome: the
    "analysis returned empty" branch of [handleAnalyze] is never taken. *)
Theorem call_completed s o s' :
  step s (CallCompleted o) s' →
  App.isLoading (app s') = false ∧ call_in_flight s' = None ∧
  App.cvText (app s') = App.cvText (app s) ∧ App.industry (app s') = App.industry (app s) ∧
  App.fileName (app s') = App.fileName (app s) ∧
  ((∃ out, handle_response o = Ok (Some out) ∧ App.analysis (app s') = Some (analysis out) ∧
           App.sources (app s') = sources out ∧ App.error (app s') = App.error (app s)) ∨
   (∃ e, handle_response o = Throw e ∧ App.error_banner (app s') = Some App.msg_analysis_failed ∧
         App.analysis (app s') = App.analysis (app s) ∧ App.sources (app s') = App.sources (app s))).
Proof.
  intros [-> _]%step_call_done_inv. unfold handleAnalyze_done, App.handleAnalyze_finish.
  destruct (handle_response o) as [o'|e] eqn:E.
  - destruct (handle_response_Ok_inv _ _ E) as (out & -> & _).
    cbn. split_and!; try done. left. by exists out.
  - cbn. split_and!; try done. right. by exists e.
Qed.

(** The state a fenced truthy reply leaves: its value and sources are
    held, and nothing is loading. *)
Lemma call_done_fenced_state s s' r v ws1 ws2 ws3 :
  step s (CallCompleted (Ok r)) s' →
  text r = Some (fence_json ++ ws1 ++ print v ++ ws2 ++ fence ++ ws3) →
  all_ws ws1 → all_json_ws ws2 → all_ws ws3 → json_truthy v = true →
  App.analysis (app s') = Some v ∧ App.sources (app s') = response_sources r ∧
  App.isLoading (app s') = false.
Proof.
  intros [-> _]%step_call_done_inv Ht H1 H2 H3 Hv.
  unfold handleAnalyze_done, App.handleAnalyze_finish.
  rewrite handle_response_Ok, Ht, parseAnalysisResponse_fenced, Hv by done.
  done.
Qed.

(** C19: A reply fenced as the prompt asks ([```json], the JSON text, then
    [```], with white space around the JSON) whose value is truthy ends,
    when it completes the awaited call, with that value and the reply's
    sources handed to the result view. *)
Theorem fenced_reply_displayed s s' r v ws1 ws2 ws3 :
  step s (CallCompleted (Ok r)) s' →
  text r = Some (fence_json ++ ws1 ++ print v ++ ws2 ++ fence ++ ws3) →
  all_ws ws1 → all_json_ws ws2 → all_ws ws3 → json_truthy v = true →
  App.results_view (app s') = Some (v, response_sources r).
Proof.
  intros Hs Ht H1 H2 H3 Hv. unfold App.results_view.
  destruct (call_done_fenced_state s s' r v ws1 ws2 ws3 Hs Ht H1 H2 H3 Hv) as (-> & -> & ->).
  cbn. by rewrite Hv.
Qed.

Lemma step_parse_done_inv s s' :
  step s ParseCompleted s' →
  ∃ file, parse_in_flight s = Some file ∧ s' = processFile_finish file (extractTextFromFile file) s.
Proof.
  intros Hs. apply step_exec_event in Hs. simpl in Hs.
  destruct (parse_in_flight s) as [file|]; simpl in Hs; [|done]. injection Hs as <-. by exists file.
Qed.

(** C18: When the awaited extraction completes, the parsing view is left
    and the awaited call is untouched; extracted text becomes the CV and
    the file's name is shown with the error cleared, and a failure shows
    the error's message (or the fallback for a non-[Error] value) and
    removes the CV, so the drop zone is shown again. *)
Theorem parse_completed s s' :
  step s ParseCompleted s' →
  ∃ file, parse_in_flight s = Some file ∧
  FileUpload.isParsing (upload s') = false ∧ parse_in_flight s' = None ∧
  call_in_flight s' = call_in_flight s ∧
  match extractTextFromFile file with
  | Ok t => App.cvText (app s') = t ∧ App.fileName (app s') = Some (name file) ∧
            App.error (app s') = None
  | Throw e => App.cvText (app s') = [] ∧ App.fileName (app s') = None ∧
               App.error (app s') = Some (FileUpload.error_message e) ∧
               upload_view s' = FileUpload.DropZone
  end.
Proof.
  intros (file & Hf & ->)%step_parse_done_inv. exists file. split; [done|].
  unfold processFile_finish. destruct (extractTextFromFile file); cbn; split_and!; done.
Qed.

Lemma reachable_trace evs s : exec_trace initial evs = Some s → reachable s.
Proof. intros H. exists evs. by apply star_exec_trace. Qed.

End StepsProps.

(** ** Concrete sessions

    A browser whose [FileReader] decodes each byte as one code unit and
    whose pdf.js rejects every document; the files are plain-text CVs, a
    PDF and a PNG image. *)
Definition demo_platform : Platform := {|
  read_as_text f := Some (map (λ b, N.of_nat (Byte.to_nat b)) (bytes f));
  array_buffer f := Ok (bytes f);
  pdf_doc := unit;
  pdf_page := unit;
  get_document _ := throw_msg ‹"Invalid PDF structure."›;
  num_pages _ := 0;
  get_page _ _ := Ok tt;
  get_text_content _ := Ok [] |}.
#[local] Existing Instance demo_platform.

Definition txt_file (n content : string) : File :=
  mkFile (js n) mime_text_plain (list_byte_of_string content).

Definition cv_a : File := txt_file "cv_a.txt" "Backend engineer, 5 years of Go.".
Definition cv_b : File := txt_file "cv_b.txt" "Nurse, 3 years in Lagos.".
Definition broken_pdf : File := mkFile ‹"cv.pdf"› mime_pdf (list_byte_of_string "%PDF-1.4").
Definition photo : File := mkFile ‹"photo.png"› ‹"image/png"› [].
Definition field : jstr := ‹"Software Engineering"›.

(** The reply the prompt asks for: the sample analysis between fences. *)
Definition good_reply : GenerateContentResponse :=
  sample_response (Some (fence_json ++ nl ++ print sample_analysis ++ nl ++ fence)).

Definition from_trace (evs : list Event) : Session := default initial (exec_trace initial evs).

(** The industry is entered and a CV is uploaded and read. *)
Definition ready_trace : list Event := [IndustryChanged field; FileSelected [cv_a]; ParseCompleted].
Definition pending_trace : list Event := ready_trace ++ [AnalyzeClicked].

Lemma reachable_ready : reachable (from_trace ready_trace).
Proof. apply (reachable_trace ready_trace). vm_compute. reflexivity. Qed.

Lemma reachable_pending : reachable (from_trace pending_trace).
Proof. apply (reachable_trace pending_trace). vm_compute. reflexivity. Qed.

Lemma reachable_inv_witness : inv (from_trace pending_trace).
Proof. apply reachable_inv. exact reachable_pending. Defined.

Lemma single_flight_witness : call_in_flight (from_trace ready_trace) = None.
Proof.
  apply (proj1 (single_flight (from_trace ready_trace) AnalyzeClicked
                  (handleAnalyze_click (from_trace ready_trace)) reachable_ready
                  ltac:(apply step_exec_event; vm_compute; reflexivity))).
  reflexivity.
Defined.

(** Scenario: a blank industry enables the button; the click only shows
    the missing-input message. *)
Lemma analyze_click_witness :
  App.error (app (handleAnalyze_click (from_trace [IndustryChanged ‹"   "›; FileSelected [cv_a]; ParseCompleted])))
  = Some App.msg_missing_input.
Proof.
  pose proof (analyze_click (from_trace [IndustryChanged ‹"   "›; FileSelected [cv_a]; ParseCompleted]) _
                ltac:(apply step_exec_event; vm_compute; reflexivity)) as H.
  revert H. vm_compute. intros (_ & _ & _ & H & _). exact H.
Defined.

(** Scenario: the network fails; the file stays and the failure is shown. *)
Lemma call_completed_witness :
  let s' := handleAnalyze_done (throw_msg ‹"Failed to fetch"›) (from_trace pending_trace) in
  App.error_banner (app s') = Some App.msg_analysis_failed ∧
  App.fileName (app s') = App.fileName (app (from_trace pending_trace)).
Proof.
  destruct (call_completed (from_trace pending_trace) (throw_msg ‹"Failed to fetch"›) _
              ltac:(apply step_exec_event; vm_compute; reflexivity))
    as (_ & _ & _ & _ & Hf & [(out & Hout & _) | (e & _ & Hb & _)]).
  - discriminate Hout.
  - split; [exact Hb | exact Hf].
Defined.

(** Scenario: the reply is fenced as the prompt asks; the analysis is shown. *)
Lemma fenced_reply_displayed_witness :
  App.results_view (app (handleAnalyze_done (Ok good_reply) (from_trace pending_trace)))
  = Some (sample_analysis, response_sources good_reply).
Proof.
  apply (fenced_reply_displayed (from_trace pending_trace) _ good_reply sample_analysis nl nl []).
  - apply step_exec_event. vm_compute. reflexivity.
  - vm_compute. reflexivity.
  - repeat constructor.
  - repeat constructor.
  - constructor.
  - reflexivity.
Defined.

(** Scenario: a PDF that pdf.js cannot parse; the generic message is
    shown and the drop zone returns. *)
Lemma parse_completed_witness :
  let s' := from_trace [IndustryChanged field; FileSelected [broken_pdf]; ParseCompleted] in
  App.error (app s') = Some msg_pdf_corrupt ∧ upload_view s' = FileUpload.DropZone.
Proof.
  destruct (parse_completed (from_trace [IndustryChanged field; FileSelected [broken_pdf]])
              (from_trace [IndustryChanged field; FileSelected [broken_pdf]; ParseCompleted])
              ltac:(apply step_exec_event; vm_compute; reflexivity))
    as (file & Hf & _ & _ & _ & Hm).
  vm_compute in Hf. injection Hf as <-. revert Hm. vm_compute.
  intros (_ & _ & H1 & H2). split; [exact H1 | exact H2].
Defined.

(** ** Departures from the specification *)

(** C17: The specification promises that a result is shown only when there
    is no error; a session shows the result view and an error banner at
    once: after a successful analysis the user removes the file and picks
    a PNG image, and the type error is shown above the old result. *)
Theorem result_with_error_reachable :
  ∃ s, reachable s ∧ App.results_view (app s) ≠ None ∧
       App.error_banner (app s) = Some FileUpload.msg_type_not_supported.
Proof.
  exists (from_trace (pending_trace ++ [CallCompleted (Ok good_reply); RemoveClicked; FileSelected [photo]])).
  split_and!.
  - apply (reachable_trace (pending_trace ++ [CallCompleted (Ok good_reply); RemoveClicked; FileSelected [photo]])).
    vm_compute. reflexivity.
  - neq_by_compute.
  - vm_compute. reflexivity.
Qed.

(** C15: The file input is not disabled while an analysis is awaited, so the
    CV can be replaced before the reply arrives, and the reply is then
    shown beside the new CV: from a reachable session awaiting the request
    built from one CV, four events lead to a session whose CV differs and
    whose result view shows the reply to the old request. *)
Theorem stale_result_reachable :
  ∃ s0 s, reachable s0 ∧
    call_in_flight s0 = Some (analysis_request (buildPrompt (App.cvText (app s0)) field)) ∧
    star step s0 [RemoveClicked; FileSelected [cv_b]; ParseCompleted; CallCompleted (Ok good_reply)] s ∧
    App.cvText (app s) ≠ App.cvText (app s0) ∧ App.fileName (app s) = Some (name cv_b) ∧
    App.results_view (app s) = Some (sample_analysis, response_sources good_reply).
Proof.
  exists (from_trace pending_trace),
    (from_trace (pending_trace ++ [RemoveClicked; FileSelected [cv_b]; ParseCompleted;
                                   CallCompleted (Ok good_reply)])).
  split_and!.
  - exact reachable_pending.
  - vm_compute. reflexivity.
  - apply star_exec_trace. vm_compute. reflexivity.
  - neq_by_compute.
  - vm_compute. reflexivity.
  - vm_compute. reflexivity.
Qed.
