(* ===== verification/Workflow.v ===== *)
(** * The analysis workflow the controller implements

    The specification describes the controller as a small state machine:
    idle, then file-ready once extracted text is present, loading while a
    call is awaited, and success (a result) or failure when it ends.
    This file states that machine as an abstract transition system over
    what a user can observe of it (the CV text held, the loading flag and
    the result) and shows that the session of [App] refines it: every
    step of a reachable session either leaves the abstract state alone
    or is one abstract transition. *)

From Stdlib Require Import NArith ZArith String.
From stdpp Require Import base list options decidable numbers.
From S2P Require Import Prelude JsString FileParser Json GeminiService App.

Local Open Scope js_scope.

(** ** The abstract workflow *)

Record Workflow := mkWorkflow {
  (** the CV text held, when there is one *)
  wf_cv : option jstr;
  wf_loading : bool;
  wf_result : option json
}.

Inductive wf_step : Workflow → Workflow → Prop :=
(** a file is read: its (non-empty) text is held *)
| wf_load w t :
    str_truthy t = true → wf_step w (mkWorkflow (Some t) (wf_loading w) (wf_result w))
(** the file is removed, or reading it failed *)
| wf_unload w : wf_step w (mkWorkflow None (wf_loading w) (wf_result w))
(** an analysis starts: only with a text and nothing pending; the old
    result is discarded *)
| wf_start t r : wf_step (mkWorkflow (Some t) false r) (mkWorkflow (Some t) true None)
(** the analysis succeeds with a truthy result *)
| wf_success c v :
    json_truthy v = true → wf_step (mkWorkflow c true None) (mkWorkflow c false (Some v))
(** the analysis fails *)
| wf_failure c r : wf_step (mkWorkflow c true r) (mkWorkflow c false r).

(** ** The abstraction of a session *)

Definition abstract (s : Session) : Workflow :=
  mkWorkflow (if str_truthy (App.cvText (app s)) then Some (App.cvText (app s)) else None)
    (App.isLoading (app s)) (App.analysis (app s)).

(** ** Lemmas *)

(** A change of the CV text alone is a load or an unload. *)
Lemma abstract_cv_change s s' :
  App.isLoading (app s') = App.isLoading (app s) → App.analysis (app s') = App.analysis (app s) →
  abstract s' = abstract s ∨ wf_step (abstract s) (abstract s').
Proof.
  intros Hl Ha. right. unfold abstract. rewrite Hl, Ha.
  destruct (str_truthy (App.cvText (app s'))) eqn:E.
  - by apply (wf_load (abstract s)).
  - apply (wf_unload (abstract s)).
Qed.

(** Starting to read a file, or refusing its type, keeps the text held,
    the loading flag and the result. *)
Lemma abstract_process_first files s : abstract (process_first files s) = abstract s.
Proof. destruct files as [|f files]; [done|]. unfold process_first, processFile_start. by destruct (negb _). Qed.

Section Refinement.
Context {P : Platform}.

Lemma abstract_step s e s' :
  call_inv s → step s e s' → abstract s' = abstract s ∨ wf_step (abstract s) (abstract s').
Proof.
  intros (H1 & H4 & _) Hs. destruct Hs; try by left.
  1,2: left; unfold handleDrop, handleFileSelect; rewrite abstract_process_first; reflexivity.
  - apply abstract_cv_change; unfold processFile_finish; by destruct (extractTextFromFile file).
  - by apply abstract_cv_change.
  - unfold App.analyze_enabled in H. apply andb_prop in H as [[Hl Hc]%andb_prop _].
    apply negb_true_iff in Hl. unfold handleAnalyze_click, App.handleAnalyze_start.
    rewrite Hc. simpl. destruct (str_truthy (trim _)); simpl; [right | by left].
    unfold abstract; simpl. rewrite Hc, Hl. apply wf_start.
  - assert (Hl : App.isLoading (app s) = true) by (apply H1; by eexists).
    right. unfold abstract, handleAnalyze_done, App.handleAnalyze_finish; simpl.
    destruct (handle_response outcome) as [o|err] eqn:E; simpl.
    + destruct (handle_response_Ok_inv _ _ E) as (out & -> & Ht). simpl.
      rewrite Hl, (proj1 (H4 Hl)). by apply wf_success.
    + rewrite Hl. apply wf_failure.
Qed.

(** C11: The session refines the specification's workflow: every step of a
    reachable session either leaves the abstract state (the CV text held,
    the loading flag, the result) unchanged or is one workflow
    transition: a non-empty text is loaded or the text is dropped, an
    analysis starts only with a text and nothing pending and discards the
    old result, and a pending analysis ends in a truthy result or in
    failure with the old result kept. *)
Theorem session_refines_workflow s e s' :
  reachable s → step s e s' →
  abstract s' = abstract s ∨ wf_step (abstract s) (abstract s').
Proof. intros Hr. apply abstract_step, call_inv_reachable, Hr. Qed.

End Refinement.

(** ** Concrete runs *)

#[local] Existing Instance demo_platform.

Lemma session_refines_workflow_witness :
  wf_step (abstract (from_trace ready_trace)) (abstract (handleAnalyze_click (from_trace ready_trace))).
Proof.
  destruct (session_refines_workflow (from_trace ready_trace) AnalyzeClicked
              (handleAnalyze_click (from_trace ready_trace)) reachable_ready
              ltac:(apply step_exec_event; vm_compute; reflexivity)) as [Heq|Hw].
  - vm_compute in Heq. discriminate Heq.
  - exact Hw.
Defined.
