(* ===== verification/Display.v ===== *)
(** * Result presentation: src/components/AnalysisDisplay.tsx and its charts

    [AnalysisDisplay] receives the parsed reply exactly as [JSON.parse]
    built it (the cast to [AnalysisResult] checks nothing) and reads its
    fields with JavaScript's property access, relational comparison and
    template literals; [RadialProgress] and [ScoreBar] render the scores.
    A render either yields the view (what each part shows, in order) or
    throws, and since no error boundary is installed a throw unmounts the
    whole page.  The JavaScript operations are modelled after ECMA-262 on
    the values a JSON text can denote: [get] for property access,
    [ToNumber] with [StringToNumber] for [>=] and [>], the
    [OrdinaryToPrimitive] of a parsed object (which throws when an own
    member named [toString] shadows the inherited method), and React's
    rule that an object is not a valid child.  Numbers are exact (the
    rounding to binary64 is not modelled).  Here [RadialProgress] and the
    bar width are modelled by the conversions that can throw; the ring's
    geometry is in [Charts]. *)

From Stdlib Require Import NArith ZArith String Lia.
From stdpp Require Import base list options decidable numbers.
From S2P Require Import Prelude JsString Json GeminiService App.

Local Open Scope js_scope.

(** ** JavaScript values and property access *)

(** A value the component reads: one a JSON text denotes, or [undefined]. *)
Inductive jsval := JSV (v : json) | Undefined.

Definition jsval_truthy (x : jsval) : bool :=
  match x with JSV v => json_truthy v | Undefined => false end.

(** The value of member [k]: [JSON.parse] defines the members in order,
    so a later duplicate key overwrites an earlier one. *)
Fixpoint member (k : jstr) (ms : list (jstr * json)) : option json :=
  match ms with
  | [] => None
  | (k', v) :: ms' =>
      match member k ms' with
      | Some w => Some w
      | None => if jstr_eqb k k' then Some v else None
      end
  end.

Definition has_own (k : jstr) (ms : list (jstr * json)) : bool :=
  existsb (λ kv, jstr_eqb kv.1 k) ms.

(** A canonical array index below [n]: "0" or decimal digits without a
    leading zero. *)
Definition index_below (k : jstr) (n : nat) : option nat :=
  match k with
  | [] => None
  | c :: r =>
      if (c =? 48)%N && bool_decide (r ≠ []) then None
      else if forallb is_digit k && (digits_value k <? Z.of_nat n)%Z
      then Some (Z.to_nat (digits_value k)) else None
  end.

Definition key_length : jstr := ‹"length"›.

(** [o.k]: [None] is the [TypeError] of reading a property of [null] or
    [undefined].  Besides [length] and indices, the keys the component
    reads ([overallScore], [summary], [keyImprovement],
    [scoreBreakdown], [trends], [area], [score], [feedback]) name no
    inherited member, so they read own members or [undefined]. *)
Definition get (o : jsval) (k : jstr) : option jsval :=
  match o with
  | Undefined | JSV JNull => None
  | JSV (JBool _) | JSV (JNum _ _) => Some Undefined
  | JSV (JStr s) =>
      Some (if jstr_eqb k key_length then JSV (JNum (Z.of_nat (length s)) 0)
            else match index_below k (length s) with
                 | Some i => JSV (JStr (take 1 (drop i s)))
                 | None => Undefined
                 end)
  | JSV (JArr l) =>
      Some (if jstr_eqb k key_length then JSV (JNum (Z.of_nat (length l)) 0)
            else match index_below k (length l) ≫= (l !!.) with
                 | Some v => JSV v
                 | None => Undefined
                 end)
  | JSV (JObj ms) => Some (match member k ms with Some v => JSV v | None => Undefined end)
  end.

(** [x.map(f)]: only an array has a callable [map]; anything else throws. *)
Definition map_array (x : jsval) : option (list json) :=
  match x with JSV (JArr l) => Some l | _ => None end.

(** ** Numbers *)

(** A number as [ToNumber] yields it, kept exact: [Fin m e] is m·10^e. *)
Inductive number := NaN | PosInf | NegInf | Fin (m e : Z).

Definition negate (n : number) : number :=
  match n with
  | NaN => NaN | PosInf => NegInf | NegInf => PosInf | Fin m e => Fin (- m) e
  end.

(** [SignedInteger] of an [ExponentPart]. *)
Definition str_exponent (s : jstr) : option Z :=
  let '(neg, r) := match s with
                   | c :: r => if (c =? 43)%N then (false, r)
                               else if (c =? 45)%N then (true, r) else (false, s)
                   | [] => (false, s)
                   end in
  if bool_decide (r ≠ []) && forallb is_digit r
  then Some (if neg then (- digits_value r)%Z else digits_value r) else None.

(** [StrUnsignedDecimalLiteral]: [Infinity], or digits with an optional
    fraction (one side of the dot may be empty, not both) and an optional
    exponent. *)
Definition str_unsigned_decimal (s : jstr) : option number :=
  if jstr_eqb s ‹"Infinity"› then Some PosInf else
  let '(int, r1) := span_digits s in
  let '(frac, r2) := match r1 with
                      | c :: r => if (c =? 46)%N then span_digits r else ([], r1)
                      | [] => ([], r1)
                      end in
  if bool_decide (int = [] ∧ frac = []) then None else
  ex ← match r2 with
       | [] => Some 0%Z
       | c :: r => if (c =? 101)%N || (c =? 69)%N then str_exponent r else None
       end;
  Some (Fin (digits_value (int ++ frac)) (ex - Z.of_nat (length frac))).

Definition radix_digit (b : Z) (c : N) : option Z :=
  d ← hex_value c; if (Z.of_N d <? b)%Z then Some (Z.of_N d) else None.

Fixpoint radix_value (b acc : Z) (s : jstr) : option Z :=
  match s with
  | [] => Some acc
  | c :: r => d ← radix_digit b c; radix_value b (acc * b + d)%Z r
  end.

(** [NonDecimalIntegerLiteral]: 0x, 0o or 0b (either case) and digits. *)
Definition str_non_decimal (s : jstr) : option number :=
  match s with
  | z :: x :: ((_ :: _) as ds) =>
      if (z =? 48)%N then
        b ← (if (x =? 120)%N || (x =? 88)%N then Some 16%Z
             else if (x =? 111)%N || (x =? 79)%N then Some 8%Z
             else if (x =? 98)%N || (x =? 66)%N then Some 2%Z else None);
        v ← radix_value b 0 ds; Some (Fin v 0)
      else None
  | _ => None
  end.

(** [StringToNumber]: the white space [trim] removes is [StrWhiteSpace];
    the empty text is 0; anything outside the grammar is NaN. *)
Definition StringToNumber (str : jstr) : number :=
  let t := trim str in
  match t with
  | [] => Fin 0 0
  | c :: r =>
      match str_non_decimal t with
      | Some n => n
      | None =>
          if (c =? 43)%N then default NaN (str_unsigned_decimal r)
          else if (c =? 45)%N then default NaN (negate <$> str_unsigned_decimal r)
          else default NaN (str_unsigned_decimal t)
      end
  end.

(** [ToString] of a parsed value throws only for an object with an own
    [toString] member (not callable, it shadows the inherited method, and
    the inherited [valueOf] returns the object), or an array holding one. *)
Fixpoint text_throws (v : json) : bool :=
  match v with
  | JArr l => (fix go (l : list json) : bool :=
                 match l with [] => false | x :: r => text_throws x || go r end) l
  | JObj ms => has_own ‹"toString"› ms
  | _ => false
  end.

(** [ToNumber] of the text [Array.prototype.join] writes for an element
    ([null] is written as the empty text); for strings, numbers, arrays
    and objects it is also [ToNumber] of the value itself.  An array of
    two or more elements has a comma in its text, which no numeric
    literal contains. *)
Fixpoint element_number (v : json) : option number :=
  match v with
  | JNull => Some (Fin 0 0)
  | JBool _ => Some NaN
  | JNum m e => Some (Fin m e)
  | JStr s => Some (StringToNumber s)
  | JArr [] => Some (Fin 0 0)
  | JArr [x] => element_number x
  | JArr l => if text_throws (JArr l) then None else Some NaN
  | JObj ms => if has_own ‹"toString"› ms then None else Some NaN
  end.

(** [ToNumber] with its [ToPrimitive]; [None] is the [TypeError]. *)
Definition ToNumber (x : jsval) : option number :=
  match x with
  | Undefined => Some NaN
  | JSV JNull => Some (Fin 0 0)
  | JSV (JBool b) => Some (Fin (Z.b2z b) 0)
  | JSV v => element_number v
  end.

(** [n >= k] and [n > k] for an integer literal [k]; NaN compares false. *)
Definition ge_int (n : number) (k : Z) : bool :=
  match n with
  | NaN | NegInf => false
  | PosInf => true
  | Fin m e => if (0 <=? e)%Z then (k <=? m * 10 ^ e)%Z else (k * 10 ^ (- e) <=? m)%Z
  end.

Definition gt_int (n : number) (k : Z) : bool :=
  match n with
  | NaN | NegInf => false
  | PosInf => true
  | Fin m e => if (0 <=? e)%Z then (k <? m * 10 ^ e)%Z else (k * 10 ^ (- e) <? m)%Z
  end.

(** ** The component *)

(** The colours of [getScoreColor] ([NIGERIAN_GREEN] comes from
    [constants.ts], which the repository does not contain). *)
Inductive Color := NIGERIAN_GREEN | Amber | Red.

Definition getScoreColor (score : jsval) : option Color :=
  n ← ToNumber score;
  Some (if ge_int n 80 then NIGERIAN_GREEN else if ge_int n 50 then Amber else Red).

(** React renders strings, numbers, booleans, [null], [undefined] and
    arrays of such children; an object child throws. *)
Fixpoint renderable (v : json) : bool :=
  match v with
  | JArr l => (fix go (l : list json) : bool :=
                 match l with [] => true | x :: r => renderable x && go r end) l
  | JObj _ => false
  | _ => true
  end.

Definition child_ok (x : jsval) : bool :=
  match x with JSV v => renderable v | Undefined => true end.

(** A template literal [`${x}`] throws as [ToString] does. *)
Definition template_ok (x : jsval) : bool :=
  match x with JSV v => negb (text_throws v) | Undefined => true end.

Definition guard (b : bool) : option unit := if b then Some () else None.

Record BarView := mkBar {
  bar_area : jsval; bar_score : jsval; bar_feedback : jsval; bar_color : Color
}.

Record DisplayView := mkDisplay {
  overall : jsval;
  overall_color : Color;
  summary_text : jsval;
  improvement_text : jsval;
  bars : list BarView;
  (** [None]: the trends section is not rendered *)
  trend_items : option (list json);
  (** [None]: the sources section is not rendered; each link is its
      [href] and its text *)
  links : option (list (option jstr * option jstr))
}.

(** One [<ScoreBar .../>] element of [scoreBreakdown.map]. *)
Definition score_bar (item : json) : option BarView :=
  area ← get (JSV item) ‹"area"›;
  score ← get (JSV item) ‹"score"›;
  feedback ← get (JSV item) ‹"feedback"›;
  color ← getScoreColor score;
  Some (mkBar area score feedback color).

(** The render of [ScoreBar]: its children and the width [`${score}%`]. *)
Definition ScoreBar (b : BarView) : option unit :=
  guard (child_ok (bar_area b) && child_ok (bar_score b) && template_ok (bar_score b) &&
         child_ok (bar_feedback b)).

(** The render of [RadialProgress]: [score / 100] and the child [{score}]. *)
Definition RadialProgress (score : jsval) : option unit :=
  _ ← ToNumber score; guard (child_ok score).

(** [href={source.web.uri}] and [{source.web.title || source.web.uri}];
    a chunk without [web] throws. *)
Definition source_link (c : GroundingChunk) : option (option jstr * option jstr) :=
  w ← web c; Some (uri w, if opt_str_truthy (title w) then title w else uri w).

Definition AnalysisDisplay (analysis : json) (sources : list GroundingChunk) : option DisplayView :=
  let a := JSV analysis in
  overallScore ← get a ‹"overallScore"›;
  scoreColor ← getScoreColor overallScore;
  summary ← get a ‹"summary"›;
  keyImprovement ← get a ‹"keyImprovement"›;
  breakdown ← get a ‹"scoreBreakdown"›;
  items ← map_array breakdown;
  bars ← mapM score_bar items;
  trends ← get a ‹"trends"›;
  shown ← (if jsval_truthy trends then
             len ← get trends key_length; n ← ToNumber len;
             if gt_int n 0 then Some <$> map_array trends else Some None
           else Some None);
  links ← (if bool_decide (sources ≠ []) then Some <$> mapM source_link sources else Some None);
  _ ← RadialProgress overallScore;
  _ ← guard (child_ok summary && child_ok keyImprovement);
  _ ← mapM ScoreBar bars;
  _ ← guard (from_option (forallb (λ t, child_ok (JSV t))) true shown);
  Some (mkDisplay overallScore scoreColor summary keyImprovement bars shown links).

(** ** The documented shape of a reply (src/types.ts) *)

Record ScoreBreakdown := mkBreakdown { area : jstr; score : Z; feedback : jstr }.

Record AnalysisResult := mkResult {
  overallScore : Z;
  scoreBreakdown : list ScoreBreakdown;
  summary : jstr;
  keyImprovement : jstr;
  trends : list jstr
}.

Definition breakdown_json (b : ScoreBreakdown) : json :=
  JObj [(‹"area"›, JStr (area b)); (‹"score"›, JNum (score b) 0); (‹"feedback"›, JStr (feedback b))].

(** The JSON value of a reply of the documented shape, members in the
    order of the prompt's example. *)
Definition result_json (r : AnalysisResult) : json :=
  JObj [(‹"trends"›, JArr (map JStr (trends r)));
        (‹"overallScore"›, JNum (overallScore r) 0);
        (‹"scoreBreakdown"›, JArr (map breakdown_json (scoreBreakdown r)));
        (‹"summary"›, JStr (summary r));
        (‹"keyImprovement"›, JStr (keyImprovement r))].

(** The colour of an integer score. *)
Definition score_color (z : Z) : Color :=
  if (80 <=? z)%Z then NIGERIAN_GREEN else if (50 <=? z)%Z then Amber else Red.

Definition bar_of (b : ScoreBreakdown) : BarView :=
  mkBar (JSV (JStr (area b))) (JSV (JNum (score b) 0)) (JSV (JStr (feedback b))) (score_color (score b)).

Definition link_of (w : Web) : option jstr * option jstr :=
  (uri w, if opt_str_truthy (title w) then title w else uri w).

(** What the page shows for a reply of the documented shape with the
    web sources [ws]: its fields in order, the trends section when there
    are trends, the sources section when there are sources. *)
Definition conforming_view (r : AnalysisResult) (ws : list Web) : DisplayView :=
  mkDisplay (JSV (JNum (overallScore r) 0)) (score_color (overallScore r))
    (JSV (JStr (summary r))) (JSV (JStr (keyImprovement r)))
    (map bar_of (scoreBreakdown r))
    (if bool_decide (trends r = []) then None else Some (map JStr (trends r)))
    (if bool_decide (ws = []) then None else Some (map link_of ws)).

(** ** Lemmas *)

Lemma getScoreColor_int z : getScoreColor (JSV (JNum z 0)) = Some (score_color z).
Proof. unfold getScoreColor, score_color. simpl. by rewrite Z.mul_1_r. Qed.

Lemma score_bar_breakdown b : score_bar (breakdown_json b) = Some (bar_of b).
Proof. unfold score_bar. simpl. by rewrite Z.mul_1_r. Qed.

Lemma ScoreBar_bar_of b : ScoreBar (bar_of b) = Some ().
Proof. done. Qed.

Lemma source_link_web w : source_link (mkChunk (Some w)) = Some (link_of w).
Proof. done. Qed.

Lemma forallb_renderable_str ts : forallb renderable (map JStr ts) = true.
Proof. by induction ts. Qed.

(** The render of a reply of the documented shape, computed. *)
Lemma AnalysisDisplay_result_json r ws :
  AnalysisDisplay (result_json r) (map (λ w, mkChunk (Some w)) ws) =
  Some (conforming_view r ws).
Proof.
  unfold conforming_view.
  unfold AnalysisDisplay. simpl.
  rewrite (mapM_map_Some _ _ bar_of) by apply score_bar_breakdown. simpl.
  rewrite (mapM_map_Some _ _ (λ _, ())) by (intros; reflexivity).
  rewrite (mapM_map_Some _ _ link_of) by (intros; reflexivity).
  rewrite Z.pow_0_r, Z.mul_1_r, length_map.
  destruct (trends r) as [|t ts], ws as [|w ws]; simpl; rewrite ?forallb_renderable_str; reflexivity.
Qed.

(** C7: A reply of the documented shape renders without throwing, and the
    page shows its overall score with the colour of its band (green from
    80, amber from 50, red below), the summary, the key improvement, one
    bar per breakdown entry in order with its area, score, feedback and
    colour, the trends section exactly when there are trends, and one link
    per grounding source (its title, or its URI when the title is empty). *)
Theorem display_conforming r ws :
  AnalysisDisplay (result_json r) (map (λ w, mkChunk (Some w)) ws) =
  Some (conforming_view r ws).
Proof. apply AnalysisDisplay_result_json. Qed.

Lemma is_digit_neq d k : is_digit d = true → (k < 48 ∨ 57 < k)%N → (d =? k)%N = false.
Proof.
  unfold is_digit. intros H Hk. apply N.eqb_neq.
  apply andb_true_iff in H as [H1 H2]. apply N.leb_le in H1, H2. lia.
Qed.

Lemma all_digits_forallb ds : all_digits ds → forallb is_digit ds = true.
Proof. induction 1 as [|d ds Hd _ IH]; simpl; [done|]. by rewrite Hd, IH. Qed.

Lemma str_exponent_print_int e : str_exponent (print_int e) = Some e.
Proof.
  unfold print_int, str_exponent. destruct (n_digits_spec (Z.abs_N e)) as (d & ds & Hn & Hdig & Hv & _).
  rewrite Hn. pose proof (Forall_inv Hdig) as Hd. simpl in Hd.
  destruct (Z.ltb_spec e 0); simpl; [|rewrite !(is_digit_neq d) by (done || lia); simpl];
    rewrite Hd, (all_digits_forallb ds) by (by inversion Hdig); simpl; f_equal; lia.
Qed.

Lemma str_unsigned_decimal_digits n e :
  str_unsigned_decimal (n_digits n ++ (if (e =? 0)%Z then [] else [ch "e"] ++ print_int e))
  = Some (Fin (Z.of_N n) e).
Proof.
  destruct (n_digits_spec n) as (d & ds & Hn & Hdig & Hv & _). rewrite Hn.
  pose proof (Forall_inv Hdig) as Hd. simpl in Hd. unfold str_unsigned_decimal.
  rewrite span_digits_app
    by (done || (destruct (e =? 0)%Z; intros c r Hcr; [done | by injection Hcr as <- _])).
  assert (Hinf : ∀ s, jstr_eqb ((d :: ds) ++ s) ‹"Infinity"› = false).
  { intros s. change ‹"Infinity"› with (73%N :: js "nfinity"). simpl.
    by rewrite (is_digit_neq d) by (done || lia). }
  rewrite Hinf. destruct (Z.eqb_spec e 0) as [->|He]; simpl; rewrite app_nil_r, Hv.
  - done.
  - rewrite str_exponent_print_int. simpl. f_equal. f_equal. lia.
Qed.

Lemma ends_non_ws_last s b : list.last s = Some b → is_ws b = false → ends_non_ws s.
Proof.
  intros Hl Hb. apply last_Some in Hl as (s' & ->).
  unfold ends_non_ws. by rewrite rev_app_distr.
Qed.

Lemma str_non_decimal_head z r : (z =? 48)%N = false → str_non_decimal (z :: r) = None.
Proof. intros Hz. destruct r as [|x [|y r]]; simpl; rewrite ?Hz; done. Qed.

Lemma str_non_decimal_print_number m e : str_non_decimal (print_number m e) = None.
Proof.
  unfold print_number, print_int. destruct (Z.ltb_spec m 0).
  - by apply str_non_decimal_head.
  - destruct (decide (m = 0%Z)) as [->|Hm].
    + change (n_digits (Z.abs_N 0)) with [48%N].
      destruct (e =? 0)%Z; [reflexivity|]. destruct (_ ++ n_digits (Z.abs_N e)); reflexivity.
    + destruct (n_digits_spec (Z.abs_N m)) as (d & ds & Hn & _ & _ & Hz). rewrite Hn.
      apply str_non_decimal_head, N.eqb_neq, Hz. lia.
Qed.

Lemma ToNumber_str s : ToNumber (JSV (JStr s)) = Some (StringToNumber s).
Proof. done. Qed.

Lemma StringToNumber_neg t r :
  trim t = 45%N :: r → str_non_decimal (45%N :: r) = None →
  StringToNumber t = default NaN (negate <$> str_unsigned_decimal r).
Proof. intros Ht Hn. unfold StringToNumber. by rewrite Ht, Hn. Qed.

Lemma StringToNumber_plain t c r :
  trim t = c :: r → str_non_decimal (c :: r) = None → (c =? 43)%N = false → (c =? 45)%N = false →
  StringToNumber t = default NaN (str_unsigned_decimal (c :: r)).
Proof. intros Ht Hn H1 H2. unfold StringToNumber. by rewrite Ht, Hn, H1, H2. Qed.

Lemma StringToNumber_print_number ws1 m e ws2 :
  all_ws ws1 → all_ws ws2 → StringToNumber (ws1 ++ print_number m e ++ ws2) = Fin m e.
Proof.
  intros H1 H2. destruct (print_last (JNum m e)) as (b & Hb & Hws & _).
  assert (Ht : trim (ws1 ++ print_number m e ++ ws2) = print_number m e).
  { apply trim_pad; [done|done| |apply (print_starts_non_ws (JNum m e))|].
    - intros Hp. cbn in Hb. by rewrite Hp in Hb.
    - by apply (ends_non_ws_last _ b). }
  pose proof (str_non_decimal_print_number m e) as Hnd.
  pose proof (str_unsigned_decimal_digits (Z.abs_N m) e) as Hsu.
  revert Ht Hnd Hsu. unfold print_number.
  remember (if (e =? 0)%Z then [] else [ch "e"] ++ print_int e) as X eqn:HX.
  unfold print_int. intros Ht Hnd Hsu. destruct (m <? 0)%Z eqn:Hm; [apply Z.ltb_lt in Hm | apply Z.ltb_ge in Hm].
  - rewrite (StringToNumber_neg _ (n_digits (Z.abs_N m) ++ X)), Hsu by (rewrite ?Ht; done).
    simpl. f_equal. lia.
  - destruct (n_digits_spec (Z.abs_N m)) as (d & ds & Hn & Hdig & _).
    pose proof (Forall_inv Hdig) as Hd. rewrite Hn in *. change ((d :: ds) ++ X) with (d :: ds ++ X) in Hsu.
    rewrite (StringToNumber_plain _ d (ds ++ X)), Hsu by (done || by apply is_digit_neq; [|lia]).
    simpl. f_equal. lia.
Qed.

(** A score sent as the text of a number is coerced to that number. *)
Lemma getScoreColor_text ws1 m e ws2 :
  all_ws ws1 → all_ws ws2 →
  getScoreColor (JSV (JStr (ws1 ++ print_number m e ++ ws2))) = getScoreColor (JSV (JNum m e)).
Proof.
  intros H1 H2. unfold getScoreColor.
  rewrite ToNumber_str, StringToNumber_print_number by done. reflexivity.
Qed.

(** C21: A score sent as a string holding an integer's decimal text, with
    any white space around it, gets the colour band of that integer:
    green from 80, amber from 50, red below.  [score >= 80] coerces the
    text with [StringToNumber], so the string is not compared as text. *)
Theorem score_text_colour ws1 z ws2 :
  all_ws ws1 → all_ws ws2 →
  getScoreColor (JSV (JStr (ws1 ++ print_int z ++ ws2))) = Some (score_color z).
Proof.
  intros H1 H2. rewrite <- getScoreColor_int, <- (getScoreColor_text ws1 z 0 ws2) by done.
  unfold print_number. simpl. by rewrite app_nil_r.
Qed.

(** C20: A grounding chunk without a [web] entry (the type promises one, the
    service does not) makes the page throw, whatever the analysis:
    [source.web.uri] reads a property of [undefined]. *)
Theorem source_without_web_crashes a srcs c :
  c ∈ srcs → web c = None → AnalysisDisplay a srcs = None.
Proof.
  intros Hc Hw. assert (Hm : mapM source_link srcs = None).
  { apply mapM_None, Exists_exists. exists c. split; [by apply list_elem_of_In|].
    unfold source_link. rewrite Hw. reflexivity. }
  assert (Hne : srcs ≠ []) by (intros ->; inversion Hc).
  unfold AnalysisDisplay. rewrite (bool_decide_eq_true_2 _ Hne), Hm. bind_to_None.
Qed.

(** ** Concrete renders *)

#[local] Existing Instance demo_platform.

Lemma score_text_colour_witness :
  getScoreColor (JSV (JStr ([32%N] ++ print_int 85 ++ []))) = Some NIGERIAN_GREEN.
Proof. apply (score_text_colour [32%N] 85 []); repeat constructor. Defined.

Lemma source_without_web_crashes_witness :
  AnalysisDisplay sample_analysis [mkChunk None] = None.
Proof. apply (source_without_web_crashes _ _ (mkChunk None)); [constructor | reflexivity]. Defined.

(** The reply [{}] between fences. *)
Definition empty_reply : GenerateContentResponse :=
  sample_response (Some (fence_json ++ [10%N] ++ ‹"{}"› ++ [10%N] ++ fence)).

(** C16: The client accepts a reply whose JSON is an empty object (it is
    truthy, and nothing checks the fields), so a session reaches a state
    whose result view is given [{}], and that render throws:
    [analysis.scoreBreakdown.map] reads [map] of [undefined].  The page
    goes blank instead of showing the structured-analysis error. *)
Theorem empty_object_reply_blanks_page :
  ∃ s a src, reachable s ∧ App.results_view (app s) = Some (a, src) ∧ AnalysisDisplay a src = None.
Proof.
  exists (from_trace (pending_trace ++ [CallCompleted (Ok empty_reply)])), (JObj []), sample_sources.
  split_and!.
  - apply (reachable_trace (pending_trace ++ [CallCompleted (Ok empty_reply)])).
    vm_compute. reflexivity.
  - vm_compute. reflexivity.
  - reflexivity.
Qed.
