(* ===== verification/Page.v ===== *)
(** * The rendered page: the JSX of src/App.tsx, src/components/FileUpload.tsx,
      src/components/Header.tsx and src/components/HowItWorks.tsx

    What a session shows: the header, the three steps of [HowItWorks],
    the industry field, the panel [FileUpload] returns (parsing, the
    chosen file, or the drop zone), the Analyze button (its content,
    colour and [disabled] attribute), the error banner, the loading note,
    the result view and the footer.  The render is [None] when the result
    view throws (see [Display]): with no error boundary the page goes
    blank.  The theorems relate the page to the session model of [App]:
    while an analysis is awaited the page always shows the loading note
    and a busy, disabled button and no result; a reply of the documented
    shape ends with its analysis on the page; and the whole happy path,
    from the first render to that page, is a run of the session for
    every input. *)

From Stdlib Require Import NArith ZArith String.
From stdpp Require Import base list options decidable.
From S2P Require Import Prelude JsString FileParser Json GeminiService App Display.

Local Open Scope js_scope.

(** ** Static parts *)

(** [Header]: the logo and the brand name. *)
Record HeaderView := mkHeader { logo_src : jstr; logo_alt : jstr; brand : jstr; brand_suffix : jstr }.

Definition Header : HeaderView :=
  mkHeader ‹"https://mycv.ng/images/fav.png"› ‹"MyCv.ng Logo"› ‹"MyCv"› ‹".ng"›.

(** The icons of [./icons/Icons], which the repository does not contain. *)
Inductive Icon := UploadCloudIcon | BriefcaseIcon | ChartBarIcon | FileIcon.

(** [Step] of [HowItWorks]: its icon, title and description. *)
Record StepView := Step { step_icon : Icon; step_title : jstr; step_description : jstr }.

Record HowItWorksView := mkHowItWorks { how_heading : jstr; how_steps : list StepView }.

Definition HowItWorks : HowItWorksView :=
  mkHowItWorks ‹"Get Your Analysis in 3 Simple Steps"›
    [Step UploadCloudIcon ‹"1. Upload Your CV"› ‹"Securely upload your CV in PDF or TXT format."›;
     Step BriefcaseIcon ‹"2. Add Your Industry"› ‹"Tell us your field so we can tailor the analysis."›;
     Step ChartBarIcon ‹"3. Get Your Analysis"› ‹"Receive instant, AI-powered feedback and trends."›].

(** ** [FileUpload]'s panel *)

Inductive Panel :=
(** [if (isParsing)]: the spinner, and the name when it is truthy *)
| PanelParsing (shown_name : option jstr)
(** [if (fileName)]: the file name and the Remove button *)
| PanelFile (name : jstr)
(** the drop zone, its border blue while a file is dragged over it *)
| PanelDropZone (dragging : bool).

Definition panel_label (p : Panel) : jstr :=
  match p with
  | PanelParsing _ => ‹"Analyzing your document..."›
  | PanelFile _ => ‹"Your CV"›
  | PanelDropZone _ => ‹"Upload Your CV"›
  end.

Definition FileUpload_render (u : FileUpload.State) (fileName : option jstr) : Panel :=
  if FileUpload.isParsing u then
    PanelParsing (if opt_str_truthy (FileUpload.parsingFileName u) then FileUpload.parsingFileName u
                  else None)
  else match fileName with
       | Some n => if str_truthy n then PanelFile n else PanelDropZone (FileUpload.isDragging u)
       | None => PanelDropZone (FileUpload.isDragging u)
       end.

(** ** [App]'s page *)

(** [NIGERIAN_GREEN] and [PRIMARY_BLUE] of [constants.ts]. *)
Inductive Brand := Brand_NIGERIAN_GREEN | Brand_PRIMARY_BLUE.

(** The button's children: the [Loader] with its text, or the label. *)
Inductive ButtonContent := Analyzing | AnalyzeMyCV.

Definition analyzing_text : jstr := ‹"Analyzing... Hold on tight!"›.
Definition analyze_label : jstr := ‹"Oya, Analyze My CV!"›.
Definition cooking_text : jstr :=
  ‹"Our AI is cooking... checking the latest gist for your field!"›.

Record Page := mkPage {
  page_header : HeaderView;
  page_how : HowItWorksView;
  industry_value : jstr;
  panel : Panel;
  button_disabled : bool;
  button_background : Brand;
  button_content : ButtonContent;
  error_text : option jstr;
  (** [{isLoading && !analysis && <p>Our AI is cooking...</p>}] *)
  cooking_note : bool;
  results : option DisplayView;
  (** [new Date().getFullYear()] *)
  footer_year : Z
}.

(** The render of [App] in the session [s] in the year [year]. *)
Definition App_render (year : Z) (s : Session) : option Page :=
  let a := app s in
  results ← match App.results_view a with
            | Some (an, srcs) => Some <$> AnalysisDisplay an srcs
            | None => Some None
            end;
  Some (mkPage Header HowItWorks (App.industry a)
          (FileUpload_render (upload s) (App.fileName a))
          (App.isLoading a || negb (str_truthy (App.cvText a)) || negb (str_truthy (App.industry a)))
          (if App.isLoading a then Brand_NIGERIAN_GREEN else Brand_PRIMARY_BLUE)
          (if App.isLoading a then Analyzing else AnalyzeMyCV)
          (App.error_banner a)
          (App.isLoading a && negb (from_option json_truthy false (App.analysis a)))
          results year).

Section Session.
Context {P : Platform}.

(** C13: While an analysis is awaited, the page of a reachable session
    renders (it cannot throw) and shows the loading note, a disabled
    button with the [Loader] and its text, and no result: the invariant
    of [App] keeps no analysis while loading, so the note's condition
    [isLoading && !analysis] holds and the result view's fails. *)
Theorem loading_page y s :
  reachable s → App.isLoading (app s) = true →
  ∃ p, App_render y s = Some p ∧ cooking_note p = true ∧ button_disabled p = true ∧
       button_content p = Analyzing ∧ results p = None.
Proof.
  intros Hr Hl. destruct (call_inv_reachable s Hr) as (_ & H4 & _).
  destruct (H4 Hl) as [Ha _]. unfold App_render, App.results_view. rewrite Ha, Hl.
  by eexists.
Qed.

(** The page after a fenced reply of the documented shape completes the
    awaited call: the result view shows it, the loading note is gone, the
    button is idle, and the panel and the error banner are as before. *)
Lemma page_after_fenced_reply y s s' r res ws ws1 ws2 ws3 :
  step s (CallCompleted (Ok r)) s' →
  text r = Some (fence_json ++ ws1 ++ print (result_json res) ++ ws2 ++ fence ++ ws3) →
  all_ws ws1 → all_json_ws ws2 → all_ws ws3 →
  response_sources r = map (λ w, mkChunk (Some w)) ws →
  ∃ p, App_render y s' = Some p ∧ cooking_note p = false ∧ button_content p = AnalyzeMyCV ∧
    results p = Some (conforming_view res ws) ∧
    panel p = FileUpload_render (upload s) (App.fileName (app s)) ∧
    error_text p = App.error_banner (app s).
Proof.
  intros [-> _]%step_call_done_inv Ht H1 H2 H3 Hw.
  unfold App_render, handleAnalyze_done, App.handleAnalyze_finish, App.results_view.
  rewrite handle_response_Ok, Ht, parseAnalysisResponse_fenced by done.
  cbn -[AnalysisDisplay]. rewrite Hw, AnalysisDisplay_result_json. by eexists.
Qed.

(** C14: A reply of the documented shape, fenced as the prompt asks, with
    web sources, ends the awaited call with its analysis on the page:
    the page renders, the loading note is gone, the button is idle, and
    the result view shows the reply's score and colour, summary, key
    improvement, bars, trends and source links. *)
Theorem conforming_reply_page y s s' r res ws ws1 ws2 ws3 :
  step s (CallCompleted (Ok r)) s' →
  text r = Some (fence_json ++ ws1 ++ print (result_json res) ++ ws2 ++ fence ++ ws3) →
  all_ws ws1 → all_json_ws ws2 → all_ws ws3 →
  response_sources r = map (λ w, mkChunk (Some w)) ws →
  ∃ p, App_render y s' = Some p ∧ cooking_note p = false ∧ button_content p = AnalyzeMyCV ∧
    results p = Some (conforming_view res ws).
Proof.
  intros Hs Ht H1 H2 H3 Hw.
  destruct (page_after_fenced_reply y s s' r res ws ws1 ws2 ws3 Hs Ht H1 H2 H3 Hw)
    as (p & Hp & Hc & Hb & Hr & _). by exists p.
Qed.

Lemma text_plain_accepted :
  existsb (λ m, bool_decide (m = mime_text_plain)) FileUpload.ACCEPTED_MIME_TYPES = true.
Proof. vm_compute. reflexivity. Qed.

(** The run of a plain-text CV: after the industry is entered and the
    file is selected and read, the Analyze button is enabled; the click
    sends the prompt built from the text and the industry, and leaves
    the file shown with no error. *)
Lemma text_file_run f t ind :
  type f = mime_text_plain → str_truthy t = true → str_truthy (trim ind) = true →
  let s2 := handleFileSelect [f] (with_app (App.setIndustry ind) initial) in
  let s4 := handleAnalyze_click (processFile_finish f (Ok t) s2) in
  parse_in_flight s2 = Some f ∧ App.analyze_enabled (app (processFile_finish f (Ok t) s2)) = true ∧
  call_in_flight s4 = Some (analysis_request (buildPrompt t ind)) ∧
  FileUpload.isParsing (upload s4) = false ∧ App.fileName (app s4) = Some (name f) ∧
  App.error_banner (app s4) = None.
Proof.
  intros Hty Ht Hi. cbv zeta.
  unfold handleFileSelect, process_first, processFile_start. rewrite Hty, text_plain_accepted.
  unfold processFile_finish, handleAnalyze_click, App.handleAnalyze_start, App.analyze_enabled.
  simpl. rewrite ?Ht, ?Hi, ?(str_truthy_untrimmed ind Hi). simpl. split_and!; reflexivity.
Qed.

(** C10: The happy path is open for every input: from the first render,
    entering an industry that is not blank, selecting a plain-text file
    whose text is not blank, letting it be read, clicking Analyze and
    receiving a fenced reply of the documented shape is a run of the
    session, and it ends on a page that shows the chosen file, no error,
    and the reply's analysis. *)
Theorem happy_path y f t ind r res ws ws1 ws2 ws3 :
  type f = mime_text_plain → read_as_text f = Some t → str_truthy (trim t) = true →
  str_truthy (name f) = true → str_truthy (trim ind) = true →
  text r = Some (fence_json ++ ws1 ++ print (result_json res) ++ ws2 ++ fence ++ ws3) →
  all_ws ws1 → all_json_ws ws2 → all_ws ws3 →
  response_sources r = map (λ w, mkChunk (Some w)) ws →
  ∃ s, star step initial
         [IndustryChanged ind; FileSelected [f]; ParseCompleted; AnalyzeClicked; CallCompleted (Ok r)] s ∧
  ∃ p, App_render y s = Some p ∧ panel p = PanelFile (name f) ∧ error_text p = None ∧
       results p = Some (conforming_view res ws).
Proof.
  intros Hty Hread Ht Hn Hi Hr H1 H2 H3 Hw.
  pose proof (extract_text_plain_Ok f t Hty Hread Ht) as Hx.
  destruct (text_file_run f t ind Hty (str_truthy_untrimmed t Ht) Hi)
    as (Hs2 & Hen & Hcall & Hpars & Hname & Herr0).
  set (s2 := handleFileSelect [f] _) in *.
  set (s4 := handleAnalyze_click _) in *.
  assert (Hst : step s4 (CallCompleted (Ok r)) (handleAnalyze_done (Ok r) s4))
    by (eapply step_call_done; exact Hcall).
  destruct (page_after_fenced_reply y s4 _ r res ws ws1 ws2 ws3 Hst Hr H1 H2 H3 Hw)
    as (p & Hp & _ & _ & Hres & Hpanel & Herr).
  exists (handleAnalyze_done (Ok r) s4). split.
  - eapply star_step; [apply step_industry|].
    eapply star_step; [apply step_select; reflexivity|].
    eapply star_step; [apply step_parse_done, Hs2|]. rewrite Hx.
    eapply star_step; [apply step_analyze, Hen|].
    eapply star_step; [exact Hst | constructor].
  - exists p. split_and!; [exact Hp | | | exact Hres].
    + rewrite Hpanel. unfold FileUpload_render. rewrite Hpars, Hname. simpl. by rewrite Hn.
    + rewrite Herr. exact Herr0.
Qed.

End Session.

(** ** Concrete pages *)

#[local] Existing Instance demo_platform.

(** The prompt's example as a value of the documented shape. *)
Definition sample_result : AnalysisResult :=
  mkResult 85
    [mkBreakdown ‹"Clarity & Formatting"› 90 ‹"Well structured."›;
     mkBreakdown ‹"Impact & Keywords"› 80 ‹"Add keywords."›;
     mkBreakdown ‹"Experience Relevancy"› 85 ‹"Tailor it."›]
    ‹"This your CV get as e be."› ‹"Quantify your achievements."›
    [‹"AI-powered tools are now common for applicant tracking."›;
     ‹"Remote work skills are highly sought after by employers."›;
     ‹"Data literacy is becoming a key skill in this industry."›].

Definition sample_web : Web := mkWeb (Some ‹"https://example.org/trends"›) (Some ‹"Trends"›).

Lemma loading_page_witness :
  ∃ p, App_render 2026 (from_trace pending_trace) = Some p ∧ cooking_note p = true ∧
       button_disabled p = true ∧ button_content p = Analyzing ∧ results p = None.
Proof. apply loading_page; [exact reachable_pending | vm_compute; reflexivity]. Defined.

Lemma conforming_reply_page_witness :
  ∃ p, App_render 2026 (handleAnalyze_done (Ok good_reply) (from_trace pending_trace)) = Some p ∧
    cooking_note p = false ∧ button_content p = AnalyzeMyCV ∧
    results p = Some (conforming_view sample_result [sample_web]).
Proof.
  apply (conforming_reply_page 2026 (from_trace pending_trace) _ good_reply sample_result [sample_web]
           nl nl []).
  - apply step_exec_event. vm_compute. reflexivity.
  - vm_compute. reflexivity.
  - repeat constructor.
  - repeat constructor.
  - repeat constructor.
  - reflexivity.
Defined.

Lemma happy_path_witness :
  ∃ s, star step initial
         [IndustryChanged field; FileSelected [cv_a]; ParseCompleted; AnalyzeClicked;
          CallCompleted (Ok good_reply)] s ∧
  ∃ p, App_render 2026 s = Some p ∧ panel p = PanelFile (name cv_a) ∧ error_text p = None ∧
       results p = Some (conforming_view sample_result [sample_web]).
Proof.
  apply (happy_path 2026 cv_a ‹"Backend engineer, 5 years of Go."› field good_reply sample_result
           [sample_web] nl nl []);
    first [vm_compute; reflexivity | repeat constructor].
Defined.
