(* ===== verification/Charts.v ===== *)
(** * Chart geometry: src/components/charts/RadialProgress.tsx

    [RadialProgress] draws the overall score as an arc: a circle of
    radius [size/2 - strokeWidth] whose stroke is dashed with one dash
    as long as the circumference, shifted by [strokeDashoffset], so the
    visible arc is [circumference - offset] long.  This file models that
    geometry over the reals ([Math.PI] is π; the rounding to binary64 is
    not modelled) for the score [ToNumber] yields (see [Display]), and
    proves its bounds: with the default size and stroke the offset lies
    within [0, circumference] exactly when the score lies within
    [0, 100].  Nothing clamps the score, so a score outside the documented range
    gives an offset outside the circle. *)

From Stdlib Require Import ZArith Reals Lra.
From S2P Require Import Json Display.

Local Open Scope R_scope.

(** ** The geometry *)

Record Ring := mkRing {
  center : R;
  radius : R;
  circumference : R;
  offset : R
}.

(** Lines 11-14 of the component. *)
Definition ring_geometry (size strokeWidth score : R) : Ring :=
  let center := size / 2 in
  let radius := center - strokeWidth in
  let circumference := 2 * PI * radius in
  let offset := circumference - (score / 100) * circumference in
  mkRing center radius circumference offset.

(** The defaults [size = 160] and [strokeWidth = 12]; [AnalysisDisplay]
    passes neither. *)
Definition default_size : R := 160.
Definition default_strokeWidth : R := 12.

(** The value of the finite number m·10^e. *)
Definition number_value (m e : Z) : R := IZR m * powerRZ 10 e.

(** The geometry for the [score] prop as rendered: [score / 100] applies
    [ToNumber].  [None] when the conversion throws or the number is not
    finite (the attributes are then NaN or infinite, and the arc is not
    drawn). *)
Definition RadialProgress_geometry (score : jsval) : option Ring :=
  match ToNumber score with
  | Some (Fin m e) => Some (ring_geometry default_size default_strokeWidth (number_value m e))
  | _ => None
  end.

(** ** Lemmas *)

Lemma ring_default_shape s :
  center (ring_geometry default_size default_strokeWidth s) = 80 /\
  radius (ring_geometry default_size default_strokeWidth s) = 68 /\
  circumference (ring_geometry default_size default_strokeWidth s) = 136 * PI.
Proof. unfold ring_geometry, default_size, default_strokeWidth; simpl. repeat split; lra. Qed.

Lemma ring_offset_eq s :
  offset (ring_geometry default_size default_strokeWidth s) =
  circumference (ring_geometry default_size default_strokeWidth s) * (1 - s / 100).
Proof. unfold ring_geometry; simpl. ring. Qed.

Lemma scaled_bounds C x : 0 < C -> (0 <= C * x <= C <-> 0 <= x <= 1).
Proof. intros HC. split; intros [H1 H2]; split; nra. Qed.

Lemma circumference_pos s : 0 < circumference (ring_geometry default_size default_strokeWidth s).
Proof. destruct (ring_default_shape s) as (_ & _ & ->). pose proof PI_RGT_0. lra. Qed.

Lemma number_value_int z : number_value z 0 = IZR z.
Proof. unfold number_value. simpl. ring. Qed.

Lemma ring_offset_bounds s :
  0 <= offset (ring_geometry default_size default_strokeWidth s)
    <= circumference (ring_geometry default_size default_strokeWidth s)
  <-> 0 <= s <= 100.
Proof.
  rewrite ring_offset_eq, scaled_bounds by apply circumference_pos.
  split; intros [H1 H2]; split; lra.
Qed.

Lemma RadialProgress_geometry_int z :
  RadialProgress_geometry (JSV (JNum z 0)) =
  Some (ring_geometry default_size default_strokeWidth (IZR z)).
Proof. unfold RadialProgress_geometry. simpl. rewrite number_value_int. reflexivity. Qed.

(** C9: For an integer overall score [z] (as a reply of the documented
    shape carries), the ring is drawn and its dash offset lies between 0
    and the circumference exactly when [0 <= z <= 100]: the documented
    range is the range the geometry is drawn for, and nothing clamps a
    score outside it (a score of 120 gives a negative offset). *)
Theorem radial_offset_bounds z :
  exists g, RadialProgress_geometry (JSV (JNum z 0)) = Some g /\
    (0 <= offset g <= circumference g <-> (0 <= z <= 100)%Z).
Proof.
  eexists. split; [apply RadialProgress_geometry_int|].
  rewrite ring_offset_bounds. split.
  - intros [H1 H2]. split; [apply le_IZR | apply le_IZR]; assumption.
  - intros [H1 H2]. split; [apply IZR_le | apply IZR_le]; assumption.
Qed.
