(* ===== verification/Schema.v ===== *)
(** * The declared types of a reply: src/types.ts

    [types.ts] declares the shape the component expects ([AnalysisResult]
    with its [ScoreBreakdown] entries, and [GroundingChunk]); TypeScript
    checks it statically, while at run time the parsed reply is only cast
    to it.  This file gives the interfaces as types over parsed values
    ([has_type] reads each declared field with the property access the
    component uses, so extra members and shadowed duplicates are allowed,
    as in TypeScript's structural typing) and proves that the declared
    types are enough: a reply of type [AnalysisResult] with sources of
    type [GroundingChunk] renders without throwing. *)

From Stdlib Require Import NArith ZArith String.
From stdpp Require Import base list options decidable.
From S2P Require Import Prelude JsString Json GeminiService Display.

Local Open Scope js_scope.

(** ** Types *)

(** The TypeScript types the interfaces use. *)
#[warnings="-register-all"]
Inductive ty :=
| TString
| TNumber
| TArray (t : ty)
| TObject (fields : list (jstr * ty)).

(** A parsed value of type [t]: a declared field must be present (its
    value being what [o.k] reads) and of its declared type. *)
Fixpoint has_type (t : ty) (v : json) : bool :=
  match t, v with
  | TString, JStr _ => true
  | TNumber, JNum _ _ => true
  | TArray t', JArr l => forallb (has_type t') l
  | TObject fs, JObj ms =>
      (fix fields (fs : list (jstr * ty)) : bool :=
         match fs with
         | [] => true
         | (k, t') :: r =>
             match member k ms with Some w => has_type t' w | None => false end && fields r
         end) fs
  | _, _ => false
  end.

(** [interface ScoreBreakdown] (lines 1-5). *)
Definition ScoreBreakdown_ty : ty :=
  TObject [(‹"area"›, TString); (‹"score"›, TNumber); (‹"feedback"›, TString)].

(** [interface AnalysisResult] (lines 7-13). *)
Definition AnalysisResult_ty : ty :=
  TObject [(‹"overallScore"›, TNumber); (‹"scoreBreakdown"›, TArray ScoreBreakdown_ty);
           (‹"summary"›, TString); (‹"keyImprovement"›, TString); (‹"trends"›, TArray TString)].

(** [interface GroundingChunk] (lines 15-20): [web] with its [uri] and
    [title] strings. *)
Definition chunk_typed (c : GroundingChunk) : bool :=
  match web c with
  | Some w => bool_decide (is_Some (uri w)) && bool_decide (is_Some (title w))
  | None => false
  end.

(** ** Lemmas *)

Lemma has_type_fields fs ms :
  has_type (TObject fs) (JObj ms) = true ↔
  Forall (λ kt, ∃ w, member kt.1 ms = Some w ∧ has_type kt.2 w = true) fs.
Proof.
  induction fs as [|[k t] fs IH]; [split; auto|].
  change (has_type (TObject ((k, t) :: fs)) (JObj ms)) with
    ((match member k ms with Some w => has_type t w | None => false end) &&
     has_type (TObject fs) (JObj ms)).
  rewrite Bool.andb_true_iff, Forall_cons_iff, <- IH. simpl.
  destruct (member k ms) as [w|].
  - split; [intros [? ?]; split; [by eexists|done] | intros [(w' & [= ->] & ?) ?]; by split].
  - split; [intros [[=] _] | intros [(w & [=] & _) _]].
Qed.

Lemma forallb_has_type t l : forallb (has_type t) l = true → Forall (λ v, has_type t v = true) l.
Proof. induction l as [|v l IH]; simpl; [done|]. intros [??]%Bool.andb_true_iff. constructor; auto. Qed.

Lemma typed_strings_renderable ts :
  forallb (has_type TString) ts = true → forallb (λ t, child_ok (JSV t)) ts = true.
Proof. induction ts as [|[] ts IH]; simpl; naive_solver. Qed.

Lemma score_bar_typed it :
  has_type ScoreBreakdown_ty it = true → ∃ b, score_bar it = Some b ∧ ScoreBar b = Some ().
Proof.
  destruct it as [| | | | |ms]; try done. unfold ScoreBreakdown_ty. rewrite has_type_fields, !Forall_cons_iff.
  intros ((a & Ha & Hta) & (s & Hs & Hts) & (f & Hf & Htf) & _). simpl in *.
  destruct a, s, f; try done. unfold score_bar. simpl. rewrite Ha, Hs, Hf.
  eexists. split; reflexivity.
Qed.

Lemma source_link_typed c : chunk_typed c = true → ∃ y, source_link c = Some y ∧ True.
Proof. unfold chunk_typed, source_link. destruct (web c); [|done]. intros _. by eexists. Qed.

Lemma get_obj ms k :
  get (JSV (JObj ms)) k = Some (match member k ms with Some v => JSV v | None => Undefined end).
Proof. reflexivity. Qed.

(** C12: The declared types are enough for the render: a reply of type
    [AnalysisResult] (each declared field present, as property access
    reads it, with its declared type; extra members allowed) with sources
    of type [GroundingChunk] renders without throwing. *)
Theorem typed_reply_renders v srcs :
  has_type AnalysisResult_ty v = true → Forall (λ c, chunk_typed c = true) srcs →
  is_Some (AnalysisDisplay v srcs).
Proof.
  intros Hv Hs. destruct v as [| | | | |ms]; try done.
  unfold AnalysisResult_ty in Hv. rewrite has_type_fields, !Forall_cons_iff in Hv.
  destruct Hv as ((o & Ho & Hto) & (b & Hb & Htb) & (sm & Hsm & Htsm) &
                  (ki & Hki & Htki) & (tr & Htr & Httr) & _); cbn [fst snd] in *.
  destruct o, sm, ki, b as [| | | | items|], tr as [| | | | ts|]; try discriminate.
  destruct (mapM_Forall_Some score_bar (λ b, ScoreBar b = Some ()) items) as (bs & Hbs & Hok).
  { revert Htb. intros Htb%forallb_has_type. revert Htb. apply Forall_impl, score_bar_typed. }
  destruct (mapM_Forall_Some ScoreBar (λ _, True) bs) as (us & Hus & _).
  { revert Hok. apply Forall_impl. intros bv Hbv. rewrite Hbv. by eexists. }
  destruct (mapM_Forall_Some source_link (λ _, True) srcs) as (ls & Hls & _).
  { revert Hs. apply Forall_impl, source_link_typed. }
  unfold AnalysisDisplay. rewrite !get_obj, Ho, Hb, Hsm, Hki, Htr. simpl.
  rewrite Hbs. simpl. rewrite Hus, Z.mul_1_r.
  destruct (_ <? _)%Z, (bool_decide _); simpl; rewrite ?Hls; simpl;
    rewrite ?typed_strings_renderable by exact Httr; by eexists.
Qed.

(** ** Concrete values *)

(** The prompt's example reply, with one member the interface does not
    declare. *)
Definition extended_analysis : json :=
  match sample_analysis with
  | JObj ms => JObj ((‹"confidence"›, JStr ‹"high"›) :: ms)
  | v => v
  end.

Lemma typed_reply_renders_witness :
  has_type AnalysisResult_ty extended_analysis = true ∧
  is_Some (AnalysisDisplay extended_analysis sample_sources).
Proof.
  split; [vm_compute; reflexivity|].
  apply typed_reply_renders; [vm_compute; reflexivity | repeat constructor].
Defined.
